(** * Travel-blog backend: content lifecycle and analytics

    A shallow embedding of the Express/Mongoose backend of the travel-blog
    admin application:

    - [models/Blog.js], the content schema, its setters and its pre-save hook;
    - [models/User.js], the identity schema (role and activity counters);
    - the blog router: read by identifier, create, update, delete, bulk;
    - the blog router's list and statistics routes;
    - the analytics router: the dashboard, with its per-day creation trend.

    JavaScript strings are sequences of UTF-16 code units, modelled as
    [list Z]; dates are milliseconds since the epoch in [Z]; a collection is
    a finite map from [ObjectId] to documents; a request handler is a
    function from the store to a reply and the store it leaves behind. *)

From Stdlib Require Import ZArith List Lia Bool String Ascii Sorted.
From stdpp Require Import base option list gmap strings fin_maps.

Local Open Scope Z_scope.

(** ** JavaScript strings *)

Abbreviation jsstring := (list Z).

(** Code units of an ASCII literal. *)
Fixpoint str (s : string) : jsstring :=
  match s with
  | EmptyString => []
  | String a r => Z.of_N (N_of_ascii a) :: str r
  end.

Definition HYPHEN : Z := 45.
Definition SPACE : Z := 32.

Definition inRange (lo hi c : Z) : bool := (lo <=? c) && (c <=? hi).

Definition isLowerAZ (c : Z) : bool := inRange 97 122 c.
Definition isUpperAZ (c : Z) : bool := inRange 65 90 c.
Definition isDigit (c : Z) : bool := inRange 48 57 c.

(** The regular-expression class [\s] (without the [u] flag it is matched
    code unit by code unit): the ECMAScript WhiteSpace and LineTerminator
    code points. *)
Definition isSpace (c : Z) : bool :=
  inRange 9 13 c || (c =? 32) || (c =? 160) || (c =? 5760)
  || inRange 8192 8202 c || (c =? 8232) || (c =? 8233) || (c =? 8239)
  || (c =? 8287) || (c =? 12288) || (c =? 65279).

(** [s.replace(/[^a-zA-Z0-9\s]/g, '')]: every code unit outside the class is
    deleted. *)
Definition keptBySlug (c : Z) : bool :=
  isLowerAZ c || isUpperAZ c || isDigit c || isSpace c.

Definition stripNonAlnum (s : jsstring) : jsstring := List.filter keptBySlug s.

(** [s.replace(/\s+/g, '-')]: the global replace scans left to right and
    each maximal run of [\s] becomes one hyphen.  [inrun] records that the
    previous code unit belonged to the run being replaced. *)
Fixpoint hyphenateFrom (inrun : bool) (s : jsstring) : jsstring :=
  match s with
  | [] => []
  | c :: r =>
      if isSpace c
      then (if inrun then hyphenateFrom true r
            else HYPHEN :: hyphenateFrom true r)
      else c :: hyphenateFrom false r
  end.

Definition hyphenateSpaces (s : jsstring) : jsstring := hyphenateFrom false s.

(** [s.substring(0, n)] for [0 <= n]. *)
Definition substring0 (n : nat) (s : jsstring) : jsstring := firstn n s.

(** [s.trim()]: strips WhiteSpace and LineTerminator at both ends. *)
Fixpoint trimStart (s : jsstring) : jsstring :=
  match s with
  | [] => []
  | c :: r => if isSpace c then trimStart r else s
  end.

Definition trim (s : jsstring) : jsstring := rev (trimStart (rev (trimStart s))).

(** [s.split(sep)] for a one-code-unit separator: the pieces between the
    separators, so that there is always one piece more than separators. *)
Fixpoint split (sep : Z) (s : jsstring) : list jsstring :=
  match s with
  | [] => [[]]
  | c :: r =>
      if c =? sep then [] :: split sep r
      else match split sep r with
           | p :: ps => (c :: p) :: ps
           | [] => [[c]]
           end
  end.

(** ASCII-only lower-casing: what [toLowerCase] does on a string of code
    units below 128. *)
Definition asciiLowerUnit (c : Z) : Z := if isUpperAZ c then c + 32 else c.
Definition asciiLowerCase (s : jsstring) : jsstring := map asciiLowerUnit s.

Definition isAscii (c : Z) : bool := inRange 0 127 c.

(** The characters a slug may contain: [a-z0-9-]. *)
Definition isSlugChar (c : Z) : bool := isLowerAZ c || isDigit c || (c =? HYPHEN).

(** No two adjacent hyphens. *)
Fixpoint noHyphenRun (s : jsstring) : bool :=
  match s with
  | [] => true
  | c :: r =>
      match r with
      | d :: _ => negb ((c =? HYPHEN) && (d =? HYPHEN)) && noHyphenRun r
      | [] => true
      end
  end.

Definition startsWithHyphen (s : jsstring) : bool :=
  match s with c :: _ => c =? HYPHEN | [] => false end.

Definition endsWithHyphen (s : jsstring) : bool := startsWithHyphen (rev s).

(** ** The runtime's [String.prototype.toLowerCase]

    The Unicode case mapping belongs to the JavaScript engine.  It is taken
    as a parameter of the development, together with the two facts about it
    that the backend relies on. *)
Class LowerCase := {
  toLowerCase : jsstring -> jsstring;
  toLowerCase_no_upper :
    forall s, Forall (fun c => isUpperAZ c = false) (toLowerCase s);
  toLowerCase_ascii :
    forall s, Forall (fun c => isAscii c = true) s ->
              toLowerCase s = asciiLowerCase s
}.

(** Slug generation, as written in both the create and the update route:
    [title.toLowerCase().replace(/[^a-zA-Z0-9\s]/g, '')
          .replace(/\s+/g, '-').substring(0, 50)]. *)
Definition generateSlug `{LowerCase} (title : jsstring) : jsstring :=
  substring0 50 (hyphenateSpaces (stripNonAlnum (toLowerCase title))).

(** ** Data model *)

(** A store-native identifier: the 96-bit value of a Mongo ObjectId. *)
Abbreviation ObjectId := Z.
(** A [Date]: milliseconds since the epoch. *)
Abbreviation Date := Z.

(** [role] of models/User.js. *)
Inductive Role := Admin | Editor | Author | Subscriber.

(** [status] of models/Blog.js. *)
Inductive Status := Draft | Published | Scheduled | Archived.

#[global] Instance Role_eq_dec : EqDecision Role.
Proof. solve_decision. Defined.
#[global] Instance Status_eq_dec : EqDecision Status.
Proof. solve_decision. Defined.

(** models/User.js; the profile and preference blocks, which no route below
    reads, are left out. *)
Module User.
Record t := mk {
  username : jsstring;
  email : jsstring;
  role : Role;
  postsCount : Z;
  viewsCount : Z;
  likesCount : Z;
  isActive : bool;
  lastLogin : option Date;
  createdAt : Date;
  updatedAt : Date
}.

Definition set_postsCount (v : Z) (u : t) : t :=
  {| username := username u; email := email u; role := role u;
     postsCount := v; viewsCount := viewsCount u; likesCount := likesCount u;
     isActive := isActive u; lastLogin := lastLogin u;
     createdAt := createdAt u; updatedAt := updatedAt u |}.
End User.

Record Image := { url : jsstring; alt : jsstring; caption : jsstring }.

(** Coordinates are kept as integers; no route computes with them. *)
Record Location := {
  country : jsstring;
  city : jsstring;
  coordinates : option (Z * Z)
}.

(** A value that a request carries under a key of its [seo] object: a
    string or an array of strings.  (Numbers, booleans, [null] and nested
    objects are left out.) *)
Inductive SeoValue := SeoText (s : jsstring) | SeoList (l : list jsstring).

(** The [seo] block of models/Blog.js: the four paths the schema declares.
    A text path is [None] while it is unset; [keywords], an array path, is
    the empty array by default. *)
Record Seo := {
  metaTitle : option jsstring;
  metaDescription : option jsstring;
  keywords : list jsstring;
  canonicalUrl : option jsstring
}.

(** The engagement counters are Numbers; the model has the integer-valued
    ones.  (An integer beyond 2^53 that no double holds does not occur in a
    store.) *)
Record Stats := { views : Z; likes : Z; shares : Z; comments : Z }.

#[global] Instance Image_eq_dec : EqDecision Image.
Proof. solve_decision. Defined.
#[global] Instance Location_eq_dec : EqDecision Location.
Proof. solve_decision. Defined.
#[global] Instance SeoValue_eq_dec : EqDecision SeoValue.
Proof. solve_decision. Defined.
#[global] Instance Seo_eq_dec : EqDecision Seo.
Proof. solve_decision. Defined.
#[global] Instance Stats_eq_dec : EqDecision Stats.
Proof. solve_decision. Defined.

(** models/Blog.js.  The document's [_id] is the key under which the
    collection holds it. *)
Module Blog.
Record t := mk {
  title : jsstring;
  slug : jsstring;
  content : jsstring;
  excerpt : jsstring;
  featuredImage : option Image;
  images : list Image;
  author : ObjectId;
  category : jsstring;
  tags : list jsstring;
  location : option Location;
  seo : Seo;
  status : Status;
  publishedAt : option Date;
  scheduledAt : option Date;
  stats : Stats;
  readingTime : Z;
  featured : bool;
  createdAt : Date;
  updatedAt : Date
}.

Definition set_title (v : jsstring) (b : t) : t :=
  {| title := v; slug := slug b; content := content b;
     excerpt := excerpt b; featuredImage := featuredImage b;
     images := images b; author := author b; category := category b;
     tags := tags b; location := location b; seo := seo b;
     status := status b; publishedAt := publishedAt b;
     scheduledAt := scheduledAt b; stats := stats b;
     readingTime := readingTime b; featured := featured b;
     createdAt := createdAt b; updatedAt := updatedAt b |}.
Definition set_slug (v : jsstring) (b : t) : t :=
  {| title := title b; slug := v; content := content b;
     excerpt := excerpt b; featuredImage := featuredImage b;
     images := images b; author := author b; category := category b;
     tags := tags b; location := location b; seo := seo b;
     status := status b; publishedAt := publishedAt b;
     scheduledAt := scheduledAt b; stats := stats b;
     readingTime := readingTime b; featured := featured b;
     createdAt := createdAt b; updatedAt := updatedAt b |}.
Definition set_content (v : jsstring) (b : t) : t :=
  {| title := title b; slug := slug b; content := v; excerpt := excerpt b;
     featuredImage := featuredImage b; images := images b;
     author := author b; category := category b; tags := tags b;
     location := location b; seo := seo b; status := status b;
     publishedAt := publishedAt b; scheduledAt := scheduledAt b;
     stats := stats b; readingTime := readingTime b;
     featured := featured b; createdAt := createdAt b;
     updatedAt := updatedAt b |}.
Definition set_excerpt (v : jsstring) (b : t) : t :=
  {| title := title b; slug := slug b; content := content b; excerpt := v;
     featuredImage := featuredImage b; images := images b;
     author := author b; category := category b; tags := tags b;
     location := location b; seo := seo b; status := status b;
     publishedAt := publishedAt b; scheduledAt := scheduledAt b;
     stats := stats b; readingTime := readingTime b;
     featured := featured b; createdAt := createdAt b;
     updatedAt := updatedAt b |}.
Definition set_featuredImage (v : option Image) (b : t) : t :=
  {| title := title b; slug := slug b; content := content b;
     excerpt := excerpt b; featuredImage := v; images := images b;
     author := author b; category := category b; tags := tags b;
     location := location b; seo := seo b; status := status b;
     publishedAt := publishedAt b; scheduledAt := scheduledAt b;
     stats := stats b; readingTime := readingTime b;
     featured := featured b; createdAt := createdAt b;
     updatedAt := updatedAt b |}.
Definition set_images (v : list Image) (b : t) : t :=
  {| title := title b; slug := slug b; content := content b;
     excerpt := excerpt b; featuredImage := featuredImage b; images := v;
     author := author b; category := category b; tags := tags b;
     location := location b; seo := seo b; status := status b;
     publishedAt := publishedAt b; scheduledAt := scheduledAt b;
     stats := stats b; readingTime := readingTime b;
     featured := featured b; createdAt := createdAt b;
     updatedAt := updatedAt b |}.
Definition set_category (v : jsstring) (b : t) : t :=
  {| title := title b; slug := slug b; content := content b;
     excerpt := excerpt b; featuredImage := featuredImage b;
     images := images b; author := author b; category := v;
     tags := tags b; location := location b; seo := seo b;
     status := status b; publishedAt := publishedAt b;
     scheduledAt := scheduledAt b; stats := stats b;
     readingTime := readingTime b; featured := featured b;
     createdAt := createdAt b; updatedAt := updatedAt b |}.
Definition set_tags (v : list jsstring) (b : t) : t :=
  {| title := title b; slug := slug b; content := content b;
     excerpt := excerpt b; featuredImage := featuredImage b;
     images := images b; author := author b; category := category b;
     tags := v; location := location b; seo := seo b; status := status b;
     publishedAt := publishedAt b; scheduledAt := scheduledAt b;
     stats := stats b; readingTime := readingTime b;
     featured := featured b; createdAt := createdAt b;
     updatedAt := updatedAt b |}.
Definition set_location (v : option Location) (b : t) : t :=
  {| title := title b; slug := slug b; content := content b;
     excerpt := excerpt b; featuredImage := featuredImage b;
     images := images b; author := author b; category := category b;
     tags := tags b; location := v; seo := seo b; status := status b;
     publishedAt := publishedAt b; scheduledAt := scheduledAt b;
     stats := stats b; readingTime := readingTime b;
     featured := featured b; createdAt := createdAt b;
     updatedAt := updatedAt b |}.
Definition set_seo (v : Seo) (b : t) : t :=
  {| title := title b; slug := slug b; content := content b;
     excerpt := excerpt b; featuredImage := featuredImage b;
     images := images b; author := author b; category := category b;
     tags := tags b; location := location b; seo := v; status := status b;
     publishedAt := publishedAt b; scheduledAt := scheduledAt b;
     stats := stats b; readingTime := readingTime b;
     featured := featured b; createdAt := createdAt b;
     updatedAt := updatedAt b |}.
Definition set_status (v : Status) (b : t) : t :=
  {| title := title b; slug := slug b; content := content b;
     excerpt := excerpt b; featuredImage := featuredImage b;
     images := images b; author := author b; category := category b;
     tags := tags b; location := location b; seo := seo b; status := v;
     publishedAt := publishedAt b; scheduledAt := scheduledAt b;
     stats := stats b; readingTime := readingTime b;
     featured := featured b; createdAt := createdAt b;
     updatedAt := updatedAt b |}.
Definition set_publishedAt (v : option Date) (b : t) : t :=
  {| title := title b; slug := slug b; content := content b;
     excerpt := excerpt b; featuredImage := featuredImage b;
     images := images b; author := author b; category := category b;
     tags := tags b; location := location b; seo := seo b;
     status := status b; publishedAt := v; scheduledAt := scheduledAt b;
     stats := stats b; readingTime := readingTime b;
     featured := featured b; createdAt := createdAt b;
     updatedAt := updatedAt b |}.
Definition set_scheduledAt (v : option Date) (b : t) : t :=
  {| title := title b; slug := slug b; content := content b;
     excerpt := excerpt b; featuredImage := featuredImage b;
     images := images b; author := author b; category := category b;
     tags := tags b; location := location b; seo := seo b;
     status := status b; publishedAt := publishedAt b; scheduledAt := v;
     stats := stats b; readingTime := readingTime b;
     featured := featured b; createdAt := createdAt b;
     updatedAt := updatedAt b |}.
Definition set_stats (v : Stats) (b : t) : t :=
  {| title := title b; slug := slug b; content := content b;
     excerpt := excerpt b; featuredImage := featuredImage b;
     images := images b; author := author b; category := category b;
     tags := tags b; location := location b; seo := seo b;
     status := status b; publishedAt := publishedAt b;
     scheduledAt := scheduledAt b; stats := v;
     readingTime := readingTime b; featured := featured b;
     createdAt := createdAt b; updatedAt := updatedAt b |}.
Definition set_readingTime (v : Z) (b : t) : t :=
  {| title := title b; slug := slug b; content := content b;
     excerpt := excerpt b; featuredImage := featuredImage b;
     images := images b; author := author b; category := category b;
     tags := tags b; location := location b; seo := seo b;
     status := status b; publishedAt := publishedAt b;
     scheduledAt := scheduledAt b; stats := stats b; readingTime := v;
     featured := featured b; createdAt := createdAt b;
     updatedAt := updatedAt b |}.
Definition set_featured (v : bool) (b : t) : t :=
  {| title := title b; slug := slug b; content := content b;
     excerpt := excerpt b; featuredImage := featuredImage b;
     images := images b; author := author b; category := category b;
     tags := tags b; location := location b; seo := seo b;
     status := status b; publishedAt := publishedAt b;
     scheduledAt := scheduledAt b; stats := stats b;
     readingTime := readingTime b; featured := v;
     createdAt := createdAt b; updatedAt := updatedAt b |}.
Definition set_updatedAt (v : Date) (b : t) : t :=
  {| title := title b; slug := slug b; content := content b;
     excerpt := excerpt b; featuredImage := featuredImage b;
     images := images b; author := author b; category := category b;
     tags := tags b; location := location b; seo := seo b;
     status := status b; publishedAt := publishedAt b;
     scheduledAt := scheduledAt b; stats := stats b;
     readingTime := readingTime b; featured := featured b;
     createdAt := createdAt b; updatedAt := v |}.

Definition set_views (v : Z) (b : t) : t :=
  set_stats {| views := v; likes := likes (stats b);
               shares := shares (stats b); comments := comments (stats b) |} b.
End Blog.

#[global] Instance Blog_eq_dec : EqDecision Blog.t.
Proof. solve_decision. Defined.

(** Request bodies.  A field that the client left out is [None]; the four
    fields the create route requires are plain strings, the empty string
    standing for a missing one (the validators reject both alike).  [seo] is
    the object the client sent, whatever its keys; [scheduledAt] is a number
    of milliseconds. *)
Module CreateBody.
Record t := mk {
  title : jsstring;
  content : jsstring;
  excerpt : jsstring;
  category : jsstring;
  tags : option (list jsstring);
  location : option Location;
  seo : option (gmap string SeoValue);
  featuredImage : option Image;
  images : option (list Image);
  status : option jsstring;
  featured : option bool;
  scheduledAt : option Date
}.
End CreateBody.

Module UpdateBody.
Record t := mk {
  title : option jsstring;
  content : option jsstring;
  excerpt : option jsstring;
  category : option jsstring;
  tags : option (list jsstring);
  location : option Location;
  seo : option (gmap string SeoValue);
  featuredImage : option Image;
  images : option (list Image);
  status : option jsstring;
  featured : option bool;
  scheduledAt : option Date
}.
End UpdateBody.

Module BulkBody.
(** [blogIds] is [None] when the field is missing or is not an array. *)
Record t := mk {
  action : option jsstring;
  blogIds : option (list ObjectId)
}.
End BulkBody.

(** ** The store *)

Record Store := {
  blogs : gmap ObjectId Blog.t;
  users : gmap ObjectId User.t
}.

Definition setBlogs (m : gmap ObjectId Blog.t) (st : Store) : Store :=
  {| blogs := m; users := users st |}.

Definition setUsers (m : gmap ObjectId User.t) (st : Store) : Store :=
  {| blogs := blogs st; users := m |}.

(** The errors of the request boundary, with the HTTP status and message the
    routes send for each. *)
Inductive Error :=
| ValidationFailed   (* 400, the validators' error array *)
| DuplicateSlug      (* 400 'A blog with similar title already exists' *)
| NotFound           (* 404 'Blog not found' *)
| Forbidden          (* 403 'Not authorized to update/delete this blog' *)
| Unauthorized       (* 401, no or bad credential *)
| InvalidBulkData    (* 400 'Invalid bulk operation data' *)
| InvalidAction      (* 400 'Invalid bulk action' *)
| StoreFailure.      (* 500 'Server error' *)

Inductive Reply (A : Type) :=
| Ok (a : A)
| Fail (e : Error).
Arguments Ok {A} a.
Arguments Fail {A} e.

(** *** Mongoose queries *)

(** [Blog.findById(id)] *)
Definition findById (id : ObjectId) (st : Store) : option Blog.t := blogs st !! id.

(** [Blog.findOne({ slug })] *)
Definition findOneBySlug (s : jsstring) (st : Store) : option (ObjectId * Blog.t) :=
  List.find (fun kb => bool_decide (Blog.slug kb.2 = s)) (map_to_list (blogs st)).

(** [Blog.findOne({ slug, _id: { $ne: id } })] *)
Definition findOneBySlugExcept (s : jsstring) (id : ObjectId) (st : Store)
  : option (ObjectId * Blog.t) :=
  List.find (fun kb => bool_decide (Blog.slug kb.2 = s) && bool_decide (kb.1 ≠ id))
            (map_to_list (blogs st)).

(** [User.findByIdAndUpdate(id, { $inc: { 'stats.postsCount': d } })]: a
    missing user is left missing. *)
Definition incPostsCount (id : ObjectId) (d : Z) (st : Store) : Store :=
  setUsers (alter (fun u => User.set_postsCount (User.postsCount u + d) u) id (users st)) st.

(** The reply of [updateMany] and [deleteMany]: a field the driver does not
    report is [None] ([undefined]). *)
Record WriteResult := {
  modifiedCount : option Z;
  deletedCount : option Z
}.

(** The documents a filter [{ _id: { $in: ids } }] matches. *)
Definition matchesIn (ids : list ObjectId) (k : ObjectId) : bool :=
  bool_decide (k ∈ ids).

Definition countWhere (p : ObjectId -> Blog.t -> bool) (m : gmap ObjectId Blog.t) : Z :=
  Z.of_nat (length (List.filter (fun kb => p kb.1 kb.2) (map_to_list m))).

(** [Blog.deleteMany({ _id: { $in: ids } })] *)
Definition deleteMany (ids : list ObjectId) (st : Store) : WriteResult * Store :=
  ({| modifiedCount := None;
      deletedCount := Some (countWhere (fun k _ => matchesIn ids k) (blogs st)) |},
   setBlogs (filter (fun kb => kb.1 ∉ ids) (blogs st)) st).

(** [Blog.updateMany({ _id: { $in: ids } }, upd)]: every matched document
    receives the update; the driver counts as modified the matched documents
    that the update actually changed.  No hook runs. *)
Definition updateMany (ids : list ObjectId) (upd : Blog.t -> Blog.t) (st : Store)
  : WriteResult * Store :=
  ({| modifiedCount :=
        Some (countWhere (fun k b => matchesIn ids k && bool_decide (upd b ≠ b)) (blogs st));
      deletedCount := None |},
   setBlogs (map_imap (fun k b => Some (if matchesIn ids k then upd b else b)) (blogs st)) st).

(** JavaScript's [a || b] on counts: [0] and [undefined] are falsy. *)
Definition jsOr (a b : option Z) : option Z :=
  match a with
  | Some n => if n =? 0 then b else a
  | None => b
  end.

(** *** Schema: casting, validators and the pre-save hook *)

Definition categories : list jsstring :=
  map str ["Adventure"; "Culture"; "Food"; "Nature"; "City"; "Beach";
           "Mountain"; "Historical"]%string.

Definition isCategory (c : jsstring) : bool := bool_decide (c ∈ categories).

Definition statusOfString (s : jsstring) : option Status :=
  if bool_decide (s = str "draft") then Some Draft
  else if bool_decide (s = str "published") then Some Published
  else if bool_decide (s = str "scheduled") then Some Scheduled
  else if bool_decide (s = str "archived") then Some Archived
  else None.

(** The truthiness test [if (x)] on an optional string, and on an optional
    number. *)
Definition truthy (o : option jsstring) : option jsstring :=
  match o with
  | Some (c :: r) => Some (c :: r)
  | _ => None
  end.

Definition truthyNum (o : option Z) : option Z :=
  match o with
  | Some 0 => None
  | _ => o
  end.

Definition nonEmpty (s : jsstring) : bool :=
  match s with [] => false | _ => true end.

(** [required] and [maxlength] of the schema, on the stored values. *)
Definition validTitle (t : jsstring) : bool := nonEmpty t && (Z.of_nat (length t) <=? 200).
Definition validSlug (s : jsstring) : bool := nonEmpty s.
Definition validContent (c : jsstring) : bool := nonEmpty c.
Definition validExcerpt (e : jsstring) : bool := nonEmpty e && (Z.of_nat (length e) <=? 300).

(** The validators [save()] runs on a document that was loaded from the
    store: those of every path, modified or not.  ([author] is always
    there, and [status] is in the enum, by their types.) *)
Definition validDoc (b : Blog.t) : bool :=
  validTitle (Blog.title b) && validSlug (Blog.slug b)
  && validContent (Blog.content b) && validExcerpt (Blog.excerpt b)
  && isCategory (Blog.category b).

(** The cast of a supplied value to [String]: an array does not cast. *)
Definition castString (v : SeoValue) : option jsstring :=
  match v with SeoText s => Some s | SeoList _ => None end.

(** The cast to [[String]]: a value that is not an array becomes the array
    of that one value. *)
Definition castStrings (v : SeoValue) : list jsstring :=
  match v with SeoText s => [s] | SeoList l => l end.

(** The own properties of [blog.seo], as the spread [...blog.seo] sees
    them. *)
Definition seoObject (s : Seo) : gmap string SeoValue :=
  let text (key : string) (o : option jsstring) (m : gmap string SeoValue) :=
    match o with Some v => <[key := SeoText v]> m | None => m end in
  text "metaTitle"%string (metaTitle s)
    (text "metaDescription"%string (metaDescription s)
       (text "canonicalUrl"%string (canonicalUrl s)
          {[ "keywords"%string := SeoList (keywords s) ]})).

(** One text path of the block that the object [obj] is assigned to:
    unset when [obj] lacks the key, [None] when the value does not cast. *)
Definition castText (obj : gmap string SeoValue) (key : string)
  : option (option jsstring) :=
  match obj !! key with
  | Some v => Some <$> castString v
  | None => Some None
  end.

(** [doc.seo = obj]: each declared path takes the cast of the value [obj]
    holds under its key, and a key the schema does not declare is dropped.
    [None] when a value does not cast, which makes [save()] throw. *)
Definition castSeo (obj : gmap string SeoValue) : option Seo :=
  mt ← castText obj "metaTitle"%string;
  md ← castText obj "metaDescription"%string;
  cu ← castText obj "canonicalUrl"%string;
  Some {| metaTitle := mt; metaDescription := md;
          keywords := match obj !! "keywords"%string with
                      | Some v => castStrings v
                      | None => []
                      end;
          canonicalUrl := cu |}.

(** [x + 1] on Numbers, for an integer-valued [x]: the double nearest to
    the exact sum, the one with the even significand of two equally near.
    The integers below 2^53 in absolute value are doubles; beyond, the
    doubles are the multiples of the power of two that leaves 53
    significant bits. *)
Definition roundToDouble (s : Z) : Z :=
  let a := Z.abs s in
  if a <? 2 ^ 53 then s
  else
    let ulp := 2 ^ (Z.log2 a - 52) in
    let q := a / ulp in
    let r := a mod ulp in
    let q := if (ulp <? 2 * r) || ((2 * r =? ulp) && Z.odd q) then q + 1 else q in
    Z.sgn s * (q * ulp).

Definition addOne (x : Z) : Z := roundToDouble (x + 1).

(** The [tags] setters: [lowercase] and [trim]. *)
Definition castTags `{LowerCase} (ts : list jsstring) : list jsstring :=
  map (fun t => trim (toLowerCase t)) ts.

Definition wordsPerMinute : Z := 200.

(** [this.content.split(' ').length] *)
Definition wordCount (content : jsstring) : Z :=
  Z.of_nat (length (split SPACE content)).

(** [Math.ceil(a / b)] for [0 < b].  The quotient of two integers below
    2^53 is rounded by less than the distance of a non-integer quotient to
    the next integer, so the floating-point result is the exact ceiling. *)
Definition ceilDiv (a b : Z) : Z := - ((- a) / b).

(** [Math.ceil(wordCount / wordsPerMinute)] of the pre-save hook. *)
Definition readingTimeOf (content : jsstring) : Z :=
  ceilDiv (wordCount content) wordsPerMinute.

(** [blogSchema.pre('save')].  [contentModified] is [this.isModified('content')]. *)
Definition preSave (contentModified : bool) (now : Date) (b : Blog.t) : Blog.t :=
  let b :=
    if contentModified
    then Blog.set_readingTime (readingTimeOf (Blog.content b)) b
    else b in
  Blog.set_updatedAt now b.

(** *** The access-control gate *)

(** [req.user]: the identity the bearer credential resolves to. *)
Abbreviation Caller := (ObjectId * User.t)%type.

Definition roleRank (r : Role) : Z :=
  match r with Subscriber => 0 | Author => 1 | Editor => 2 | Admin => 3 end.

(** Modelled from the spec: middleware/auth.js ([auth], [editorAuth],
    [adminAuth]) is not among the sources.  The spec gives the gate as: given
    a bearer credential, resolve an identity or fail ([Unauthorized]); given
    a minimum role, reject lower-privileged callers ([Forbidden]), roles
    being ordered subscriber < author < editor < admin. *)
Definition requireRole (min : Role) (caller : option Caller) : Error + Caller :=
  match caller with
  | None => inl Unauthorized
  | Some c => if roleRank min <=? roleRank (User.role c.2) then inr c else inl Forbidden
  end.

Definition editorAuth := requireRole Editor.
Definition adminAuth := requireRole Admin.

(** ** The blog router *)

(** The value of a hexadecimal digit. *)
Definition hexValue (c : Z) : option Z :=
  if isDigit c then Some (c - 48)
  else if inRange 97 102 c then Some (c - 87)
  else if inRange 65 70 c then Some (c - 55)
  else None.

Fixpoint parseHex (acc : Z) (s : jsstring) : option Z :=
  match s with
  | [] => Some acc
  | c :: r =>
      match hexValue c with
      | Some d => parseHex (16 * acc + d) r
      | None => None
      end
  end.

(** [identifier.match(/^[0-9a-fA-F]{24}$/)], and the ObjectId such a string
    is cast to. *)
Definition castObjectId (s : jsstring) : option ObjectId :=
  if (length s =? 24)%nat then parseHex 0 s else None.

Section Routes.
Context `{LowerCase}.

(** The query of the read route: [{ _id: identifier }] when the identifier
    has the shape of an ObjectId, [{ slug: identifier }] otherwise.  The
    filter value is cast as the slug path is, so its [lowercase] setter
    runs on it. *)
Definition findByIdentifier (identifier : jsstring) (st : Store)
  : option (ObjectId * Blog.t) :=
  match castObjectId identifier with
  | Some id => match findById id st with Some b => Some (id, b) | None => None end
  | None => findOneBySlug (toLowerCase identifier) st
  end.

(** [router.get('/:identifier')].  [save()] validates the document it
    loaded; when a validator fails it throws and nothing is written. *)
Definition getBlog (now : Date) (identifier : jsstring) (st : Store)
  : Reply (ObjectId * Blog.t) * Store :=
  match findByIdentifier identifier st with
  | None => (Fail NotFound, st)
  | Some (id, blog) =>
      (* blog.stats.views += 1; await blog.save() *)
      let blog := Blog.set_views (addOne (views (Blog.stats blog))) blog in
      if negb (validDoc blog) then (Fail StoreFailure, st)
      else
        let blog := preSave false now blog in
        (Ok (id, blog), setBlogs (<[id := blog]> (blogs st)) st)
  end.

(** The validators of the create route: [notEmpty] on title, content and
    excerpt, [isIn] on category. *)
Definition validCreate (body : CreateBody.t) : bool :=
  nonEmpty (CreateBody.title body) && nonEmpty (CreateBody.content body)
  && nonEmpty (CreateBody.excerpt body) && isCategory (CreateBody.category body).

(** [new Blog({ ... })] of the create route: the schema's setters and
    defaults applied to the fields the route passes. *)
Definition newBlog (now : Date) (uid : ObjectId) (body : CreateBody.t)
           (slug : jsstring) (status : jsstring) (st : Status) : Blog.t :=
  {| Blog.title := trim (CreateBody.title body);
     Blog.slug := toLowerCase slug;
     Blog.content := CreateBody.content body;
     Blog.excerpt := CreateBody.excerpt body;
     Blog.featuredImage := CreateBody.featuredImage body;
     Blog.images := default [] (CreateBody.images body);
     Blog.author := uid;
     Blog.category := CreateBody.category body;
     Blog.tags := castTags (default [] (CreateBody.tags body));
     Blog.location := CreateBody.location body;
     Blog.seo := default {| metaTitle := None; metaDescription := None;
                            keywords := []; canonicalUrl := None |}
                         (castSeo (default ∅ (CreateBody.seo body)));
     Blog.status := st;
     Blog.publishedAt :=
       if bool_decide (status = str "published") then Some now else None;
     (* scheduledAt ? new Date(scheduledAt) : null *)
     Blog.scheduledAt := truthyNum (CreateBody.scheduledAt body);
     Blog.stats := {| views := 0; likes := 0; shares := 0; comments := 0 |};
     Blog.readingTime := 0;
     Blog.featured := default false (CreateBody.featured body);
     Blog.createdAt := now;
     Blog.updatedAt := now |}.

(** What [save()] checks on a new document: that the [seo] object cast,
    the schema's validators, a fresh [_id] ([newId] is the identifier the
    driver generated) and the unique index on [slug]. *)
Definition insertable (newId : ObjectId) (body : CreateBody.t) (b : Blog.t)
           (st : Store) : bool :=
  bool_decide (castSeo (default ∅ (CreateBody.seo body)) ≠ None)
  && validDoc b
  && bool_decide (findById newId st = None)
  && bool_decide (findOneBySlug (Blog.slug b) st = None).

(** [router.post('/')].  The slug it looks up is lower-case already, so the
    cast of the filter leaves it as it is. *)
Definition createBlog (now : Date) (newId : ObjectId) (caller : option Caller)
           (body : CreateBody.t) (st : Store)
  : Reply (ObjectId * Blog.t) * Store :=
  match editorAuth caller with
  | inl e => (Fail e, st)
  | inr (uid, _) =>
      if negb (validCreate body) then (Fail ValidationFailed, st)
      else
        let status := default (str "draft") (CreateBody.status body) in
        (* Generate slug from title *)
        let slug := generateSlug (CreateBody.title body) in
        (* Check if slug already exists *)
        match findOneBySlug slug st with
        | Some _ => (Fail DuplicateSlug, st)
        | None =>
            match statusOfString status with
            | None => (Fail StoreFailure, st)
            | Some s =>
                let blog := newBlog now uid body slug status s in
                if negb (insertable newId body blog st) then (Fail StoreFailure, st)
                else
                  let blog := preSave true now blog in
                  let st := setBlogs (<[newId := blog]> (blogs st)) st in
                  (* Update user's post count *)
                  let st := incPostsCount uid 1 st in
                  (Ok (newId, blog), st)
            end
        end
  end.


(** The slug step of the update route: [Some] of the document to go on
    with, [None] on a collision. *)
Definition updateSlug (id : ObjectId) (body : UpdateBody.t) (blog : Blog.t)
           (st : Store) : option Blog.t :=
  match truthy (UpdateBody.title body) with
  | Some title =>
      if bool_decide (title ≠ Blog.title blog) then
        let newSlug := generateSlug title in
        match findOneBySlugExcept newSlug id st with
        | Some _ => None
        | None => Some (Blog.set_slug (toLowerCase newSlug) blog)
        end
      else Some blog
  | None => Some blog
  end.

(** The status step: [None] when the string is outside the schema's enum,
    which makes [save()] throw. *)
Definition updateStatus (now : Date) (body : UpdateBody.t) (blog : Blog.t)
  : option Blog.t :=
  match truthy (UpdateBody.status body) with
  | Some status =>
      match statusOfString status with
      | Some s =>
          let blog := Blog.set_status s blog in
          Some (if bool_decide (status = str "published")
                   && bool_decide (Blog.publishedAt blog = None)
                then Blog.set_publishedAt (Some now) blog
                else blog)
      | None => None
      end
  | None => Some blog
  end.

(** [if (x) blog.f = x]: one guarded assignment of the update route. *)
Definition setIf {A : Type} (o : option A) (set : A -> Blog.t -> Blog.t)
           (blog : Blog.t) : Blog.t :=
  match o with
  | Some v => set v blog
  | None => blog
  end.

(** The field assignments of the update route, in the order of the source:
    those before the status step and those after it. *)
Definition assignFields (body : UpdateBody.t) (blog : Blog.t) : Blog.t :=
  let blog := setIf (truthy (UpdateBody.title body))
                    (fun v => Blog.set_title (trim v)) blog in
  let blog := setIf (truthy (UpdateBody.content body)) Blog.set_content blog in
  let blog := setIf (truthy (UpdateBody.excerpt body)) Blog.set_excerpt blog in
  let blog := setIf (truthy (UpdateBody.category body)) Blog.set_category blog in
  let blog := setIf (UpdateBody.tags body)
                    (fun v => Blog.set_tags (castTags v)) blog in
  let blog := setIf (UpdateBody.location body)
                    (fun v => Blog.set_location (Some v)) blog in
  (* blog.seo = { ...blog.seo, ...seo }; a path keeps its value when the
     object does not cast *)
  let blog := setIf (UpdateBody.seo body)
                    (fun v b => Blog.set_seo
                                  (default (Blog.seo b)
                                           (castSeo (v ∪ seoObject (Blog.seo b)))) b)
                    blog in
  let blog := setIf (UpdateBody.featuredImage body)
                    (fun v => Blog.set_featuredImage (Some v)) blog in
  let blog := setIf (UpdateBody.images body) Blog.set_images blog in
  blog.

Definition assignRest (body : UpdateBody.t) (blog : Blog.t) : Blog.t :=
  let blog := setIf (UpdateBody.featured body) Blog.set_featured blog in
  let blog := setIf (truthyNum (UpdateBody.scheduledAt body))
                    (fun v => Blog.set_scheduledAt (Some v)) blog in
  blog.

(** What [save()] checks on the updated document [b], loaded as [old]:
    that the [seo] object cast, the validators of every path, and the
    unique index on [slug] when the slug is written, which it is when it
    changed. *)
Definition updatable (id : ObjectId) (body : UpdateBody.t) (old b : Blog.t)
           (st : Store) : bool :=
  match UpdateBody.seo body with
  | Some v => bool_decide (castSeo (v ∪ seoObject (Blog.seo old)) ≠ None)
  | None => true
  end
  && validDoc b
  && (bool_decide (Blog.slug b = Blog.slug old)
      || bool_decide (findOneBySlugExcept (Blog.slug b) id st = None)).

(** [router.put('/:id')] *)
Definition updateBlog (now : Date) (caller : option Caller) (id : ObjectId)
           (body : UpdateBody.t) (st : Store)
  : Reply (ObjectId * Blog.t) * Store :=
  match editorAuth caller with
  | inl e => (Fail e, st)
  | inr (uid, user) =>
      match findById id st with
      | None => (Fail NotFound, st)
      | Some old =>
          (* Check if user owns the blog or is admin *)
          if bool_decide (Blog.author old ≠ uid)
             && bool_decide (User.role user ≠ Admin)
          then (Fail Forbidden, st)
          else
            (* Update slug if title changed *)
            match updateSlug id body old st with
            | None => (Fail DuplicateSlug, st)
            | Some blog =>
                let blog := assignFields body blog in
                match updateStatus now body blog with
                | None => (Fail StoreFailure, st)
                | Some blog =>
                    let blog := assignRest body blog in
                    if negb (updatable id body old blog st) then (Fail StoreFailure, st)
                    else
                      let blog :=
                        preSave (bool_decide (Blog.content blog ≠ Blog.content old))
                                now blog in
                      (Ok (id, blog), setBlogs (<[id := blog]> (blogs st)) st)
                end
            end
      end
  end.

(** [router.delete('/:id')] *)
Definition deleteBlog (caller : option Caller) (id : ObjectId) (st : Store)
  : Reply unit * Store :=
  match editorAuth caller with
  | inl e => (Fail e, st)
  | inr (uid, user) =>
      match findById id st with
      | None => (Fail NotFound, st)
      | Some blog =>
          if bool_decide (Blog.author blog ≠ uid)
             && bool_decide (User.role user ≠ Admin)
          then (Fail Forbidden, st)
          else
            let st := setBlogs (delete id (blogs st)) st in
            (* Update user's post count *)
            let st := incPostsCount (Blog.author blog) (-1) st in
            (Ok tt, st)
      end
  end.
End Routes.

(** The switch of the bulk route. *)
Definition bulkSwitch (now : Date) (action : jsstring) (ids : list ObjectId)
           (st : Store) : option (WriteResult * Store) :=
  if bool_decide (action = str "delete") then
    Some (deleteMany ids st)
  else if bool_decide (action = str "publish") then
    Some (updateMany ids
            (fun b => Blog.set_publishedAt (Some now) (Blog.set_status Published b)) st)
  else if bool_decide (action = str "draft") then
    Some (updateMany ids (Blog.set_status Draft) st)
  else if bool_decide (action = str "feature") then
    Some (updateMany ids (Blog.set_featured true) st)
  else if bool_decide (action = str "unfeature") then
    Some (updateMany ids (Blog.set_featured false) st)
  else None.

(** [router.post('/bulk')]; the reply is the [modifiedCount] field of the
    response, [None] when it is [undefined]. *)
Definition bulkBlogs (now : Date) (caller : option Caller) (body : BulkBody.t)
           (st : Store) : Reply (option Z) * Store :=
  match adminAuth caller with
  | inl e => (Fail e, st)
  | inr _ =>
      match BulkBody.action body, BulkBody.blogIds body with
      | Some (c :: a), Some ids =>
          match bulkSwitch now (c :: a) ids st with
          | Some (result, st') =>
              (Ok (jsOr (modifiedCount result) (deletedCount result)), st')
          | None => (Fail InvalidAction, st)
          end
      | _, _ => (Fail InvalidBulkData, st)
      end
  end.

(** ** The analytics router: the dashboard's creation trend *)

Definition msPerDay : Z := 24 * 60 * 60 * 1000.

(** [new Date(now.getTime() - 30 * 24 * 60 * 60 * 1000)] *)
Definition thirtyDaysAgo (now : Date) : Date := now - 30 * msPerDay.

(** A calendar day: year, month, day of month. *)
Abbreviation Day := (Z * Z * Z)%type.

(** The UTC calendar date of a day number counted from 1970-01-01
    (proleptic Gregorian calendar), as the aggregation operators [$year],
    [$month] and [$dayOfMonth] compute it. *)
Definition civilFromDays (z : Z) : Day :=
  let z := z + 719468 in
  let era := z / 146097 in
  let doe := z - era * 146097 in
  let yoe := (doe - doe / 1460 + doe / 36524 - doe / 146096) / 365 in
  let doy := doe - (365 * yoe + yoe / 4 - yoe / 100) in
  let mp := (5 * doy + 2) / 153 in
  let d := doy - (153 * mp + 2) / 5 + 1 in
  let m := if mp <? 10 then mp + 3 else mp - 9 in
  let y := yoe + era * 400 in
  (if m <=? 2 then y + 1 else y, m, d).

Definition dayOf (t : Date) : Day := civilFromDays (t / msPerDay).

(** One output document of the [$group] stage: [_id] and [count]. *)
Abbreviation Bucket := (Day * Z)%type.

(** [{ $match: { createdAt: { $gte: cutoff } } }] *)
Definition matchStage (cutoff : Date) (docs : list Blog.t) : list Blog.t :=
  List.filter (fun b => cutoff <=? Blog.createdAt b) docs.

(** [$group] with [count: { $sum: 1 }]: each document is added to the bucket
    of its key, a new bucket being opened for a key not yet seen. *)
Fixpoint addToBucket (k : Day) (acc : list Bucket) : list Bucket :=
  match acc with
  | [] => [(k, 1)]
  | (k', n) :: r =>
      if bool_decide (k = k') then (k', n + 1) :: r else (k', n) :: addToBucket k r
  end.

Definition groupStage (docs : list Blog.t) : list Bucket :=
  fold_left (fun acc b => addToBucket (dayOf (Blog.createdAt b)) acc) docs [].

(** [{ $sort: { '_id.year': 1, '_id.month': 1, '_id.day': 1 } }] *)
Definition dayLtb (a b : Day) : bool :=
  let '(y1, m1, d1) := a in
  let '(y2, m2, d2) := b in
  (y1 <? y2) || ((y1 =? y2) && ((m1 <? m2) || ((m1 =? m2) && (d1 <? d2)))).

Fixpoint insertBucket (x : Bucket) (l : list Bucket) : list Bucket :=
  match l with
  | [] => [x]
  | y :: r => if dayLtb y.1 x.1 then y :: insertBucket x r else x :: l
  end.

Definition sortStage (l : list Bucket) : list Bucket :=
  fold_right insertBucket [] l.

(** [monthlyTrend] of [router.get('/dashboard')]. *)
Definition monthlyTrend (now : Date) (st : Store) : list Bucket :=
  sortStage (groupStage (matchStage (thirtyDaysAgo now)
                                    (map snd (map_to_list (blogs st))))).

(** ** The blog router: listing and statistics *)

(** The string a stored status is compared with in a query. *)
Definition statusName (s : Status) : jsstring :=
  match s with
  | Draft => str "draft"
  | Published => str "published"
  | Scheduled => str "scheduled"
  | Archived => str "archived"
  end.

(** What the database engine contributes to the list route.

    [regexCompile] is the test on a document that the [$or] of the three
    case-insensitive conditions on title, content and tags comes to, and
    [None] for a [search] that is no regular expression: [new RegExp] or the
    database then throws.

    [sortDocs run] orders the documents of one execution of
    [find(query).sort({ [sortBy]: 1 or -1 })]; [run] stands for the
    execution, since the database is free to order the documents whose sort
    keys are equal differently each time.  Of the ordering only the fact
    that it rearranges its input is used. *)
Class QueryEngine := {
  regexCompile : jsstring -> option (Blog.t -> bool);
  sortDocs : nat -> jsstring -> bool -> list (ObjectId * Blog.t)
             -> list (ObjectId * Blog.t);
  sortDocs_perm : forall run sortBy desc l, Permutation (sortDocs run sortBy desc l) l
}.

(** [req.query] of the list route.  [page] and [limit] are the positive
    integers their strings denote; [author] is the identifier its string is
    cast to. *)
Module ListQuery.
Record t := mk {
  page : option positive;
  limit : option positive;
  search : option jsstring;
  category : option jsstring;
  status : option jsstring;
  author : option ObjectId;
  featured : option jsstring;
  sortBy : option jsstring;
  sortOrder : option jsstring
}.
End ListQuery.

Module ListReply.
Record t := mk {
  blogs : list (ObjectId * Blog.t);
  totalPages : Z;
  currentPage : positive;
  total : Z
}.
End ListReply.

(** The [$or] condition of the query, [None] when [search] does not
    compile; a query without [search] has no such condition. *)
Definition searchTest `{QueryEngine} (q : ListQuery.t) : option (Blog.t -> bool) :=
  match truthy (ListQuery.search q) with
  | Some s => regexCompile s
  | None => Some (fun _ => true)
  end.

(** The other conditions of the [query] object the list route builds, as a
    test on a document: each supplied parameter adds one. *)
Definition queryMatches (q : ListQuery.t) (b : Blog.t) : bool :=
  match truthy (ListQuery.category q) with
  | Some c => bool_decide (Blog.category b = c) | None => true end
  && match truthy (ListQuery.status q) with
     | Some s => bool_decide (statusName (Blog.status b) = s) | None => true end
  && match ListQuery.author q with
     | Some a => bool_decide (Blog.author b = a) | None => true end
  && match ListQuery.featured q with
     (* query.featured = featured === 'true' *)
     | Some f => bool_decide (Blog.featured b = bool_decide (f = str "true"))
     | None => true end.

(** [Blog.find(query)] and [Blog.countDocuments(query)], for the compiled
    search condition [test]. *)
Definition findMatching (test : Blog.t -> bool) (q : ListQuery.t) (st : Store)
  : list (ObjectId * Blog.t) :=
  List.filter (fun kb => test kb.2 && queryMatches q kb.2) (map_to_list (blogs st)).

(** [.sort(sortOptions)] with [sortBy = 'createdAt'] and [sortOrder = 'desc']
    as defaults. *)
Definition sortedMatching `{QueryEngine} (run : nat) (test : Blog.t -> bool)
           (q : ListQuery.t) (st : Store) : list (ObjectId * Blog.t) :=
  sortDocs run (default (str "createdAt") (ListQuery.sortBy q))
           (bool_decide (default (str "desc") (ListQuery.sortOrder q) = str "desc"))
           (findMatching test q st).

(** [router.get('/')], its [find] being the execution [run]. *)
Definition listBlogs `{QueryEngine} (run : nat) (q : ListQuery.t) (st : Store)
  : Reply ListReply.t :=
  match searchTest q with
  | None => Fail StoreFailure
  | Some test =>
      let page := default 1%positive (ListQuery.page q) in
      let limit := default 10%positive (ListQuery.limit q) in
      Ok {| ListReply.blogs :=
              (* .limit(limit * 1).skip((page - 1) * limit) *)
              take (Pos.to_nat limit)
                   (drop ((Pos.to_nat page - 1) * Pos.to_nat limit)
                         (sortedMatching run test q st));
            ListReply.totalPages :=
              ceilDiv (Z.of_nat (length (findMatching test q st))) (Z.pos limit);
            ListReply.currentPage := page;
            ListReply.total := Z.of_nat (length (findMatching test q st)) |}
  end.

(** [$group] by a key with [count: { $sum: 1 }]. *)
Fixpoint bump {K : Type} `{EqDecision K} (k : K) (acc : list (K * Z)) : list (K * Z) :=
  match acc with
  | [] => [(k, 1)]
  | (k', n) :: r =>
      if bool_decide (k = k') then (k', n + 1) :: r else (k', n) :: bump k r
  end.

Definition countBy {K A : Type} `{EqDecision K} (key : A -> K) (l : list A)
  : list (K * Z) :=
  fold_left (fun acc x => bump (key x) acc) l [].

(** [sort] by a numeric key, descending.  The database leaves the order of
    documents with equal keys open; the insertion below fixes one, and none
    of the properties proved of it depends on which. *)
Fixpoint insertDesc {A : Type} (key : A -> Z) (x : A) (l : list A) : list A :=
  match l with
  | [] => [x]
  | y :: r => if key x <=? key y then y :: insertDesc key x r else x :: l
  end.

Definition sortDescBy {A : Type} (key : A -> Z) (l : list A) : list A :=
  fold_right (insertDesc key) [] l.

(** [{ $group: { _id: '$category', count: { $sum: 1 } } },
     { $sort: { count: -1 } }] *)
Definition categoryStats (st : Store) : list (jsstring * Z) :=
  sortDescBy snd (countBy (fun kb : ObjectId * Blog.t => Blog.category kb.2)
                          (map_to_list (blogs st))).

(** [Blog.find({ status: 'published' }).sort({ 'stats.views': -1 }).limit(5)];
    the reply shows the selected fields of these documents. *)
Definition topBlogs (st : Store) : list (ObjectId * Blog.t) :=
  take 5 (sortDescBy (fun kb => views (Blog.stats kb.2))
            (List.filter (fun kb => bool_decide (Blog.status kb.2 = Published))
                         (map_to_list (blogs st)))).

(** [Blog.find().sort({ createdAt: -1 }).limit(5)] *)
Definition recentBlogs (st : Store) : list (ObjectId * Blog.t) :=
  take 5 (sortDescBy (fun kb => Blog.createdAt kb.2) (map_to_list (blogs st))).

(** [Blog.countDocuments()] and [Blog.countDocuments({ ... })] *)
Definition totalBlogs (st : Store) : Z := countWhere (fun _ _ => true) (blogs st).
Definition publishedBlogs (st : Store) : Z :=
  countWhere (fun _ b => bool_decide (Blog.status b = Published)) (blogs st).
Definition draftBlogs (st : Store) : Z :=
  countWhere (fun _ b => bool_decide (Blog.status b = Draft)) (blogs st).
Definition featuredBlogs (st : Store) : Z :=
  countWhere (fun _ b => bool_decide (Blog.featured b = true)) (blogs st).

(** The response of [router.get('/stats/overview')], which a caller gets
    whom [editorAuth] lets through. *)
Module Overview.
Record t := mk {
  totalBlogs : Z;
  publishedBlogs : Z;
  draftBlogs : Z;
  featuredBlogs : Z;
  categoryStats : list (jsstring * Z);
  topBlogs : list (ObjectId * Blog.t);
  recentBlogs : list (ObjectId * Blog.t)
}.
End Overview.

Definition statsOverview (st : Store) : Overview.t :=
  {| Overview.totalBlogs := totalBlogs st;
     Overview.publishedBlogs := publishedBlogs st;
     Overview.draftBlogs := draftBlogs st;
     Overview.featuredBlogs := featuredBlogs st;
     Overview.categoryStats := categoryStats st;
     Overview.topBlogs := topBlogs st;
     Overview.recentBlogs := recentBlogs st |}.

(** ** The analytics router: the rest of the dashboard *)

(** [new Date(now.getTime() - 7 * 24 * 60 * 60 * 1000)] *)
Definition sevenDaysAgo (now : Date) : Date := now - 7 * msPerDay.

Definition totalUsers (st : Store) : Z := Z.of_nat (length (map_to_list (users st))).

(** [countDocuments({ createdAt: { $gte: sevenDaysAgo } })] on either
    collection. *)
Definition recentBlogCount (now : Date) (st : Store) : Z :=
  countWhere (fun _ b => sevenDaysAgo now <=? Blog.createdAt b) (blogs st).

Definition recentUserCount (now : Date) (st : Store) : Z :=
  Z.of_nat (length (List.filter (fun ku => sevenDaysAgo now <=? User.createdAt ku.2)
                                (map_to_list (users st)))).

(** The output document of the [$group] stage with [_id: null]. *)
Module ViewsStats.
Record t := mk { totalViews : Z; totalLikes : Z; totalShares : Z }.
End ViewsStats.

(** [{ $sum: '$stats.field' }] over a list of documents: the sum of the
    counters, which the database computes exactly as long as it stays
    among the integers that Numbers hold exactly. *)
Definition sumStat (field : Stats -> Z) (docs : list (ObjectId * Blog.t)) : Z :=
  foldr (fun kb s => field (Blog.stats kb.2) + s) 0 docs.

(** [{ $group: { _id: null, totalViews: { $sum: '$stats.views' }, ... } }]:
    one output document holding the three sums, and none at all when the
    collection is empty. *)
Definition viewsStats (st : Store) : list ViewsStats.t :=
  match map_to_list (blogs st) with
  | [] => []
  | docs =>
      [ {| ViewsStats.totalViews := sumStat views docs;
           ViewsStats.totalLikes := sumStat likes docs;
           ViewsStats.totalShares := sumStat shares docs |} ]
  end.

(** [viewsStats[0]?.field || 0] *)
Definition statOrZero (field : ViewsStats.t -> Z) (l : list ViewsStats.t) : Z :=
  match l with
  | s :: _ => if field s =? 0 then 0 else field s
  | [] => 0
  end.

(** [{ $group: { _id: '$role', count: { $sum: 1 } } }] *)
Definition userRoles (st : Store) : list (Role * Z) :=
  countBy (fun ku : ObjectId * User.t => User.role ku.2) (map_to_list (users st)).

(** The response of [router.get('/dashboard')], which a caller gets whom
    [editorAuth] lets through. *)
Module Dashboard.
Record t := mk {
  totalBlogs : Z;
  totalUsers : Z;
  publishedBlogs : Z;
  draftBlogs : Z;
  recentBlogs : Z;
  recentUsers : Z;
  totalViews : Z;
  totalLikes : Z;
  totalShares : Z;
  monthlyBlogCreation : list Bucket;
  categoryDistribution : list (jsstring * Z);
  userRoleDistribution : list (Role * Z);
  topBlogs : list (ObjectId * Blog.t)
}.
End Dashboard.

Definition dashboard (now : Date) (st : Store) : Dashboard.t :=
  {| Dashboard.totalBlogs := totalBlogs st;
     Dashboard.totalUsers := totalUsers st;
     Dashboard.publishedBlogs := publishedBlogs st;
     Dashboard.draftBlogs := draftBlogs st;
     Dashboard.recentBlogs := recentBlogCount now st;
     Dashboard.recentUsers := recentUserCount now st;
     Dashboard.totalViews := statOrZero ViewsStats.totalViews (viewsStats st);
     Dashboard.totalLikes := statOrZero ViewsStats.totalLikes (viewsStats st);
     Dashboard.totalShares := statOrZero ViewsStats.totalShares (viewsStats st);
     Dashboard.monthlyBlogCreation := monthlyTrend now st;
     Dashboard.categoryDistribution := categoryStats st;
     Dashboard.userRoleDistribution := userRoles st;
     Dashboard.topBlogs := topBlogs st |}.

(** ** The router

    The requests that write to the store, and the store each leaves. *)
Inductive Request :=
| GetBlog (identifier : jsstring)
| CreateBlog (newId : ObjectId) (caller : option Caller) (body : CreateBody.t)
| UpdateBlog (caller : option Caller) (id : ObjectId) (body : UpdateBody.t)
| DeleteBlog (caller : option Caller) (id : ObjectId)
| BulkBlogs (caller : option Caller) (body : BulkBody.t).

Definition serve `{LowerCase} (now : Date) (r : Request) (st : Store) : Store :=
  match r with
  | GetBlog identifier => (getBlog now identifier st).2
  | CreateBlog newId caller body => (createBlog now newId caller body st).2
  | UpdateBlog caller id body => (updateBlog now caller id body st).2
  | DeleteBlog caller id => (deleteBlog caller id st).2
  | BulkBlogs caller body => (bulkBlogs now caller body st).2
  end.

(** The error a request ends with, [None] for a success. *)
Definition errorOf {A : Type} (r : Reply A) : option Error :=
  match r with Ok _ => None | Fail e => Some e end.

Definition outcome `{LowerCase} (now : Date) (r : Request) (st : Store) : option Error :=
  match r with
  | GetBlog identifier => errorOf (getBlog now identifier st).1
  | CreateBlog newId caller body => errorOf (createBlog now newId caller body st).1
  | UpdateBlog caller id body => errorOf (updateBlog now caller id body st).1
  | DeleteBlog caller id => errorOf (deleteBlog caller id st).1
  | BulkBlogs caller body => errorOf (bulkBlogs now caller body st).1
  end.

(** ** Vocabulary of the properties *)

(** A text of the given words, one space between two words. *)
Fixpoint joinWords (ws : list jsstring) : jsstring :=
  match ws with
  | [] => []
  | [w] => w
  | w :: r => w ++ SPACE :: joinWords r
  end.

(** The words of a text, as a reader counts them: the maximal runs of code
    units that are not whitespace.  [inword] records that the previous code
    unit belonged to a word. *)
Fixpoint countWordsFrom (inword : bool) (s : jsstring) : nat :=
  match s with
  | [] => 0
  | c :: r =>
      if isSpace c then countWordsFrom false r
      else ((if inword then 0 else 1) + countWordsFrom true r)%nat
  end.

Definition countWords (s : jsstring) : nat := countWordsFrom false s.

(** The number of space characters (U+0020) of a text. *)
Definition countSpaces (s : jsstring) : nat :=
  length (List.filter (fun c => c =? SPACE) s).

(** [r] is the ceiling of [n / d]: the least integer with [n <= d * r]. *)
Definition isCeiling (r n d : Z) : Prop := d * (r - 1) < n <= d * r.

Definition spaceFree (w : jsstring) : Prop := Forall (fun c => c <> SPACE) w.

(** The reading-time rule for one document across one write: [before] is
    the stored document before the write ([None] when the write created it),
    [after] the stored document after it. *)
Definition readingTimeRule (before : option Blog.t) (after : Blog.t) : Prop :=
  match before with
  | Some old =>
      (Blog.content after <> Blog.content old ->
       isCeiling (Blog.readingTime after) (wordCount (Blog.content after)) 200)
      /\ (Blog.content after = Blog.content old ->
          Blog.readingTime after = Blog.readingTime old)
  | None =>
      isCeiling (Blog.readingTime after) (wordCount (Blog.content after)) 200
  end.

(** A record counts for the trend of [now] when it was created no earlier
    than 30 days before [now]. *)
Definition inTrailing30 (now : Date) (t : Date) : bool := thirtyDaysAgo now <=? t.

(** The number of records created on the calendar day [d] within the
    trailing 30 days. *)
Definition createdOn (now : Date) (d : Day) (docs : list Blog.t) : Z :=
  Z.of_nat (length (List.filter
                      (fun b => inTrailing30 now (Blog.createdAt b)
                                && bool_decide (dayOf (Blog.createdAt b) = d))
                      docs)).

(** Calendar order on days. *)
Definition dayBefore (a b : Bucket) : Prop := dayLtb a.1 b.1 = true.

(** *** The calendar

    The proleptic Gregorian calendar, from its rules: the leap years, the
    lengths of the months, and the number of a day counted from 1 January
    1970. *)
Definition isLeapYear (y : Z) : bool :=
  ((y mod 4 =? 0) && negb (y mod 100 =? 0)) || (y mod 400 =? 0).

Definition daysInMonth (y m : Z) : Z :=
  if m =? 2 then (if isLeapYear y then 29 else 28)
  else if (m =? 4) || (m =? 6) || (m =? 9) || (m =? 11) then 30
  else 31.

(** A year, a month and a day of the month that make a date. *)
Definition isDate (k : Day) : Prop :=
  let '(y, m, d) := k in 1 <= m <= 12 /\ 1 <= d <= daysInMonth y m.

(** The leap years among the years 1 to [y - 1]. *)
Definition leapYearsBefore (y : Z) : Z := (y - 1) / 4 - (y - 1) / 100 + (y - 1) / 400.

(** The days from 1 January 1970 to 1 January of the year [y]: 365 for each
    year, and one more for each leap year. *)
Definition daysBeforeYear (y : Z) : Z :=
  365 * (y - 1970) + (leapYearsBefore y - leapYearsBefore 1970).

(** The days of the year [y] before its month [m]. *)
Definition daysBeforeMonth (y m : Z) : Z :=
  fold_right Z.add 0
             (map (fun i => daysInMonth y (Z.of_nat i)) (seq 1 (Z.to_nat (m - 1)))).

(** The days of a common year before its month [m]. *)
Definition daysBeforeMonthCommon (m : Z) : Z :=
  match m with
  | 1 => 0 | 2 => 31 | 3 => 59 | 4 => 90 | 5 => 120 | 6 => 151 | 7 => 181
  | 8 => 212 | 9 => 243 | 10 => 273 | 11 => 304 | _ => 334
  end.

(** The number of the date [k], 1 January 1970 being day 0. *)
Definition dayNumber (k : Day) : Z :=
  let '(y, m, d) := k in daysBeforeYear y + daysBeforeMonth y m + (d - 1).

(** The time [t] falls on the date [k], in UTC: within the 86 400 000
    milliseconds of that day. *)
Definition onDay (k : Day) (t : Date) : bool :=
  (86400000 * dayNumber k <=? t) && (t <? 86400000 * (dayNumber k + 1)).

(** The time [t] is no earlier than 30 days (2 592 000 000 ms) before
    [now]. *)
Definition withinThirtyDays (now t : Date) : bool := now - 2592000000 <=? t.

(** The number of the records created on the date [k] and within the 30
    days before [now]. *)
Definition recentOn (now : Date) (k : Day) (docs : list Blog.t) : Z :=
  Z.of_nat (length (List.filter
                      (fun b => withinThirtyDays now (Blog.createdAt b)
                                && onDay k (Blog.createdAt b))
                      docs)).

(** Earlier in the calendar. *)
Definition earlierDay (a b : Bucket) : Prop := dayNumber a.1 < dayNumber b.1.

(** The documents of the content collection. *)
Definition allBlogs (st : Store) : list Blog.t := map snd (map_to_list (blogs st)).

(** The characters that survive the first replace of a lower-cased string. *)
Definition isStripped (c : Z) : bool := isLowerAZ c || isDigit c || isSpace c.

(** Whether the last code unit of [s] is whitespace; [b] when [s] is
    empty. *)
Definition lastIsSpace (b : bool) (s : jsstring) : bool :=
  fold_left (fun _ c => isSpace c) s b.

(** The claim as the specification words it: the amended properties, and
    neither a leading nor a trailing hyphen when whitespace surrounds the
    title. *)
Definition slugAsSpecified `{LowerCase} (title : jsstring) : Prop :=
  Forall (fun c => isSlugChar c = true) (generateSlug title)
  /\ noHyphenRun (generateSlug title) = true
  /\ startsWithHyphen (generateSlug title) = false
  /\ endsWithHyphen (generateSlug title) = false
  /\ (length (generateSlug title) <= 50)%nat.

(** The documents the recognised non-delete bulk actions write. *)
Definition bulkUpdates (now : Date) : list (Blog.t -> Blog.t) :=
  [ (fun b => Blog.set_publishedAt (Some now) (Blog.set_status Published b));
    Blog.set_status Draft; Blog.set_featured true; Blog.set_featured false ].

(** The document the update route saves, from the stored one. *)
Definition savedByUpdate `{LowerCase} (now : Date) (id : ObjectId)
           (body : UpdateBody.t) (old : Blog.t) (st : Store) (after : Blog.t) : Prop :=
  exists b1 b2,
    updateSlug id body old st = Some b1
    /\ updateStatus now body (assignFields body b1) = Some b2
    /\ after = preSave (bool_decide (Blog.content (assignRest body b2)
                                     <> Blog.content old))
                       now (assignRest body b2).

(** The document the create route saves. *)
Definition savedByCreate `{LowerCase} (now : Date) (uid : ObjectId)
           (body : CreateBody.t) (after : Blog.t) : Prop :=
  exists s,
    statusOfString (default (str "draft") (CreateBody.status body)) = Some s
    /\ after = preSave true now
                 (newBlog now uid body (generateSlug (CreateBody.title body))
                          (default (str "draft") (CreateBody.status body)) s).

(** The ownership test of the update and delete routes. *)
Definition mayMutate (uid : ObjectId) (u : User.t) (blog : Blog.t) : Prop :=
  Blog.author blog = uid \/ User.role u = Admin.

(** The text keys of the [seo] block. *)
Definition seoTextKeys : list string :=
  ["metaTitle"; "metaDescription"; "canonicalUrl"]%string.

(** What the stored [seo] block holds under a key: nothing under a key the
    schema does not declare, nor under a text key that is unset. *)
Definition seoAt (key : string) (s : Seo) : option SeoValue :=
  if bool_decide (key = "metaTitle"%string) then SeoText <$> metaTitle s
  else if bool_decide (key = "metaDescription"%string) then SeoText <$> metaDescription s
  else if bool_decide (key = "canonicalUrl"%string) then SeoText <$> canonicalUrl s
  else if bool_decide (key = "keywords"%string) then Some (SeoList (keywords s))
  else None.

(** What the block holds under [key] once a request that carried the value
    [v] there was stored: the string under a text key, the array under
    [keywords] (of the one string, when a string was sent), and nothing
    under a key the schema does not declare. *)
Definition seoStored (key : string) (v : SeoValue) : option SeoValue :=
  if bool_decide (key ∈ seoTextKeys) then
    match v with SeoText s => Some (SeoText s) | SeoList _ => None end
  else if bool_decide (key = "keywords"%string) then
    Some (SeoList (match v with SeoText s => [s] | SeoList l => l end))
  else None.

(** What an update request leaves alone: [old] is the stored document before
    the request, [after] the stored document after it, [ok] tells whether
    the request succeeded. *)
Definition partialUpdate `{LowerCase} (body : UpdateBody.t) (ok : bool)
           (old after : Blog.t) : Prop :=
  (truthy (UpdateBody.title body) = None ->
   Blog.title after = Blog.title old /\ Blog.slug after = Blog.slug old)
  /\ (truthy (UpdateBody.content body) = None ->
      Blog.content after = Blog.content old
      /\ Blog.readingTime after = Blog.readingTime old)
  /\ (truthy (UpdateBody.excerpt body) = None -> Blog.excerpt after = Blog.excerpt old)
  /\ (truthy (UpdateBody.category body) = None ->
      Blog.category after = Blog.category old)
  /\ (UpdateBody.tags body = None -> Blog.tags after = Blog.tags old)
  /\ (UpdateBody.location body = None -> Blog.location after = Blog.location old)
  /\ (UpdateBody.seo body = None -> Blog.seo after = Blog.seo old)
  /\ (UpdateBody.featuredImage body = None ->
      Blog.featuredImage after = Blog.featuredImage old)
  /\ (UpdateBody.images body = None -> Blog.images after = Blog.images old)
  /\ (truthy (UpdateBody.status body) = None ->
      Blog.status after = Blog.status old
      /\ Blog.publishedAt after = Blog.publishedAt old)
  /\ (UpdateBody.featured body = None -> Blog.featured after = Blog.featured old)
  /\ (truthyNum (UpdateBody.scheduledAt body) = None ->
      Blog.scheduledAt after = Blog.scheduledAt old)
  /\ (forall supplied key,
         UpdateBody.seo body = Some supplied -> supplied !! key = None ->
         seoAt key (Blog.seo after) = seoAt key (Blog.seo old))
  /\ (forall supplied key v,
         ok = true -> UpdateBody.seo body = Some supplied ->
         supplied !! key = Some v ->
         seoAt key (Blog.seo after) = seoStored key v)
  /\ (forall supplied key l,
         UpdateBody.seo body = Some supplied -> key ∈ seoTextKeys ->
         supplied !! key = Some (SeoList l) ->
         ok = false)
  /\ Blog.author after = Blog.author old
  /\ Blog.createdAt after = Blog.createdAt old
  /\ Blog.stats after = Blog.stats old.

(** The stored document passes the validators of the schema: title, slug,
    body and excerpt are there, title and excerpt within their lengths, and
    the category is one of the eight. *)
Definition schemaValid (b : Blog.t) : Prop :=
  Blog.title b <> [] /\ (length (Blog.title b) <= 200)%nat
  /\ Blog.slug b <> []
  /\ Blog.content b <> []
  /\ Blog.excerpt b <> [] /\ (length (Blog.excerpt b) <= 300)%nat
  /\ In (Blog.category b)
        (map str ["Adventure"; "Culture"; "Food"; "Nature"; "City"; "Beach";
                  "Mountain"; "Historical"]%string).

(** The counters to which a Number addition adds exactly 1. *)
Definition belowLimit (v : Z) : Prop := - 2 ^ 53 <= v < 2 ^ 53.

(** Whether a reply is a success. *)
Definition isOk {A : Type} (r : Reply A) : bool :=
  match r with Ok _ => true | Fail _ => false end.

(** The stored document after one read, against the stored document before:
    one view more, the update timestamp at the time of the read, every
    other field as it was. *)
Definition viewedOnce (now : Date) (old after : Blog.t) : Prop :=
  views (Blog.stats after) = views (Blog.stats old) + 1
  /\ Blog.updatedAt after = now
  /\ Blog.title after = Blog.title old
  /\ Blog.slug after = Blog.slug old
  /\ Blog.content after = Blog.content old
  /\ Blog.excerpt after = Blog.excerpt old
  /\ Blog.category after = Blog.category old
  /\ Blog.status after = Blog.status old
  /\ Blog.publishedAt after = Blog.publishedAt old
  /\ Blog.readingTime after = Blog.readingTime old
  /\ Blog.featured after = Blog.featured old
  /\ Blog.author after = Blog.author old
  /\ Blog.featuredImage after = Blog.featuredImage old
  /\ Blog.images after = Blog.images old
  /\ Blog.tags after = Blog.tags old
  /\ Blog.location after = Blog.location old
  /\ Blog.seo after = Blog.seo old
  /\ Blog.scheduledAt after = Blog.scheduledAt old
  /\ Blog.createdAt after = Blog.createdAt old
  /\ likes (Blog.stats after) = likes (Blog.stats old)
  /\ shares (Blog.stats after) = shares (Blog.stats old)
  /\ comments (Blog.stats after) = comments (Blog.stats old).

(** The read hit the record [id], holding [old]: the reply is the record
    after the read, and the store differs in that record only. *)
Definition readHit `{LowerCase} (now : Date) (identifier : jsstring) (st : Store)
           (id : ObjectId) (old : Blog.t) : Prop :=
  exists after,
    getBlog now identifier st
    = (Ok (id, after), setBlogs (<[id := after]> (blogs st)) st)
    /\ viewedOnce now old after.

(** The action tags the bulk route recognises. *)
Definition bulkActions : list jsstring :=
  map str ["delete"; "publish"; "draft"; "feature"; "unfeature"]%string.

(** The number of records of [st] that are gone or different in [st']. *)
Definition affected (st st' : Store) : Z :=
  countWhere (fun k b => bool_decide (blogs st' !! k <> Some b)) (blogs st).

(** The count a list of buckets holds for the day [d]. *)
Definition total (d : Day) (acc : list Bucket) : Z :=
  fold_right (fun kn s => if bool_decide (kn.1 = d) then kn.2 + s else s) 0 acc.

(** The number of documents created on the day [d]. *)
Definition dayCount (d : Day) (docs : list Blog.t) : Z :=
  Z.of_nat (length (List.filter
                      (fun b => bool_decide (dayOf (Blog.createdAt b) = d)) docs)).

(** The invariant of the [$group] stage. *)
Definition grouped (acc : list Bucket) : Prop :=
  List.NoDup (map fst acc) /\ Forall (fun kn : Bucket => 0 < kn.2) acc.

(** *** Vocabulary of the further properties *)

(** No two stored documents hold the same slug. *)
Definition slugsUnique (st : Store) : Prop :=
  forall k1 b1 k2 b2,
    blogs st !! k1 = Some b1 -> blogs st !! k2 = Some b2 ->
    Blog.slug b1 = Blog.slug b2 -> k1 = k2.

(** The number of stored posts of the author [u]. *)
Definition authored (u : ObjectId) (st : Store) : Z :=
  countWhere (fun _ b => bool_decide (Blog.author b = u)) (blogs st).

(** By how much the post counter of the user [u] exceeds the number of the
    posts [u] has in the store; [None] when there is no such user. *)
Definition counterGap (u : ObjectId) (st : Store) : option Z :=
  (fun usr => User.postsCount usr - authored u st) <$> users st !! u.

(** The request goes to one of the single-record routes. *)
Definition singleRecord (r : Request) : Prop :=
  match r with BulkBlogs _ _ => False | _ => True end.

(** The store after [n] reads of the same identifier. *)
Fixpoint readTimes `{LowerCase} (n : nat) (now : Date) (identifier : jsstring)
         (st : Store) : Store :=
  match n with
  | O => st
  | S n => (getBlog now identifier (readTimes n now identifier st)).2
  end.

(** What the create route stores for the caller [uid] at time [now]. *)
Definition freshPost `{LowerCase} (now : Date) (uid : ObjectId)
           (body : CreateBody.t) (b : Blog.t) : Prop :=
  Blog.author b = uid
  /\ Blog.title b = trim (CreateBody.title body)
  /\ Blog.slug b = generateSlug (CreateBody.title body)
  /\ Blog.content b = CreateBody.content body
  /\ Blog.excerpt b = CreateBody.excerpt body
  /\ Blog.category b = CreateBody.category body
  /\ statusName (Blog.status b) = default (str "draft") (CreateBody.status body)
  /\ Blog.publishedAt b
     = (if bool_decide (CreateBody.status body = Some (str "published"))
        then Some now else None)
  /\ Blog.featured b = default false (CreateBody.featured body)
  /\ Blog.stats b = {| views := 0; likes := 0; shares := 0; comments := 0 |}
  /\ Blog.createdAt b = now
  /\ Blog.updatedAt b = now.

(** The query [q] asking for the page after the first [i] pages. *)
Definition atPage (i : nat) (q : ListQuery.t) : ListQuery.t :=
  {| ListQuery.page := Some (Pos.of_succ_nat i);
     ListQuery.limit := ListQuery.limit q;
     ListQuery.search := ListQuery.search q;
     ListQuery.category := ListQuery.category q;
     ListQuery.status := ListQuery.status q;
     ListQuery.author := ListQuery.author q;
     ListQuery.featured := ListQuery.featured q;
     ListQuery.sortBy := ListQuery.sortBy q;
     ListQuery.sortOrder := ListQuery.sortOrder q |}.

(** Two queries that differ in page, page size and ordering at most. *)
Definition sameFilters (q q' : ListQuery.t) : Prop :=
  ListQuery.search q = ListQuery.search q'
  /\ ListQuery.category q = ListQuery.category q'
  /\ ListQuery.status q = ListQuery.status q'
  /\ ListQuery.author q = ListQuery.author q'
  /\ ListQuery.featured q = ListQuery.featured q'.

(** What every document of a reply to the query [q] satisfies. *)
Definition answers `{QueryEngine} (q : ListQuery.t) (st : Store)
           (kb : ObjectId * Blog.t) : Prop :=
  blogs st !! kb.1 = Some kb.2
  /\ (forall s, truthy (ListQuery.search q) = Some s ->
                exists test, regexCompile s = Some test /\ test kb.2 = true)
  /\ (forall c, truthy (ListQuery.category q) = Some c -> Blog.category kb.2 = c)
  /\ (forall s, truthy (ListQuery.status q) = Some s ->
                statusName (Blog.status kb.2) = s)
  /\ (forall a, ListQuery.author q = Some a -> Blog.author kb.2 = a)
  /\ (forall f, ListQuery.featured q = Some f ->
                Blog.featured kb.2 = bool_decide (f = str "true")).

(** The documents of a reply of the list route, none for an error. *)
Definition pageOf (r : Reply ListReply.t) : list (ObjectId * Blog.t) :=
  match r with Ok rep => ListReply.blogs rep | Fail _ => [] end.

(** An engine that takes every search but the lone ["("] for a regular
    expression that every document matches, and that orders the documents
    of an odd execution the other way round; it shows that the assumption
    on [sortDocs] can be met. *)
Definition plainEngine : QueryEngine :=
  {| regexCompile := fun s => if bool_decide (s = str "(") then None
                              else Some (fun _ => true);
     sortDocs := fun run _ _ l => if Nat.even run then l else rev l;
     sortDocs_perm := fun run _ _ l =>
       match Nat.even run as e
             return Permutation (if e then l else rev l) l with
       | true => Permutation_refl l
       | false => Permutation_sym (Permutation_rev l)
       end |}.

(** The count a grouping holds for the key [k], and the sum of its counts. *)
Definition tally {K : Type} `{EqDecision K} (k : K) (acc : list (K * Z)) : Z :=
  foldr (fun kn s => if bool_decide (kn.1 = k) then kn.2 + s else s) 0 acc.

Definition sumCounts {K : Type} (acc : list (K * Z)) : Z :=
  foldr (fun kn s => kn.2 + s) 0 acc.

(** The number of elements of [l] with the key [k]. *)
Definition occurrences {K A : Type} `{EqDecision K} (key : A -> K) (k : K)
           (l : list A) : Z :=
  Z.of_nat (length (List.filter (fun x => bool_decide (key x = k)) l)).

(** Descending order of a numeric key. *)
Definition descending {A : Type} (key : A -> Z) (x y : A) : Prop := key y <= key x.

(** The sum of the view counters of the store. *)
Definition allViews (st : Store) : Z := sumStat views (map_to_list (blogs st)).

(** ** The ASCII runtime

    An engine restricted to ASCII text.  It shows that the two assumptions
    on [toLowerCase] can be met, and the routes are evaluated with it on
    ASCII inputs. *)
Definition asciiRuntime : LowerCase.
Proof.
  refine {| toLowerCase := asciiLowerCase;
            toLowerCase_ascii := fun s _ => eq_refl |}.
  intros s. unfold asciiLowerCase. apply Forall_forall. intros c Hc.
  apply list_elem_of_In, in_map_iff in Hc. destruct Hc as (d & <- & _).
  unfold asciiLowerUnit. destruct (isUpperAZ d) eqn:E; [|exact E].
  unfold isUpperAZ, inRange in *. lia.
Defined.

(** ** Sample data

    A small store on which the routes are evaluated: an editor who owns one
    post, a second editor, an administrator and an author. *)
Definition sampleUser (name : string) (r : Role) (posts : Z) : User.t :=
  {| User.username := str name; User.email := str name ++ str "@example.org";
     User.role := r; User.postsCount := posts; User.viewsCount := 0;
     User.likesCount := 0; User.isActive := true; User.lastLogin := None;
     User.createdAt := 0; User.updatedAt := 0 |}.

Definition ann : Caller := (1, sampleUser "ann" Editor 1).
Definition bob : Caller := (2, sampleUser "bob" Editor 0).
Definition root : Caller := (3, sampleUser "root" Admin 0).
Definition cat : Caller := (4, sampleUser "cat" Author 0).

(** A post of [ann], published at time 1000. *)
Definition helloPost : Blog.t :=
  {| Blog.title := str "Hello World"; Blog.slug := str "hello-world";
     Blog.content := str "one two three"; Blog.excerpt := str "greeting";
     Blog.featuredImage := None; Blog.images := []; Blog.author := 1;
     Blog.category := str "Culture"; Blog.tags := [str "intro"];
     Blog.location := None;
     Blog.seo := {| metaTitle := Some (str "Hello"); metaDescription := None;
                    keywords := []; canonicalUrl := Some (str "/hello") |};
     Blog.status := Published; Blog.publishedAt := Some 1000;
     Blog.scheduledAt := None;
     Blog.stats := {| views := 7; likes := 0; shares := 0; comments := 0 |};
     Blog.readingTime := 1; Blog.featured := false;
     Blog.createdAt := 1000; Blog.updatedAt := 1000 |}.

Definition sampleStore : Store :=
  {| blogs := {[ 10 := helloPost ]};
     users := {[ 1 := ann.2; 2 := bob.2; 3 := root.2; 4 := cat.2 ]} |}.

(** A text of [n] one-letter words separated by single spaces, followed by
    one more word on a line of its own. *)
Definition wordsThenLine (n : nat) : jsstring :=
  joinWords (replicate n (str "w")) ++ [10] ++ str "w".

(** An update that carries an [seo] object only: a [metaTitle], a single
    string for [keywords] and a key the schema does not declare. *)
Definition seoPatch : UpdateBody.t :=
  UpdateBody.mk None None None None None None
    (Some {[ "metaTitle"%string := SeoText (str "Hi");
             "keywords"%string := SeoText (str "a");
             "foo"%string := SeoText (str "x") ]})
    None None None None None.

(** A second post, and the store that holds both. *)
Definition otherPost : Blog.t :=
  Blog.set_title (str "Other") (Blog.set_slug (str "other") helloPost).

Definition twoPosts : Store :=
  setBlogs {[ 10 := helloPost; 11 := otherPost ]} sampleStore.

(** The list of the posts of the category Culture, one to a page. *)
Definition cultureQuery : ListQuery.t :=
  ListQuery.mk None (Some 1%positive) None (Some (str "Culture")) None None None
               None None.

(** Two creates whose titles derive the same slug, on the sample store. *)
Definition firstCreate : CreateBody.t :=
  CreateBody.mk (str "Second Post") (str "a b c") (str "e") (str "Food")
                None None None None None (Some (str "published")) None None.

Definition secondCreate : CreateBody.t :=
  CreateBody.mk (str "second   POST!") (str "d e f") (str "e") (str "City")
                None None None None None None None None.

(** * Properties *)

(** ** Slug generation *)

Lemma noHyphenRun_cons c s :
  noHyphenRun (c :: s)
  = negb ((c =? HYPHEN) && startsWithHyphen s) && noHyphenRun s.
Proof.
  destruct s as [|d s]; simpl; [|reflexivity].
  now destruct (c =? HYPHEN).
Qed.

Lemma noHyphenRun_firstn n s :
  noHyphenRun s = true -> noHyphenRun (firstn n s) = true.
Proof.
  revert s. induction n as [|n IH]; intros [|c s] Hs; try reflexivity.
  rewrite firstn_cons, noHyphenRun_cons.
  rewrite noHyphenRun_cons in Hs. apply andb_true_iff in Hs as [Hc Hs].
  rewrite (IH _ Hs), andb_true_r.
  destruct n, s; simpl in *; try (now rewrite ?andb_false_r); exact Hc.
Qed.

Lemma isSpace_not_hyphen c : isSpace c = true -> c <> HYPHEN.
Proof. intros Hc ->. vm_compute in Hc. discriminate. Qed.

Lemma alnum_not_hyphen c : isLowerAZ c || isDigit c = true -> c <> HYPHEN.
Proof. intros Hc ->. vm_compute in Hc. discriminate. Qed.

Lemma stripNonAlnum_stripped s :
  Forall (fun c => isUpperAZ c = false) s ->
  Forall (fun c => isStripped c = true) (stripNonAlnum s).
Proof.
  intros Hs. apply Forall_forall. intros c Hc.
  apply list_elem_of_In, filter_In in Hc. destruct Hc as [Hin Hk].
  rewrite Forall_forall in Hs. apply list_elem_of_In, Hs in Hin.
  unfold keptBySlug in Hk. unfold isStripped. rewrite Hin in Hk.
  now rewrite orb_false_r in Hk.
Qed.

Lemma hyphenateFrom_slugChars b s :
  Forall (fun c => isStripped c = true) s ->
  Forall (fun c => isSlugChar c = true) (hyphenateFrom b s).
Proof.
  intros Hs. revert b. induction Hs as [|c s Hc _ IH]; intros b; simpl.
  - constructor.
  - destruct (isSpace c) eqn:Esp.
    + destruct b; [apply IH|]. constructor; [reflexivity | apply IH].
    + constructor; [|apply IH].
      unfold isStripped in Hc. rewrite Esp, orb_false_r in Hc.
      unfold isSlugChar. now rewrite Hc.
Qed.

Lemma hyphenateFrom_noRun b s :
  Forall (fun c => isStripped c = true) s ->
  noHyphenRun (hyphenateFrom b s) = true
  /\ (b = true -> startsWithHyphen (hyphenateFrom b s) = false).
Proof.
  intros Hs. revert b. induction Hs as [|c s Hc _ IH]; intros b; simpl.
  - split; [reflexivity | intros _; reflexivity].
  - destruct (isSpace c) eqn:Esp.
    + destruct b.
      * apply IH.
      * split; [|discriminate].
        rewrite noHyphenRun_cons.
        destruct (IH true) as [-> ->]; reflexivity.
    + assert (Hne : (c =? HYPHEN) = false).
      { apply Z.eqb_neq, alnum_not_hyphen.
        unfold isStripped in Hc. now rewrite Esp, orb_false_r in Hc. }
      split.
      * rewrite noHyphenRun_cons, Hne. simpl. apply IH.
      * intros _. simpl. exact Hne.
Qed.

Lemma isSlugChar_lowercase c : isSlugChar c = true -> isUpperAZ c = false.
Proof.
  unfold isSlugChar, isUpperAZ, isLowerAZ, isDigit, inRange, HYPHEN. lia.
Qed.

Lemma generateSlug_slugChars `{LowerCase} (title : jsstring) :
  Forall (fun c => isSlugChar c = true) (generateSlug title).
Proof.
  unfold generateSlug, substring0, hyphenateSpaces.
  apply Forall_take, hyphenateFrom_slugChars, stripNonAlnum_stripped.
  apply toLowerCase_no_upper.
Qed.

(** Whitespace at the head of the lower-cased title becomes a leading
    hyphen of the slug. *)
Lemma generateSlug_leading_hyphen `{LowerCase} (title : jsstring) c r :
  toLowerCase title = c :: r -> isSpace c = true ->
  startsWithHyphen (generateSlug title) = true.
Proof.
  intros Hl Hc.
  assert (Hk : keptBySlug c = true).
  { unfold keptBySlug. now rewrite Hc, orb_true_r. }
  unfold generateSlug, substring0, hyphenateSpaces, stripNonAlnum.
  rewrite Hl. cbn [List.filter]. rewrite Hk. cbn [hyphenateFrom].
  now rewrite Hc.
Qed.

Lemma endsWithHyphen_snoc s c : endsWithHyphen (s ++ [c]) = (c =? HYPHEN).
Proof. unfold endsWithHyphen. now rewrite rev_app_distr. Qed.

(** The replace ends with a hyphen when its input ends with whitespace;
    [p] is what was written before [s], [b] tells whether a run is open. *)
Lemma hyphenateFrom_ends b s p :
  (b = true -> endsWithHyphen p = true) -> lastIsSpace b s = true ->
  endsWithHyphen (p ++ hyphenateFrom b s) = true.
Proof.
  revert b p. induction s as [|c s IH]; intros b p Hp Hlast.
  - simpl in *. rewrite app_nil_r. auto.
  - cbn [hyphenateFrom]. unfold lastIsSpace in Hlast. cbn [fold_left] in Hlast.
    destruct (isSpace c) eqn:Esp.
    + destruct b.
      * apply IH; assumption.
      * change (p ++ HYPHEN :: hyphenateFrom true s)
          with (p ++ [HYPHEN] ++ hyphenateFrom true s).
        rewrite app_assoc. apply IH; [|exact Hlast].
        intros _. now rewrite endsWithHyphen_snoc.
    + change (p ++ c :: hyphenateFrom false s)
        with (p ++ [c] ++ hyphenateFrom false s).
      rewrite app_assoc. apply IH; [discriminate | exact Hlast].
Qed.

(** Whitespace at the end of the lower-cased title becomes a trailing hyphen
    of the slug, unless the slug was cut at 50. *)
Lemma generateSlug_trailing_hyphen `{LowerCase} (title : jsstring) r c :
  toLowerCase title = r ++ [c] -> isSpace c = true ->
  (length (generateSlug title) < 50)%nat ->
  endsWithHyphen (generateSlug title) = true.
Proof.
  intros Hl Hc Hlen.
  assert (Hk : keptBySlug c = true).
  { unfold keptBySlug. now rewrite Hc, orb_true_r. }
  unfold generateSlug, substring0, hyphenateSpaces, stripNonAlnum in *.
  rewrite Hl, List.filter_app in *. cbn [List.filter] in *.
  rewrite Hk in *.
  rewrite length_firstn in Hlen. rewrite firstn_all2 by lia.
  apply (hyphenateFrom_ends false _ []); [discriminate|].
  unfold lastIsSpace. rewrite fold_left_app. exact Hc.
Qed.

(** C2 (as amended): for every title, the derived slug contains only
    characters of [a-z0-9-] (so it is lowercase), never contains two adjacent
    hyphens, and is at most 50 code units long.  The title is not trimmed:
    when the lower-cased title begins with a whitespace character the slug
    begins with a hyphen, and when it ends with a whitespace character and
    the slug is shorter than 50 code units, so that nothing was cut off, the
    slug ends with a hyphen. *)
Theorem generateSlug_wellformed `{LowerCase} (title : jsstring) :
  Forall (fun c => isSlugChar c = true /\ isUpperAZ c = false) (generateSlug title)
  /\ noHyphenRun (generateSlug title) = true
  /\ (length (generateSlug title) <= 50)%nat
  /\ (forall c r, toLowerCase title = c :: r -> isSpace c = true ->
                  startsWithHyphen (generateSlug title) = true)
  /\ (forall r c, toLowerCase title = r ++ [c] -> isSpace c = true ->
                  (length (generateSlug title) < 50)%nat ->
                  endsWithHyphen (generateSlug title) = true).
Proof.
  split; [|split; [|split; [|split]]].
  - eapply Forall_impl; [apply generateSlug_slugChars|].
    intros c Hc. split; [exact Hc | now apply isSlugChar_lowercase].
  - unfold generateSlug, substring0, hyphenateSpaces.
    apply noHyphenRun_firstn, hyphenateFrom_noRun, stripNonAlnum_stripped.
    apply toLowerCase_no_upper.
  - apply firstn_le_length.
  - apply generateSlug_leading_hyphen.
  - apply generateSlug_trailing_hyphen.
Qed.

(** The cut at 50 may take the trailing hyphen away: sixty letters and a
    space derive fifty letters. *)
Example generateSlug_cut_off :
  @generateSlug asciiRuntime (replicate 60 97 ++ [SPACE]) = replicate 50 97
  /\ endsWithHyphen (@generateSlug asciiRuntime (replicate 60 97 ++ [SPACE])) = false.
Proof. split; vm_compute; reflexivity. Qed.

(** C2, counterexample: the title " Hello " (the create route does not trim
    what it receives) derives the slug "-hello-", with a hyphen at each end. *)
Lemma generateSlug_untrimmed_counterexample :
  @generateSlug asciiRuntime (str " Hello ") = str "-hello-"
  /\ ~ @slugAsSpecified asciiRuntime (str " Hello ").
Proof.
  split; [reflexivity|].
  intros (_ & _ & Hlead & _). vm_compute in Hlead. discriminate.
Qed.

(** ** Queries *)

Lemma findOneBySlug_Some s st k b :
  findOneBySlug s st = Some (k, b) -> blogs st !! k = Some b /\ Blog.slug b = s.
Proof.
  unfold findOneBySlug. intros Hf. apply find_some in Hf as [Hin Hp].
  apply list_elem_of_In, elem_of_map_to_list in Hin.
  apply bool_decide_eq_true in Hp. auto.
Qed.

Lemma findOneBySlug_None s st k b :
  findOneBySlug s st = None -> blogs st !! k = Some b -> Blog.slug b <> s.
Proof.
  unfold findOneBySlug. intros Hf Hk Hs.
  apply elem_of_map_to_list, list_elem_of_In in Hk.
  apply (find_none _ _ Hf) in Hk. simpl in Hk.
  apply bool_decide_eq_false in Hk. contradiction.
Qed.

Lemma findOneBySlug_holder s st k b :
  blogs st !! k = Some b -> Blog.slug b = s ->
  exists k' b', findOneBySlug s st = Some (k', b').
Proof.
  intros Hk Hs. destruct (findOneBySlug s st) as [[k' b']|] eqn:E; [eauto|].
  exfalso. eapply findOneBySlug_None; eauto.
Qed.

Lemma findOneBySlugExcept_Some s id st k b :
  findOneBySlugExcept s id st = Some (k, b) ->
  blogs st !! k = Some b /\ Blog.slug b = s /\ k <> id.
Proof.
  unfold findOneBySlugExcept. intros Hf. apply find_some in Hf as [Hin Hp].
  apply list_elem_of_In, elem_of_map_to_list in Hin.
  apply andb_true_iff in Hp as [Hp1 Hp2].
  apply bool_decide_eq_true in Hp1, Hp2. auto.
Qed.

Lemma findOneBySlugExcept_None s id st k b :
  findOneBySlugExcept s id st = None ->
  blogs st !! k = Some b -> Blog.slug b = s -> k = id.
Proof.
  unfold findOneBySlugExcept. intros Hf Hk Hs.
  apply elem_of_map_to_list, list_elem_of_In in Hk.
  apply (find_none _ _ Hf) in Hk. simpl in Hk.
  apply andb_false_iff in Hk as [Hk|Hk]; apply bool_decide_eq_false in Hk.
  - contradiction.
  - destruct (decide (k = id)); [assumption | contradiction].
Qed.

Lemma findByIdentifier_Some `{LowerCase} identifier st id b :
  findByIdentifier identifier st = Some (id, b) -> blogs st !! id = Some b.
Proof.
  unfold findByIdentifier, findById.
  destruct (castObjectId identifier) as [k|].
  - destruct (blogs st !! k) eqn:E; intros [= <- <-]. exact E.
  - intros Hf. now apply findOneBySlug_Some in Hf.
Qed.

Lemma updateMany_lookup ids upd st k :
  blogs (updateMany ids upd st).2 !! k
  = (fun b => if matchesIn ids k then upd b else b) <$> blogs st !! k.
Proof.
  unfold updateMany. simpl. rewrite map_lookup_imap.
  now destruct (blogs st !! k).
Qed.

Lemma deleteMany_lookup ids st k b :
  blogs (deleteMany ids st).2 !! k = Some b <-> blogs st !! k = Some b /\ k ∉ ids.
Proof. unfold deleteMany. simpl. now rewrite map_lookup_filter_Some. Qed.

Lemma updateMany_users ids upd st : users (updateMany ids upd st).2 = users st.
Proof. reflexivity. Qed.

Lemma deleteMany_users ids st : users (deleteMany ids st).2 = users st.
Proof. reflexivity. Qed.

(** ** The steps of the update route, field by field *)

Lemma setIf_frame {A B : Type} (p : Blog.t -> B) (o : option A) set blog :
  (forall v x, p (set v x) = p x) -> p (setIf o set blog) = p blog.
Proof. intros Hp. destruct o; simpl; auto. Qed.

(** Rewrites the projection [p] through every guarded assignment that does
    not write it. *)
Ltac through_assignments p :=
  unfold assignFields, assignRest; cbv zeta;
  repeat (rewrite (setIf_frame p) by (intros; reflexivity)).

Lemma updateSlug_frame `{LowerCase} {B : Type} (p : Blog.t -> B) id body blog st blog' :
  (forall v x, p (Blog.set_slug v x) = p x) ->
  updateSlug id body blog st = Some blog' -> p blog' = p blog.
Proof.
  intros Hp. unfold updateSlug.
  destruct (truthy (UpdateBody.title body)); [|now intros [= <-]].
  case_bool_decide; [|now intros [= <-]].
  destruct (findOneBySlugExcept _ _ _); [discriminate|].
  intros [= <-]. apply Hp.
Qed.

Lemma updateStatus_frame `{LowerCase} {B : Type} (p : Blog.t -> B) now body blog blog' :
  (forall v x, p (Blog.set_status v x) = p x) ->
  (forall v x, p (Blog.set_publishedAt v x) = p x) ->
  updateStatus now body blog = Some blog' -> p blog' = p blog.
Proof.
  intros Hs Hp. unfold updateStatus.
  destruct (truthy (UpdateBody.status body)); [|now intros [= <-]].
  destruct (statusOfString _); [|discriminate].
  intros [= <-]. destruct (_ && _); now rewrite ?Hp, Hs.
Qed.

Lemma bulkSwitch_inv now action ids st res :
  bulkSwitch now action ids st = Some res ->
  (action = str "delete" /\ res = deleteMany ids st)
  \/ (action <> str "delete"
      /\ exists upd, In upd (bulkUpdates now) /\ res = updateMany ids upd st).
Proof.
  unfold bulkSwitch, bulkUpdates.
  repeat case_bool_decide; intros [= <-]; try (left; now split);
    right; (split; [assumption|]); eexists; (split; [|reflexivity]); simpl; auto.
Qed.

(** ** Reading time *)

Lemma ceilDiv_isCeiling n d : 0 < d -> isCeiling (ceilDiv n d) n d.
Proof.
  intros Hd. unfold isCeiling, ceilDiv.
  pose proof (Z.div_mod (- n) d) as Hdm.
  pose proof (Z.mod_pos_bound (- n) d Hd) as Hb. nia.
Qed.

Lemma readingTimeOf_isCeiling content :
  isCeiling (readingTimeOf content) (wordCount content) 200.
Proof. now apply ceilDiv_isCeiling. Qed.

Lemma readingTimeRule_same st id after :
  blogs st !! id = Some after -> readingTimeRule (blogs st !! id) after.
Proof. intros ->. split; [intros []; reflexivity | reflexivity]. Qed.

Lemma split_word_then_space w r :
  spaceFree w -> split SPACE (w ++ SPACE :: r) = w :: split SPACE r.
Proof.
  induction 1 as [|c w Hc _ IH]; simpl.
  - reflexivity.
  - apply Z.eqb_neq in Hc. rewrite Hc. cbn [app] in IH. now rewrite IH.
Qed.

Lemma split_one_word w : spaceFree w -> split SPACE w = [w].
Proof.
  induction 1 as [|c w Hc _ IH]; simpl.
  - reflexivity.
  - apply Z.eqb_neq in Hc. now rewrite Hc, IH.
Qed.

Lemma split_joinWords ws :
  ws <> [] -> Forall spaceFree ws -> split SPACE (joinWords ws) = ws.
Proof.
  intros Hne Hws. induction Hws as [|w ws Hw Hws IH]; [contradiction|].
  destruct ws as [|w' ws].
  - simpl. now apply split_one_word.
  - change (joinWords (w :: w' :: ws)) with (w ++ SPACE :: joinWords (w' :: ws)).
    rewrite split_word_then_space by assumption.
    now rewrite IH.
Qed.

Lemma wordCount_joinWords ws :
  ws <> [] -> Forall spaceFree ws ->
  wordCount (joinWords ws) = Z.of_nat (length ws).
Proof. intros Hne Hws. unfold wordCount. now rewrite split_joinWords. Qed.

Section ReadingTime.
Context `{LowerCase}.

Lemma getBlog_readingTime now identifier st id after :
  blogs (getBlog now identifier st).2 !! id = Some after ->
  readingTimeRule (blogs st !! id) after.
Proof.
  unfold getBlog.
  destruct (findByIdentifier identifier st) as [[k b]|] eqn:E; simpl;
    [|apply readingTimeRule_same].
  destruct (negb (validDoc _)); simpl; [apply readingTimeRule_same|].
  apply findByIdentifier_Some in E.
  destruct (decide (k = id)) as [->|Hne].
  - rewrite lookup_insert_eq, E. intros [= <-]. now split.
  - rewrite lookup_insert_ne by assumption. apply readingTimeRule_same.
Qed.

Lemma createBlog_readingTime now newId caller body st id after :
  blogs (createBlog now newId caller body st).2 !! id = Some after ->
  readingTimeRule (blogs st !! id) after.
Proof.
  unfold createBlog.
  destruct (editorAuth caller) as [e|[uid u]]; [apply readingTimeRule_same|].
  destruct (negb (validCreate body)); [apply readingTimeRule_same|].
  destruct (findOneBySlug _ st); [apply readingTimeRule_same|].
  destruct (statusOfString _) as [s|]; [|apply readingTimeRule_same].
  destruct (negb (insertable _ _ _ _)) eqn:Hins; [apply readingTimeRule_same|].
  simpl. destruct (decide (newId = id)) as [->|Hne].
  - rewrite lookup_insert_eq. intros [= <-].
    apply negb_false_iff in Hins. unfold insertable in Hins.
    rewrite !andb_true_iff in Hins. destruct Hins as [[_ Hfresh] _].
    apply bool_decide_eq_true in Hfresh. unfold findById in Hfresh.
    rewrite Hfresh. simpl. apply readingTimeOf_isCeiling.
  - rewrite lookup_insert_ne by assumption. apply readingTimeRule_same.
Qed.

Lemma updateBlog_readingTime now caller id' body st id after :
  blogs (updateBlog now caller id' body st).2 !! id = Some after ->
  readingTimeRule (blogs st !! id) after.
Proof.
  unfold updateBlog.
  destruct (editorAuth caller) as [e|[uid u]]; [apply readingTimeRule_same|].
  unfold findById. destruct (blogs st !! id') as [old|] eqn:Hold;
    [|apply readingTimeRule_same].
  destruct (_ && _); [apply readingTimeRule_same|].
  destruct (updateSlug id' body old st) as [b1|] eqn:E1;
    [|apply readingTimeRule_same].
  destruct (updateStatus now body (assignFields body b1)) as [b2|] eqn:E2;
    [|apply readingTimeRule_same].
  destruct (negb (updatable _ _ _ _ _)); [apply readingTimeRule_same|].
  simpl. destruct (decide (id' = id)) as [->|Hne].
  - rewrite lookup_insert_eq, Hold. intros [= <-].
    assert (Hrt : Blog.readingTime (assignRest body b2) = Blog.readingTime old).
    { through_assignments Blog.readingTime.
      rewrite (updateStatus_frame Blog.readingTime _ _ _ _ ltac:(reflexivity)
                 ltac:(reflexivity) E2).
      through_assignments Blog.readingTime.
      now apply (updateSlug_frame Blog.readingTime _ _ _ _ _ ltac:(reflexivity) E1). }
    unfold preSave. case_bool_decide as Hc; simpl.
    + split; [intros _; apply readingTimeOf_isCeiling | intros; contradiction].
    + split; [intros; contradiction | intros _; exact Hrt].
  - rewrite lookup_insert_ne by assumption. apply readingTimeRule_same.
Qed.

Lemma deleteBlog_readingTime caller id' st id after :
  blogs (deleteBlog caller id' st).2 !! id = Some after ->
  readingTimeRule (blogs st !! id) after.
Proof.
  unfold deleteBlog.
  destruct (editorAuth caller) as [e|[uid u]]; [apply readingTimeRule_same|].
  destruct (findById id' st); [|apply readingTimeRule_same].
  destruct (_ && _); [apply readingTimeRule_same|].
  simpl. intros Hl. apply lookup_delete_Some in Hl as [_ Hl].
  now apply readingTimeRule_same.
Qed.

Lemma bulkBlogs_readingTime now caller body st id after :
  blogs (bulkBlogs now caller body st).2 !! id = Some after ->
  readingTimeRule (blogs st !! id) after.
Proof.
  unfold bulkBlogs.
  destruct (adminAuth caller); [apply readingTimeRule_same|].
  destruct (BulkBody.action body) as [[|c a]|]; try apply readingTimeRule_same.
  destruct (BulkBody.blogIds body) as [ids|]; [|apply readingTimeRule_same].
  destruct (bulkSwitch now (c :: a) ids st) as [[res st']|] eqn:E;
    [|apply readingTimeRule_same].
  simpl. apply bulkSwitch_inv in E as [[_ E]|(_ & upd & Hupd & E)].
  - replace st' with (deleteMany ids st).2 by now rewrite <- E.
    intros Hl. apply deleteMany_lookup in Hl as [Hl _].
    now apply readingTimeRule_same.
  - replace st' with (updateMany ids upd st).2 by now rewrite <- E.
    rewrite updateMany_lookup.
    destruct (blogs st !! id) as [old|]; [|discriminate].
    intros [= <-]. destruct (matchesIn ids id); [|now split].
    simpl in Hupd. destruct Hupd as [<-|[<-|[<-|[<-|[]]]]]; now split.
Qed.
End ReadingTime.

Lemma split_nonempty sep s : split sep s <> [].
Proof.
  induction s as [|c s IH]; simpl; [discriminate|].
  destruct (c =? sep); [discriminate|].
  destruct (split sep s); [contradiction | discriminate].
Qed.

(** The hook's word count is one more than the number of spaces. *)
Lemma wordCount_spaces content :
  wordCount content = Z.of_nat (countSpaces content) + 1.
Proof.
  unfold wordCount, countSpaces.
  induction content as [|c s IH]; simpl; [reflexivity|].
  destruct (c =? SPACE); simpl.
  - lia.
  - pose proof (split_nonempty SPACE s) as Hne.
    destruct (split SPACE s) as [|p ps]; [contradiction|]. exact IH.
Qed.

(** C4 (as amended): across every write, a stored document whose body
    changed (or that the write created) has as reading time the ceiling of
    N / 200, where N is the number of pieces the body splits into at its
    space characters, one more than the number of spaces; a document whose
    body did not change keeps its reading time.  A body of 400 words with one
    space between two words reads in 2 minutes, one of 401 such words in 3. *)
Theorem readingTime_recomputed_on_body_change `{LowerCase} :
  (forall now r st id after,
      blogs (serve now r st) !! id = Some after ->
      readingTimeRule (blogs st !! id) after)
  /\ (forall now b, Blog.readingTime (preSave true now b)
                    = readingTimeOf (Blog.content b))
  /\ (forall content, wordCount content = Z.of_nat (countSpaces content) + 1)
  /\ (forall ws, Forall spaceFree ws ->
        (length ws = 400%nat -> readingTimeOf (joinWords ws) = 2)
        /\ (length ws = 401%nat -> readingTimeOf (joinWords ws) = 3)).
Proof.
  split; [|split; [|split]].
  - intros now [identifier|newId caller body|caller id' body|caller id'|caller body]
      st id after; simpl.
    + apply getBlog_readingTime.
    + apply createBlog_readingTime.
    + apply updateBlog_readingTime.
    + apply deleteBlog_readingTime.
    + apply bulkBlogs_readingTime.
  - reflexivity.
  - apply wordCount_spaces.
  - intros ws Hws. unfold readingTimeOf.
    split; intros Hlen; rewrite wordCount_joinWords, Hlen;
      try assumption; try reflexivity; intros ->; discriminate.
Qed.

(** C4, counterexample: a body of 401 words, the last one on a line of its
    own.  The hook counts 400 pieces and the create route stores a reading
    time of 2 minutes, where the ceiling of 401 / 200 is 3. *)
Lemma readingTime_newline_counterexample :
  let body := wordsThenLine 400 in
  let post := CreateBody.mk (str "Long Read") body (str "e") (str "Food")
                            None None None None None None None None in
  countWords body = 401%nat
  /\ wordCount body = 400
  /\ Blog.readingTime
       <$> blogs (@createBlog asciiRuntime 5000 11 (Some ann) post sampleStore).2
           !! 11
     = Some 2
  /\ ~ isCeiling 2 401 200.
Proof.
  repeat split; try (vm_compute; reflexivity).
  unfold isCeiling. lia.
Qed.

(** ** The shape of the update and delete routes *)

Lemma preSave_frame {B : Type} (p : Blog.t -> B) flag now b :
  (forall v x, p (Blog.set_readingTime v x) = p x) ->
  (forall v x, p (Blog.set_updatedAt v x) = p x) ->
  p (preSave flag now b) = p b.
Proof. intros Hr Hu. unfold preSave. rewrite Hu. destruct flag; auto. Qed.

Lemma updateBlog_inv `{LowerCase} now caller id body st :
  (exists e, updateBlog now caller id body st = (Fail e, st))
  \/ (exists old after,
        blogs st !! id = Some old
        /\ savedByUpdate now id body old st after
        /\ updateBlog now caller id body st
           = (Ok (id, after), setBlogs (<[id := after]> (blogs st)) st)).
Proof.
  unfold updateBlog, findById.
  destruct (editorAuth caller) as [e|[uid u]]; [left; eauto|].
  destruct (blogs st !! id) as [old|] eqn:Hold; [|left; eauto].
  destruct (_ && _); [left; eauto|].
  destruct (updateSlug id body old st) as [b1|] eqn:E1; [|left; eauto].
  destruct (updateStatus now body (assignFields body b1)) as [b2|] eqn:E2;
    [|left; eauto].
  destruct (negb (updatable _ _ _ _ _)); [left; eauto|].
  right. exists old. eexists. split; [reflexivity|]. split; [|reflexivity].
  exists b1, b2. auto.
Qed.

(** ** Publication time *)

Lemma updateStatus_publishedAt `{LowerCase} now body blog blog' :
  updateStatus now body blog = Some blog' ->
  Blog.publishedAt blog' =
    match Blog.publishedAt blog with
    | Some t => Some t
    | None => if bool_decide (truthy (UpdateBody.status body) = Some (str "published"))
              then Some now else None
    end.
Proof.
  unfold updateStatus.
  destruct (truthy (UpdateBody.status body)) as [s|];
    [|intros [= <-]; now destruct (Blog.publishedAt blog)].
  destruct (statusOfString s) as [s0|]; [|discriminate]. intros Heq.
  injection Heq as <-.
  change (Blog.publishedAt (Blog.set_status s0 blog)) with (Blog.publishedAt blog).
  destruct (decide (s = str "published")) as [Hs|Hs].
  - rewrite !(bool_decide_eq_true_2 _ Hs).
    rewrite (bool_decide_eq_true_2 (Some s = _)) by congruence.
    destruct (Blog.publishedAt blog) as [t|] eqn:Ep.
    + rewrite (bool_decide_eq_false_2 (Some t = None)) by discriminate. exact Ep.
    + rewrite (bool_decide_eq_true_2 (None = None)) by reflexivity. reflexivity.
  - rewrite (bool_decide_eq_false_2 _ Hs).
    rewrite (bool_decide_eq_false_2 (Some s = _)) by congruence.
    cbn [andb].
    change (Blog.publishedAt (Blog.set_status s0 blog)) with (Blog.publishedAt blog).
    now destruct (Blog.publishedAt blog).
Qed.

(** The single-record update assigns [publishedAt] only when it was unset
    and the request moves the status to published; a set value is kept. *)
Lemma updateBlog_publishedAt `{LowerCase} now id body old st after :
  savedByUpdate now id body old st after ->
  Blog.publishedAt after =
    match Blog.publishedAt old with
    | Some t => Some t
    | None => if bool_decide (truthy (UpdateBody.status body) = Some (str "published"))
              then Some now else None
    end.
Proof.
  intros (b1 & b2 & E1 & E2 & ->).
  rewrite preSave_frame by reflexivity.
  through_assignments Blog.publishedAt.
  rewrite (updateStatus_publishedAt _ _ _ _ E2).
  through_assignments Blog.publishedAt.
  now rewrite (updateSlug_frame Blog.publishedAt _ _ _ _ _ ltac:(reflexivity) E1).
Qed.

(** What the bulk publish does to a matched document, whatever the
    document's [publishedAt] was. *)
Lemma bulkPublish_lookup now caller c ids st k b :
  adminAuth caller = inr c ->
  blogs st !! k = Some b -> k ∈ ids ->
  blogs (bulkBlogs now caller (BulkBody.mk (Some (str "publish")) (Some ids)) st).2
    !! k = Some (Blog.set_publishedAt (Some now) (Blog.set_status Published b)).
Proof.
  intros Hadm Hk Hin. unfold bulkBlogs. rewrite Hadm.
  simpl. rewrite map_lookup_imap, Hk. simpl.
  unfold matchesIn. now rewrite bool_decide_eq_true_2.
Qed.

(** C1, the failing input: a post first published at time 1000 and since
    returned to draft is published again, at time 5000.  The bulk publish
    overwrites its [publishedAt] with 5000; the single-record update keeps
    1000. *)
Theorem bulkPublish_overwrites_publishedAt :
  let st := setBlogs {[ 10 := Blog.set_status Draft helloPost ]} sampleStore in
  Blog.publishedAt <$> blogs st !! 10 = Some (Some 1000)
  /\ Blog.publishedAt
       <$> blogs (bulkBlogs 5000 (Some root)
                    (BulkBody.mk (Some (str "publish")) (Some [10])) st).2 !! 10
     = Some (Some 5000)
  /\ Blog.publishedAt
       <$> blogs (@updateBlog asciiRuntime 5000 (Some root) 10
                    (UpdateBody.mk None None None None None None None None None
                       (Some (str "published")) None None) st).2 !! 10
     = Some (Some 1000).
Proof. repeat split; vm_compute; reflexivity. Qed.

(** ** The post counter *)

Lemma incPostsCount_lookup id d st k :
  users (incPostsCount id d st) !! k
  = if decide (id = k)
    then (fun u => User.set_postsCount (User.postsCount u + d) u) <$> users st !! k
    else users st !! k.
Proof.
  unfold incPostsCount. simpl. destruct (decide (id = k)) as [->|Hne].
  - apply lookup_alter_eq.
  - now apply lookup_alter_ne.
Qed.

(** The single-record delete removes the post and takes exactly 1 from the
    post counter of its author, whatever the counter was. *)
Lemma deleteBlog_decrements caller id st st' b u :
  deleteBlog caller id st = (Ok tt, st') ->
  blogs st !! id = Some b ->
  users st !! Blog.author b = Some u ->
  blogs st' !! id = None
  /\ User.postsCount <$> users st' !! Blog.author b = Some (User.postsCount u - 1)
  /\ (forall k, k <> Blog.author b -> users st' !! k = users st !! k).
Proof.
  unfold deleteBlog, findById. intros Hd Hb Hu.
  destruct (editorAuth caller) as [e|[uid usr]]; [discriminate|].
  rewrite Hb in Hd. destruct (_ && _); [discriminate|].
  injection Hd as <-. split; [|split].
  - simpl. apply lookup_delete_eq.
  - rewrite incPostsCount_lookup. rewrite decide_True by reflexivity.
    simpl. rewrite Hu. reflexivity.
  - intros k Hk. rewrite incPostsCount_lookup. now rewrite decide_False by congruence.
Qed.

(** No bulk action writes to the identity collection. *)
Lemma bulkBlogs_users now caller body st :
  users (bulkBlogs now caller body st).2 = users st.
Proof.
  unfold bulkBlogs.
  destruct (adminAuth caller); [reflexivity|].
  destruct (BulkBody.action body) as [[|c a]|]; try reflexivity.
  destruct (BulkBody.blogIds body) as [ids|]; [|reflexivity].
  destruct (bulkSwitch now (c :: a) ids st) as [[res st']|] eqn:E; [|reflexivity].
  simpl. apply bulkSwitch_inv in E as [[_ E]|(_ & upd & _ & E)];
    injection E as _ ->; reflexivity.
Qed.

(** C5, the failing input: [ann] owns one post and her counter is 1.  The
    bulk delete of that post removes it and leaves the counter at 1; the
    single-record delete removes it and brings the counter to 0 (and a
    counter of 0 to -1: there is no floor). *)
Theorem bulkDelete_keeps_postsCount :
  let bulk := bulkBlogs 5000 (Some root)
                (BulkBody.mk (Some (str "delete")) (Some [10])) sampleStore in
  let single := deleteBlog (Some ann) 10 sampleStore in
  let again := deleteBlog (Some ann) 10
                 (setUsers (<[1 := User.set_postsCount 0 ann.2]> (users sampleStore))
                           sampleStore) in
  User.postsCount <$> users sampleStore !! 1 = Some 1
  /\ bulk.1 = Ok (Some 1)
  /\ blogs bulk.2 !! 10 = None
  /\ User.postsCount <$> users bulk.2 !! 1 = Some 1
  /\ single.1 = Ok tt
  /\ blogs single.2 !! 10 = None
  /\ User.postsCount <$> users single.2 !! 1 = Some 0
  /\ User.postsCount <$> users again.2 !! 1 = Some (-1).
Proof. repeat split; vm_compute; reflexivity. Qed.

(** ** Slug uniqueness *)

Lemma findOneBySlugExcept_holder s id st k b :
  blogs st !! k = Some b -> Blog.slug b = s -> k <> id ->
  exists kb, findOneBySlugExcept s id st = Some kb.
Proof.
  intros Hk Hs Hne. destruct (findOneBySlugExcept s id st) as [kb|] eqn:E; [eauto|].
  exfalso. apply Hne. eapply findOneBySlugExcept_None; eauto.
Qed.

Lemma asciiLowerCase_fixes s :
  Forall (fun c => isUpperAZ c = false) s -> asciiLowerCase s = s.
Proof.
  unfold asciiLowerCase. induction 1 as [|c s Hc _ IH]; simpl; [reflexivity|].
  rewrite IH. unfold asciiLowerUnit. now rewrite Hc.
Qed.

Lemma isSlugChar_ascii c : isSlugChar c = true -> isAscii c = true.
Proof.
  unfold isSlugChar, isAscii, isLowerAZ, isDigit, inRange, HYPHEN. lia.
Qed.

(** The [lowercase] setter of the schema leaves a derived slug as it is. *)
Lemma toLowerCase_generateSlug `{LowerCase} title :
  toLowerCase (generateSlug title) = generateSlug title.
Proof.
  pose proof (generateSlug_slugChars title) as Hchars.
  rewrite toLowerCase_ascii.
  - apply asciiLowerCase_fixes. eapply Forall_impl; [exact Hchars|].
    intros c. apply isSlugChar_lowercase.
  - eapply Forall_impl; [exact Hchars|]. intros c. apply isSlugChar_ascii.
Qed.

Lemma createBlog_inv `{LowerCase} now newId caller body st :
  (exists e, createBlog now newId caller body st = (Fail e, st))
  \/ (exists uid u after,
        editorAuth caller = inr (uid, u)
        /\ blogs st !! newId = None
        /\ findOneBySlug (generateSlug (CreateBody.title body)) st = None
        /\ savedByCreate now uid body after
        /\ createBlog now newId caller body st
           = (Ok (newId, after),
              incPostsCount uid 1 (setBlogs (<[newId := after]> (blogs st)) st))).
Proof.
  unfold createBlog.
  destruct (editorAuth caller) as [e|[uid u]]; [left; eauto|].
  destruct (negb (validCreate body)); [left; eauto|].
  destruct (findOneBySlug _ st) eqn:Ef; [left; eauto|].
  destruct (statusOfString _) as [s|] eqn:Es; [|left; eauto].
  destruct (negb (insertable _ _ _ _)) eqn:Hins; [left; eauto|].
  right. exists uid, u. eexists. split; [reflexivity|].
  apply negb_false_iff in Hins. unfold insertable in Hins.
  rewrite !andb_true_iff in Hins. destruct Hins as [[_ Hfresh] _].
  apply bool_decide_eq_true in Hfresh.
  split; [exact Hfresh|]. split; [reflexivity|]. split; [|reflexivity].
  exists s. auto.
Qed.

Lemma savedByCreate_slug `{LowerCase} now uid body after :
  savedByCreate now uid body after ->
  Blog.slug after = generateSlug (CreateBody.title body).
Proof.
  intros (s & _ & ->). rewrite preSave_frame by reflexivity.
  simpl. apply toLowerCase_generateSlug.
Qed.

Lemma createBlog_collision `{LowerCase} now newId caller c body st k b :
  editorAuth caller = inr c -> validCreate body = true ->
  blogs st !! k = Some b -> Blog.slug b = generateSlug (CreateBody.title body) ->
  createBlog now newId caller body st = (Fail DuplicateSlug, st).
Proof.
  intros Hauth Hval Hk Hs. unfold createBlog. rewrite Hauth, Hval.
  destruct c as [uid u]. simpl.
  destruct (findOneBySlug_holder _ _ _ _ Hk Hs) as (k' & b' & ->). reflexivity.
Qed.

Lemma updateSlug_collision `{LowerCase} id body old st title k b :
  truthy (UpdateBody.title body) = Some title -> title <> Blog.title old ->
  blogs st !! k = Some b -> k <> id -> Blog.slug b = generateSlug title ->
  updateSlug id body old st = None.
Proof.
  intros Ht Hne Hk Hkid Hs. unfold updateSlug. rewrite Ht.
  rewrite bool_decide_eq_true_2 by assumption.
  destruct (findOneBySlugExcept_holder _ id _ _ _ Hk Hs Hkid) as [kb ->].
  reflexivity.
Qed.

Lemma updateSlug_changed `{LowerCase} id body old st title b1 :
  truthy (UpdateBody.title body) = Some title -> title <> Blog.title old ->
  updateSlug id body old st = Some b1 ->
  Blog.slug b1 = generateSlug title.
Proof.
  intros Ht Hne. unfold updateSlug. rewrite Ht.
  rewrite bool_decide_eq_true_2 by assumption.
  destruct (findOneBySlugExcept _ _ _); [discriminate|].
  intros [= <-]. simpl. apply toLowerCase_generateSlug.
Qed.

Lemma updateSlug_own `{LowerCase} id body old st :
  (forall title k b,
      truthy (UpdateBody.title body) = Some title ->
      blogs st !! k = Some b -> Blog.slug b = generateSlug title -> k = id) ->
  updateSlug id body old st <> None.
Proof.
  intros Hown. unfold updateSlug.
  destruct (truthy (UpdateBody.title body)) as [title|] eqn:Ht; [|discriminate].
  case_bool_decide; [|discriminate].
  destruct (findOneBySlugExcept _ _ _) as [[k b]|] eqn:E; [|discriminate].
  apply findOneBySlugExcept_Some in E as (Hk & Hs & Hne).
  exfalso. apply Hne. eapply Hown; eauto.
Qed.

Lemma requireRole_error min caller e :
  requireRole min caller = inl e -> e = Unauthorized \/ e = Forbidden.
Proof.
  unfold requireRole. destruct caller as [c|]; [|intros [= <-]; auto].
  destruct (_ <=? _); [discriminate | intros [= <-]; auto].
Qed.

Lemma updateBlog_DuplicateSlug_inv `{LowerCase} now caller id body st st' :
  updateBlog now caller id body st = (Fail DuplicateSlug, st') ->
  exists old, blogs st !! id = Some old /\ updateSlug id body old st = None.
Proof.
  unfold updateBlog, findById.
  destruct (editorAuth caller) as [e|[uid u]] eqn:Ea.
  { apply requireRole_error in Ea. intros [= -> _]. destruct Ea; discriminate. }
  destruct (blogs st !! id) as [old|]; [|discriminate].
  destruct (_ && _); [discriminate|].
  destruct (updateSlug id body old st) eqn:E; [|intros _; exists old; auto].
  destruct (updateStatus _ _ _); [|discriminate].
  destruct (negb _); discriminate.
Qed.

Lemma ownership_passes uid u blog :
  mayMutate uid u blog ->
  bool_decide (Blog.author blog <> uid) && bool_decide (User.role u <> Admin) = false.
Proof.
  intros [Ho|Ha]; apply andb_false_iff; [left|right];
    apply bool_decide_eq_false; auto.
Qed.

(** C3: a create whose title derives a slug that a stored record holds fails
    with DuplicateSlug and leaves the store as it was, in particular the
    second of two creates deriving the same slug; an update whose changed
    title derives a slug held by another record fails with DuplicateSlug and
    leaves the store as it was; the record being updated is not counted as a
    holder; and a slug that is stored is the derived slug itself, with no
    suffix. *)
Theorem duplicateSlug_rejected `{LowerCase} :
  (forall now newId caller c body st k b,
      editorAuth caller = inr c -> validCreate body = true ->
      blogs st !! k = Some b ->
      Blog.slug b = generateSlug (CreateBody.title body) ->
      createBlog now newId caller body st = (Fail DuplicateSlug, st))
  /\ (forall now1 id1 caller1 body1 st first st1 now2 id2 caller2 c2 body2,
        createBlog now1 id1 caller1 body1 st = (Ok first, st1) ->
        editorAuth caller2 = inr c2 -> validCreate body2 = true ->
        generateSlug (CreateBody.title body2) = generateSlug (CreateBody.title body1) ->
        createBlog now2 id2 caller2 body2 st1 = (Fail DuplicateSlug, st1))
  /\ (forall now caller uid u id body st old title k b,
        editorAuth caller = inr (uid, u) -> blogs st !! id = Some old ->
        mayMutate uid u old ->
        truthy (UpdateBody.title body) = Some title -> title <> Blog.title old ->
        blogs st !! k = Some b -> k <> id -> Blog.slug b = generateSlug title ->
        updateBlog now caller id body st = (Fail DuplicateSlug, st))
  /\ (forall now caller id body st st',
        (forall title k b,
            truthy (UpdateBody.title body) = Some title ->
            blogs st !! k = Some b -> Blog.slug b = generateSlug title -> k = id) ->
        updateBlog now caller id body st <> (Fail DuplicateSlug, st'))
  /\ (forall now newId caller body st id after st',
        createBlog now newId caller body st = (Ok (id, after), st') ->
        blogs st' !! id = Some after
        /\ Blog.slug after = generateSlug (CreateBody.title body))
  /\ (forall now caller id body st old title id' after st',
        blogs st !! id = Some old ->
        truthy (UpdateBody.title body) = Some title -> title <> Blog.title old ->
        updateBlog now caller id body st = (Ok (id', after), st') ->
        blogs st' !! id = Some after /\ Blog.slug after = generateSlug title).
Proof.
  repeat apply conj.
  - intros. eapply createBlog_collision; eauto.
  - intros now1 id1 caller1 body1 st first st1 now2 id2 caller2 c2 body2
      Hfirst Hauth Hval Hslug.
    destruct (createBlog_inv now1 id1 caller1 body1 st)
      as [[e He]|(uid & u & after & _ & _ & _ & Hsaved & Hok)]; [congruence|].
    rewrite Hok in Hfirst. injection Hfirst as _ <-.
    eapply (createBlog_collision _ _ _ _ _ _ id1 after); eauto.
    + simpl. apply lookup_insert_eq.
    + rewrite Hslug. eapply savedByCreate_slug; eauto.
  - intros now caller uid u id body st old title k b Hauth Hold Hown Ht Hne Hk Hkid Hs.
    unfold updateBlog, findById. rewrite Hauth, Hold, (ownership_passes _ _ _ Hown).
    now rewrite (updateSlug_collision _ _ _ _ _ _ _ Ht Hne Hk Hkid Hs).
  - intros now caller id body st st' Hown Hdup.
    apply updateBlog_DuplicateSlug_inv in Hdup as (old & _ & Hsl).
    now apply (updateSlug_own id body old st Hown).
  - intros now newId caller body st id after st' Hc.
    destruct (createBlog_inv now newId caller body st)
      as [[e He]|(uid & u & after' & _ & _ & _ & Hsaved & Hok)]; [congruence|].
    rewrite Hok in Hc. injection Hc as <- <- <-. split.
    + simpl. apply lookup_insert_eq.
    + eapply savedByCreate_slug; eauto.
  - intros now caller id body st old title id' after st' Hold Ht Hne Hu.
    destruct (updateBlog_inv now caller id body st)
      as [[e He]|(old' & after' & Hold' & (b1 & b2 & E1 & E2 & Hafter) & Hok)];
      [congruence|].
    rewrite Hok in Hu. injection Hu as <- <- <-.
    assert (old' = old) as -> by congruence. split.
    + simpl. apply lookup_insert_eq.
    + rewrite Hafter. rewrite preSave_frame by reflexivity.
      through_assignments Blog.slug.
      rewrite (updateStatus_frame Blog.slug _ _ _ _ ltac:(reflexivity)
                 ltac:(reflexivity) E2).
      through_assignments Blog.slug.
      eapply updateSlug_changed; eauto.
Qed.

(** ** Partial update *)

Lemma updateSlug_absent `{LowerCase} id body old st :
  truthy (UpdateBody.title body) = None -> updateSlug id body old st = Some old.
Proof. intros Ht. unfold updateSlug. now rewrite Ht. Qed.

Lemma updateStatus_absent `{LowerCase} now body blog :
  truthy (UpdateBody.status body) = None -> updateStatus now body blog = Some blog.
Proof. intros Hs. unfold updateStatus. now rewrite Hs. Qed.

(** Follows the projection [p] from the saved document back to the stored
    one, through the hook, the assignments, the status step and the slug
    step; [Ha] says that the request left out the field [p] reads. *)
Ltac kept p Ha E1 E2 :=
  rewrite (preSave_frame p) by reflexivity;
  unfold assignRest; cbv zeta; rewrite ?Ha; cbn [setIf];
  repeat (rewrite (setIf_frame p) by (intros; reflexivity));
  rewrite (updateStatus_frame p _ _ _ _ ltac:(reflexivity) ltac:(reflexivity) E2);
  unfold assignFields; cbv zeta; rewrite ?Ha; cbn [setIf];
  repeat (rewrite (setIf_frame p) by (intros; reflexivity));
  apply (updateSlug_frame p _ _ _ _ _ ltac:(reflexivity) E1).

Lemma partialUpdate_failed `{LowerCase} body old : partialUpdate body false old old.
Proof. unfold partialUpdate. repeat split; auto; discriminate. Qed.


Lemma seoObject_lookup key s : seoObject s !! key = seoAt key s.
Proof.
  unfold seoAt, seoObject.
  destruct s as [[mt|] [md|] kw [cu|]];
    cbn [metaTitle metaDescription keywords canonicalUrl fmap option_fmap option_map];
    repeat case_bool_decide; subst; try reflexivity;
    rewrite ?lookup_insert_ne, ?lookup_singleton_ne by congruence; reflexivity.
Qed.

Lemma seoTextKeys_spec key :
  key ∈ seoTextKeys
  <-> key = "metaTitle"%string \/ key = "metaDescription"%string
      \/ key = "canonicalUrl"%string.
Proof.
  unfold seoTextKeys. rewrite !elem_of_cons, elem_of_nil. tauto.
Qed.

(** What a block that an object cast to holds under each key. *)
Lemma castSeo_at obj s key :
  castSeo obj = Some s ->
  seoAt key s = match obj !! key with
                | Some v => seoStored key v
                | None => if bool_decide (key = "keywords"%string)
                          then Some (SeoList []) else None
                end.
Proof.
  unfold castSeo, castText.
  destruct (obj !! "metaTitle"%string) as [[t1|l1]|] eqn:E1; simpl; try discriminate;
    destruct (obj !! "metaDescription"%string) as [[t2|l2]|] eqn:E2; simpl;
      try discriminate;
    destruct (obj !! "canonicalUrl"%string) as [[t3|l3]|] eqn:E3; simpl;
      try discriminate;
    intros [= <-]; unfold seoAt, seoStored;
    cbn [metaTitle metaDescription keywords canonicalUrl];
    destruct (decide (key = "metaTitle"%string)) as [->|N1];
    try (rewrite E1; reflexivity);
    destruct (decide (key = "metaDescription"%string)) as [->|N2];
    try (rewrite E2; reflexivity);
    destruct (decide (key = "canonicalUrl"%string)) as [->|N3];
    try (rewrite E3; reflexivity);
    (destruct (decide (key = "keywords"%string)) as [->|N4];
     [destruct (obj !! "keywords"%string) as [[t|l]|]; reflexivity|]);
    rewrite !(bool_decide_eq_false_2 (key = _)) by assumption;
    rewrite (bool_decide_eq_false_2 (key ∈ seoTextKeys))
      by (rewrite seoTextKeys_spec; tauto);
    now destruct (obj !! key).
Qed.

Lemma castSeo_text_list obj key l :
  key ∈ seoTextKeys -> obj !! key = Some (SeoList l) -> castSeo obj = None.
Proof.
  intros Hkey Hl. apply seoTextKeys_spec in Hkey.
  unfold castSeo, castText.
  destruct Hkey as [-> | [-> | ->]]; rewrite Hl; simpl;
    repeat (match goal with
            | |- context [obj !! ?k] => destruct (obj !! k) as [[?|?]|]; simpl
            end); reflexivity.
Qed.

Lemma savedByUpdate_seo `{LowerCase} now id body old st b1 b2 supplied :
  updateSlug id body old st = Some b1 ->
  updateStatus now body (assignFields body b1) = Some b2 ->
  UpdateBody.seo body = Some supplied ->
  Blog.seo (preSave (bool_decide (Blog.content (assignRest body b2)
                                  <> Blog.content old))
                    now (assignRest body b2))
  = default (Blog.seo old) (castSeo (supplied ∪ seoObject (Blog.seo old))).
Proof.
  intros E1 E2 Ha.
  rewrite (preSave_frame Blog.seo) by reflexivity.
  through_assignments Blog.seo.
  rewrite (updateStatus_frame Blog.seo _ _ _ _ ltac:(reflexivity)
             ltac:(reflexivity) E2).
  unfold assignFields; cbv zeta. rewrite Ha.
  repeat (rewrite (setIf_frame Blog.seo) by (intros; reflexivity)).
  cbn [setIf]. cbn [Blog.seo Blog.set_seo].
  repeat (rewrite (setIf_frame Blog.seo) by (intros; reflexivity)).
  now rewrite (updateSlug_frame Blog.seo _ _ _ _ _ ltac:(reflexivity) E1).
Qed.

(** A successful update cast the [seo] object it carried. *)
Lemma updateBlog_ok_casts `{LowerCase} now caller id body st r st' old supplied :
  updateBlog now caller id body st = (Ok r, st') ->
  blogs st !! id = Some old -> UpdateBody.seo body = Some supplied ->
  castSeo (supplied ∪ seoObject (Blog.seo old)) <> None.
Proof.
  unfold updateBlog, findById. intros Hup Hold Hseo. rewrite Hold in Hup.
  destruct (editorAuth caller) as [e|[uid u]]; [discriminate|].
  destruct (_ && _); [discriminate|].
  destruct (updateSlug id body old st) as [b1|]; [|discriminate].
  destruct (updateStatus now body (assignFields body b1)) as [b2|]; [|discriminate].
  destruct (negb (updatable _ _ _ _ _)) eqn:Hu; [discriminate|].
  apply negb_false_iff in Hu. unfold updatable in Hu. rewrite Hseo in Hu.
  rewrite !andb_true_iff in Hu. destruct Hu as [[Hc _] _].
  now apply bool_decide_eq_true in Hc.
Qed.

Lemma partialUpdate_saved `{LowerCase} now id body old st after :
  savedByUpdate now id body old st after ->
  (forall supplied, UpdateBody.seo body = Some supplied ->
                    castSeo (supplied ∪ seoObject (Blog.seo old)) <> None) ->
  partialUpdate body true old after.
Proof.
  intros (b1 & b2 & E1 & E2 & ->) Hcast. unfold partialUpdate. repeat apply conj.
  - intros Ha. split.
    + kept Blog.title Ha E1 E2.
    + rewrite (updateSlug_absent _ _ _ _ Ha) in E1. injection E1 as <-.
      rewrite (preSave_frame Blog.slug) by reflexivity.
      through_assignments Blog.slug.
      rewrite (updateStatus_frame Blog.slug _ _ _ _ ltac:(reflexivity)
                 ltac:(reflexivity) E2).
      now through_assignments Blog.slug.
  - intros Ha.
    assert (Hc : Blog.content (assignRest body b2) = Blog.content old).
    { unfold assignRest; cbv zeta.
      repeat (rewrite (setIf_frame Blog.content) by (intros; reflexivity)).
      rewrite (updateStatus_frame Blog.content _ _ _ _ ltac:(reflexivity)
                 ltac:(reflexivity) E2).
      unfold assignFields; cbv zeta; rewrite ?Ha; cbn [setIf].
      repeat (rewrite (setIf_frame Blog.content) by (intros; reflexivity)).
      apply (updateSlug_frame Blog.content _ _ _ _ _ ltac:(reflexivity) E1). }
    split.
    + now rewrite (preSave_frame Blog.content) by reflexivity.
    + unfold preSave. rewrite bool_decide_eq_false_2 by (intros Hne; now apply Hne).
      change (Blog.readingTime (Blog.set_updatedAt now (assignRest body b2)))
        with (Blog.readingTime (assignRest body b2)).
      through_assignments Blog.readingTime.
      rewrite (updateStatus_frame Blog.readingTime _ _ _ _ ltac:(reflexivity)
                 ltac:(reflexivity) E2).
      through_assignments Blog.readingTime.
      apply (updateSlug_frame Blog.readingTime _ _ _ _ _ ltac:(reflexivity) E1).
  - intros Ha. kept Blog.excerpt Ha E1 E2.
  - intros Ha. kept Blog.category Ha E1 E2.
  - intros Ha. kept Blog.tags Ha E1 E2.
  - intros Ha. kept Blog.location Ha E1 E2.
  - intros Ha. kept Blog.seo Ha E1 E2.
  - intros Ha. kept Blog.featuredImage Ha E1 E2.
  - intros Ha. kept Blog.images Ha E1 E2.
  - intros Ha. rewrite (updateStatus_absent _ _ _ Ha) in E2. injection E2 as <-.
    split.
    + rewrite (preSave_frame Blog.status) by reflexivity.
      through_assignments Blog.status.
      apply (updateSlug_frame Blog.status _ _ _ _ _ ltac:(reflexivity) E1).
    + rewrite (preSave_frame Blog.publishedAt) by reflexivity.
      through_assignments Blog.publishedAt.
      apply (updateSlug_frame Blog.publishedAt _ _ _ _ _ ltac:(reflexivity) E1).
  - intros Ha. kept Blog.featured Ha E1 E2.
  - intros Ha. kept Blog.scheduledAt Ha E1 E2.
  - intros supplied key Ha Hkey.
    rewrite (savedByUpdate_seo _ _ _ _ _ _ _ _ E1 E2 Ha).
    destruct (castSeo (supplied ∪ seoObject (Blog.seo old))) as [s|] eqn:Hs;
      [|reflexivity].
    cbn [from_option Datatypes.id]. rewrite (castSeo_at _ _ key Hs), lookup_union, Hkey.
    rewrite seoObject_lookup, (left_id None (∪)). unfold seoAt, seoStored.
    destruct (decide (key = "metaTitle"%string)) as [->|N1];
      [now destruct (metaTitle (Blog.seo old))|].
    destruct (decide (key = "metaDescription"%string)) as [->|N2];
      [now destruct (metaDescription (Blog.seo old))|].
    destruct (decide (key = "canonicalUrl"%string)) as [->|N3];
      [now destruct (canonicalUrl (Blog.seo old))|].
    destruct (decide (key = "keywords"%string)) as [->|N4]; [reflexivity|].
    now rewrite !(bool_decide_eq_false_2 (key = _)) by assumption.
  - intros supplied key v _ Ha Hkey.
    rewrite (savedByUpdate_seo _ _ _ _ _ _ _ _ E1 E2 Ha).
    destruct (castSeo (supplied ∪ seoObject (Blog.seo old))) as [s|] eqn:Hs;
      [|now apply Hcast in Ha].
    cbn [from_option Datatypes.id]. rewrite (castSeo_at _ _ key Hs), lookup_union, Hkey.
    now destruct (seoObject (Blog.seo old) !! key).
  - intros supplied key l Ha Hkey Hl. exfalso. apply (Hcast _ Ha).
    apply (castSeo_text_list _ key l Hkey).
    rewrite lookup_union, Hl. now destruct (seoObject (Blog.seo old) !! key).
  - kept Blog.author I E1 E2.
  - kept Blog.createdAt I E1 E2.
  - kept Blog.stats I E1 E2.
Qed.

(** C6: an update request leaves every field that its body does not carry
    with the value it had (an empty string, and the number 0 for
    [scheduledAt], count as not carried), together with what is derived from
    such a field; and an [seo] object that the body carries is merged key by
    key into the stored block: a key the object does not hold keeps the
    stored value; when the update succeeds, a key the object holds and the
    schema declares takes the supplied value, cast as the schema has it (a
    string sent for [keywords] is stored as the array of that string), and a
    key the schema does not declare is not stored; the update fails when the
    object holds an array under one of the three text keys. *)
Theorem update_leaves_absent_fields `{LowerCase} now caller id body st old :
  blogs st !! id = Some old ->
  exists after,
    blogs (updateBlog now caller id body st).2 !! id = Some after
    /\ partialUpdate body (isOk (updateBlog now caller id body st).1) old after.
Proof.
  intros Hold.
  destruct (updateBlog_inv now caller id body st)
    as [[e ->]|(old' & after & Hold' & Hsaved & Hok)].
  - exists old. split; [exact Hold | apply partialUpdate_failed].
  - assert (old' = old) as -> by congruence.
    exists after. rewrite Hok. split; [simpl; apply lookup_insert_eq|].
    eapply partialUpdate_saved; [exact Hsaved|].
    intros supplied Hs. eapply updateBlog_ok_casts; eauto.
Qed.

Lemma update_leaves_absent_fields_witness :
  exists after,
    blogs (@updateBlog asciiRuntime 5000 (Some ann) 10 seoPatch sampleStore).2 !! 10
    = Some after
    /\ @partialUpdate asciiRuntime seoPatch
         (isOk (@updateBlog asciiRuntime 5000 (Some ann) 10 seoPatch sampleStore).1)
         helloPost after.
Proof.
  apply (@update_leaves_absent_fields asciiRuntime 5000 (Some ann) 10 seoPatch
           sampleStore helloPost).
  reflexivity.
Defined.

(** On the sample: the supplied [metaTitle] replaces the stored one, the
    string sent for [keywords] is stored as an array, the undeclared key
    [foo] is dropped and the stored [canonicalUrl] stays. *)
Example update_merges_seo :
  Blog.seo
    <$> blogs (@updateBlog asciiRuntime 5000 (Some ann) 10 seoPatch sampleStore).2
        !! 10
  = Some {| metaTitle := Some (str "Hi"); metaDescription := None;
            keywords := [str "a"]; canonicalUrl := Some (str "/hello") |}.
Proof. vm_compute. reflexivity. Qed.

(** An array sent for [metaTitle] does not cast: the update fails and the
    record stays as it was. *)
Example update_rejects_seo_array :
  let body := UpdateBody.mk None None None None None None
                (Some {[ "metaTitle"%string := SeoList [str "a"; str "b"] ]})
                None None None None None in
  @updateBlog asciiRuntime 5000 (Some ann) 10 body sampleStore
  = (Fail StoreFailure, sampleStore).
Proof. vm_compute. reflexivity. Qed.

(** ** Ownership *)

(** C8: an update or a delete of an existing record by an authenticated
    caller who is neither its author nor an administrator fails with
    Forbidden and leaves the store as it was. *)
Theorem nonOwner_forbidden `{LowerCase} now uid u id body st blog :
  blogs st !! id = Some blog ->
  Blog.author blog <> uid -> User.role u <> Admin ->
  updateBlog now (Some (uid, u)) id body st = (Fail Forbidden, st)
  /\ deleteBlog (Some (uid, u)) id st = (Fail Forbidden, st).
Proof.
  intros Hb Hown Hadm.
  unfold updateBlog, deleteBlog, editorAuth, requireRole, findById.
  cbn [snd]. destruct (_ <=? _); [|split; reflexivity].
  rewrite Hb. rewrite !bool_decide_eq_true_2 by assumption. split; reflexivity.
Qed.

Lemma nonOwner_forbidden_witness :
  @updateBlog asciiRuntime 5000 (Some bob) 10 seoPatch sampleStore
  = (Fail Forbidden, sampleStore)
  /\ deleteBlog (Some bob) 10 sampleStore = (Fail Forbidden, sampleStore).
Proof.
  apply (@nonOwner_forbidden asciiRuntime 5000 2 bob.2 10 seoPatch sampleStore
           helloPost).
  - reflexivity.
  - vm_compute. discriminate.
  - vm_compute. discriminate.
Defined.

(** On the sample: [cat], whose role is author, is stopped by the gate
    before the route looks at the post. *)
Example author_stopped_by_gate :
  editorAuth (Some cat) = inl Forbidden
  /\ @updateBlog asciiRuntime 5000 (Some cat) 10 seoPatch sampleStore
     = (Fail Forbidden, sampleStore)
  /\ deleteBlog (Some cat) 10 sampleStore = (Fail Forbidden, sampleStore).
Proof. repeat split. Qed.

(** ** Read by identifier *)

Lemma nonEmpty_spec (s : jsstring) : nonEmpty s = true <-> s <> [].
Proof. destruct s; simpl; split; congruence. Qed.

Lemma validDoc_schemaValid b : validDoc b = true <-> schemaValid b.
Proof.
  unfold validDoc, schemaValid, validTitle, validSlug, validContent, validExcerpt,
    isCategory, categories.
  rewrite !andb_true_iff, !nonEmpty_spec, !Z.leb_le, bool_decide_eq_true,
    list_elem_of_In.
  split; intros H; repeat split; try apply H; lia.
Qed.

Lemma validDoc_set_views v b : validDoc (Blog.set_views v b) = validDoc b.
Proof. reflexivity. Qed.

Lemma addOne_exact v : belowLimit v -> addOne v = v + 1.
Proof.
  unfold belowLimit, addOne, roundToDouble.
  change (2 ^ 53) with 9007199254740992. intros Hv.
  destruct (Z.ltb_spec (Z.abs (v + 1)) 9007199254740992) as [Hlt|Hge];
    [reflexivity|].
  assert (v + 1 = 9007199254740992) as -> by lia. reflexivity.
Qed.

(** The three ways a read ends: with an error and the store as it was, or
    with the document it found, counted and saved. *)
Lemma getBlog_inv `{LowerCase} now identifier st :
  (exists e, getBlog now identifier st = (Fail e, st))
  \/ exists id old after,
       blogs st !! id = Some old
       /\ validDoc old = true
       /\ after = preSave false now
                    (Blog.set_views (addOne (views (Blog.stats old))) old)
       /\ getBlog now identifier st
          = (Ok (id, after), setBlogs (<[id := after]> (blogs st)) st).
Proof.
  unfold getBlog.
  destruct (findByIdentifier identifier st) as [[id old]|] eqn:E; [|left; eauto].
  rewrite validDoc_set_views.
  destruct (validDoc old) eqn:Hv; cbn [negb]; [|left; eauto].
  right. apply findByIdentifier_Some in E. eauto 8.
Qed.

Lemma read_viewedOnce now old :
  belowLimit (views (Blog.stats old)) ->
  viewedOnce now old
    (preSave false now (Blog.set_views (addOne (views (Blog.stats old))) old)).
Proof.
  intros Hv. unfold viewedOnce. rewrite (addOne_exact _ Hv). repeat split.
Qed.

Lemma getBlog_hit `{LowerCase} now identifier st id old :
  findByIdentifier identifier st = Some (id, old) ->
  validDoc old = true -> belowLimit (views (Blog.stats old)) ->
  readHit now identifier st id old.
Proof.
  intros Hf Hvalid Hv. unfold readHit, getBlog.
  rewrite Hf, validDoc_set_views, Hvalid. cbn [negb].
  eexists. split; [reflexivity|]. now apply read_viewedOnce.
Qed.

Lemma getBlog_invalid `{LowerCase} now identifier st id old :
  findByIdentifier identifier st = Some (id, old) -> validDoc old = false ->
  getBlog now identifier st = (Fail StoreFailure, st).
Proof.
  intros Hf Hvalid. unfold getBlog. now rewrite Hf, validDoc_set_views, Hvalid.
Qed.

(** C10 (as amended): a read by a store-native identifier of an existing
    record, or by an identifier that does not have the shape of a
    store-native one and whose lower-case form is the slug of a record, adds
    exactly 1 to the view counter of the record read, sets its update
    timestamp to the time of the read and changes no other field and no
    other record, provided the record passes the validators of the schema
    and its counter is an integer from -2^53 to 2^53 - 1; a read of a record
    that does not pass the validators fails with a server error, and a read
    that matches no record fails with NotFound: both leave the store as it
    was. *)
Theorem getBlog_counts_one_view `{LowerCase} now identifier st :
  (forall id old,
      castObjectId identifier = Some id -> blogs st !! id = Some old ->
      schemaValid old -> belowLimit (views (Blog.stats old)) ->
      readHit now identifier st id old)
  /\ (forall k b,
        castObjectId identifier = None ->
        blogs st !! k = Some b -> Blog.slug b = toLowerCase identifier ->
        (forall k' b', blogs st !! k' = Some b' ->
                       Blog.slug b' = toLowerCase identifier ->
                       schemaValid b' /\ belowLimit (views (Blog.stats b'))) ->
        exists id old,
          blogs st !! id = Some old /\ Blog.slug old = toLowerCase identifier
          /\ readHit now identifier st id old)
  /\ (forall id old,
        castObjectId identifier = Some id -> blogs st !! id = Some old ->
        ~ schemaValid old ->
        getBlog now identifier st = (Fail StoreFailure, st))
  /\ (forall k b,
        castObjectId identifier = None ->
        blogs st !! k = Some b -> Blog.slug b = toLowerCase identifier ->
        (forall k' b', blogs st !! k' = Some b' ->
                       Blog.slug b' = toLowerCase identifier -> ~ schemaValid b') ->
        getBlog now identifier st = (Fail StoreFailure, st))
  /\ (forall id, castObjectId identifier = Some id -> blogs st !! id = None ->
                 getBlog now identifier st = (Fail NotFound, st))
  /\ (castObjectId identifier = None ->
      (forall k b, blogs st !! k = Some b -> Blog.slug b <> toLowerCase identifier) ->
      getBlog now identifier st = (Fail NotFound, st)).
Proof.
  repeat apply conj.
  - intros id old Hc Hb Hvalid Hv.
    apply getBlog_hit; [|now apply validDoc_schemaValid|exact Hv].
    unfold findByIdentifier, findById. now rewrite Hc, Hb.
  - intros k b Hc Hb Hs Hall.
    destruct (findOneBySlug_holder _ _ _ _ Hb Hs) as (id & old & Hf).
    exists id, old. destruct (findOneBySlug_Some _ _ _ _ Hf) as [Hid Hsl].
    split; [exact Hid|]. split; [exact Hsl|].
    destruct (Hall _ _ Hid Hsl) as [Hvalid Hv].
    apply getBlog_hit; [|now apply validDoc_schemaValid|exact Hv].
    unfold findByIdentifier. now rewrite Hc.
  - intros id old Hc Hb Hbad. apply (getBlog_invalid _ _ _ id old).
    + unfold findByIdentifier, findById. now rewrite Hc, Hb.
    + destruct (validDoc old) eqn:E; [|reflexivity].
      now apply validDoc_schemaValid in E.
  - intros k b Hc Hb Hs Hall.
    destruct (findOneBySlug_holder _ _ _ _ Hb Hs) as (id & old & Hf).
    destruct (findOneBySlug_Some _ _ _ _ Hf) as [Hid Hsl].
    apply (getBlog_invalid _ _ _ id old).
    + unfold findByIdentifier. now rewrite Hc.
    + destruct (validDoc old) eqn:E; [|reflexivity].
      apply validDoc_schemaValid in E. now apply (Hall _ _ Hid Hsl) in E.
  - intros id Hc Hb. unfold getBlog, findByIdentifier, findById. now rewrite Hc, Hb.
  - intros Hc Hnone. unfold getBlog, findByIdentifier. rewrite Hc.
    destruct (findOneBySlug (toLowerCase identifier) st) as [[k b]|] eqn:E;
      [|reflexivity].
    apply findOneBySlug_Some in E as [Hk Hs]. now apply Hnone in Hk.
Qed.

(** C10, counterexample: a record whose slug is a string of 24 hexadecimal
    digits (the slug of the title "123456789012345678901234") is not found
    by that slug: the route takes the identifier for a store-native one. *)
Lemma getBlog_hex_slug_counterexample :
  let slug := str "123456789012345678901234" in
  let post := Blog.set_slug slug helloPost in
  let st := setBlogs {[ 10 := post ]} sampleStore in
  @generateSlug asciiRuntime (str "123456789012345678901234") = slug
  /\ blogs st !! 10 = Some post
  /\ Blog.slug post = slug
  /\ @getBlog asciiRuntime 5000 slug st = (Fail NotFound, st).
Proof. repeat split; vm_compute; reflexivity. Qed.

(** On the sample: the identifier ["Hello-World"] finds the post whose slug
    is ["hello-world"] and counts the view. *)
Example getBlog_upper_case_identifier :
  (fun b => views (Blog.stats b))
    <$> blogs (@getBlog asciiRuntime 5000 (str "Hello-World") sampleStore).2 !! 10
  = Some 8%Z
  /\ isOk (@getBlog asciiRuntime 5000 (str "Hello-World") sampleStore).1 = true.
Proof. split; vm_compute; reflexivity. Qed.

(** A stored post whose category is outside the enum is found and not
    counted: the save fails. *)
Example getBlog_invalid_stored :
  let st := setBlogs {[ 10 := Blog.set_category (str "Nope") helloPost ]}
                     sampleStore in
  @getBlog asciiRuntime 5000 (str "hello-world") st = (Fail StoreFailure, st).
Proof. vm_compute. reflexivity. Qed.

(** A counter at 2^53 stays there: the read succeeds and adds nothing. *)
Example getBlog_counter_at_limit :
  let st := setBlogs {[ 10 := Blog.set_views (2 ^ 53) helloPost ]} sampleStore in
  (fun b => views (Blog.stats b))
    <$> blogs (@getBlog asciiRuntime 5000 (str "hello-world") st).2 !! 10
  = Some (2 ^ 53)
  /\ isOk (@getBlog asciiRuntime 5000 (str "hello-world") st).1 = true.
Proof. split; vm_compute; reflexivity. Qed.

(** ** Bulk actions *)

Lemma bulkSwitch_unknown now action ids st :
  action ∉ bulkActions -> bulkSwitch now action ids st = None.
Proof.
  intros Hnot. unfold bulkSwitch.
  repeat match goal with
         | |- context [bool_decide (action = ?s)] =>
             rewrite (bool_decide_eq_false_2 (action = s))
         end; [reflexivity|..];
    intros ->; apply Hnot; unfold bulkActions; rewrite list_elem_of_In;
    simpl; tauto.
Qed.

Lemma bulkSwitch_known now action ids st :
  action ∈ bulkActions -> exists res, bulkSwitch now action ids st = Some res.
Proof.
  unfold bulkActions. rewrite list_elem_of_In. simpl.
  intros [<-|[<-|[<-|[<-|[<-|[]]]]]]; eexists; reflexivity.
Qed.

(** An unrecognised tag fails with InvalidAction, a request without a tag or
    without an array of identifiers with the invalid-data error; neither
    writes. *)
Lemma bulkBlogs_rejects now caller c body st :
  adminAuth caller = inr c ->
  match BulkBody.action body, BulkBody.blogIds body with
  | Some (a :: r), Some ids =>
      (a :: r) ∉ bulkActions ->
      bulkBlogs now caller body st = (Fail InvalidAction, st)
  | _, _ => bulkBlogs now caller body st = (Fail InvalidBulkData, st)
  end.
Proof.
  intros Hadm. unfold bulkBlogs. rewrite Hadm.
  destruct (BulkBody.action body) as [[|a r]|]; try reflexivity.
  destruct (BulkBody.blogIds body) as [ids|]; [|reflexivity].
  intros Hnot. now rewrite bulkSwitch_unknown.
Qed.

Lemma bulkBlogs_failure_keeps_store now caller body st e st' :
  bulkBlogs now caller body st = (Fail e, st') -> st' = st.
Proof.
  unfold bulkBlogs.
  destruct (adminAuth caller); [now intros [= _ <-]|].
  destruct (BulkBody.action body) as [[|a r]|]; try now intros [= _ <-].
  destruct (BulkBody.blogIds body) as [ids|]; [|now intros [= _ <-]].
  destruct (bulkSwitch _ _ _ _) as [[res st'']|]; [discriminate | now intros [= _ <-]].
Qed.

Lemma countWhere_ext p q m :
  (forall k b, m !! k = Some b -> p k b = q k b) -> countWhere p m = countWhere q m.
Proof.
  intros Hpq. unfold countWhere. f_equal. f_equal.
  apply filter_ext_in. intros [k b] Hin.
  apply Hpq. now apply elem_of_map_to_list, list_elem_of_In.
Qed.

Lemma deleteMany_count ids st :
  deletedCount (deleteMany ids st).1 = Some (affected st (deleteMany ids st).2).
Proof.
  unfold affected. simpl. f_equal. apply countWhere_ext. intros k b Hk.
  unfold matchesIn. apply bool_decide_ext.
  pose proof (deleteMany_lookup ids st k b) as Hl. simpl in Hl.
  rewrite Hl. split.
  - intros Hin [_ Hnot]. contradiction.
  - intros Hn. destruct (decide (k ∈ ids)); [assumption|]. exfalso. auto.
Qed.

Lemma updateMany_count ids upd st :
  modifiedCount (updateMany ids upd st).1 = Some (affected st (updateMany ids upd st).2).
Proof.
  unfold affected.
  change (modifiedCount (updateMany ids upd st).1)
    with (Some (countWhere (fun k b => matchesIn ids k && bool_decide (upd b <> b))
                           (blogs st))).
  f_equal. apply countWhere_ext. intros k b Hk.
  rewrite updateMany_lookup, Hk. simpl.
  destruct (matchesIn ids k); simpl.
  - apply bool_decide_ext. split; congruence.
  - symmetry. apply bool_decide_eq_false. intros Hne. now apply Hne.
Qed.

(** What the bulk route replies for a recognised action: the count of the
    records deleted, and the count of the records modified unless that count
    is zero. *)
Lemma bulkBlogs_count now caller body st r st' :
  bulkBlogs now caller body st = (Ok r, st') ->
  (affected st st' <> 0 -> r = Some (affected st st'))
  /\ (BulkBody.action body = Some (str "delete") -> r = Some (affected st st'))
  /\ (BulkBody.action body <> Some (str "delete") -> affected st st' = 0 -> r = None).
Proof.
  unfold bulkBlogs.
  destruct (adminAuth caller); [discriminate|].
  destruct (BulkBody.action body) as [[|a act]|]; try discriminate.
  destruct (BulkBody.blogIds body) as [ids|]; [|discriminate].
  destruct (bulkSwitch now (a :: act) ids st) as [[res st'']|] eqn:E; [|discriminate].
  intros Heq. injection Heq as <- <-.
  apply bulkSwitch_inv in E as [[Hact E]|(Hact & upd & _ & E)];
    pose proof (f_equal fst E) as E1; pose proof (f_equal snd E) as E2;
    cbn [fst snd] in E1, E2; subst res st''.
  - rewrite deleteMany_count.
    change (modifiedCount (deleteMany ids st).1) with (@None Z).
    cbn [jsOr]. repeat split; auto. intros Hne. congruence.
  - rewrite updateMany_count.
    change (deletedCount (updateMany ids upd st).1) with (@None Z).
    cbn [jsOr]. repeat split.
    + intros Hne. apply Z.eqb_neq in Hne. now rewrite Hne.
    + intros Heq. exfalso. apply Hact. congruence.
    + intros _ ->. reflexivity.
Qed.

(** C7, the failing input: an administrator's bulk [draft] over an empty set
    of identifiers, or a bulk [unfeature] of a post that is not featured.
    The batch affects no record and the reply carries no count at all
    ([0 || undefined]), where a bulk delete of nothing reports 0 and a bulk
    publish of one post reports 1. *)
Theorem bulk_zero_count_is_undefined :
  let bulk action ids :=
    (bulkBlogs 5000 (Some root) (BulkBody.mk (Some (str action)) (Some ids))
               sampleStore).1 in
  bulk "draft"%string [] = Ok None
  /\ bulk "unfeature"%string [10] = Ok None
  /\ bulk "delete"%string [] = Ok (Some 0)
  /\ bulk "publish"%string [10] = Ok (Some 1)
  /\ bulk "archive"%string [10] = Fail InvalidAction.
Proof. repeat split; vm_compute; reflexivity. Qed.

(** ** The creation trend *)

Lemma total_addToBucket d k acc :
  total d (addToBucket k acc)
  = total d acc + (if bool_decide (k = d) then 1 else 0).
Proof.
  induction acc as [|[k' n] acc IH]; simpl.
  - destruct (bool_decide (k = d)); lia.
  - destruct (decide (k = k')) as [->|Hne].
    + rewrite bool_decide_eq_true_2 by reflexivity. simpl.
      destruct (bool_decide (k' = d)); lia.
    + rewrite bool_decide_eq_false_2 by assumption. simpl. rewrite IH.
      destruct (bool_decide (k' = d)); lia.
Qed.

Lemma keys_addToBucket k' k acc :
  In k' (map fst (addToBucket k acc)) <-> k' = k \/ In k' (map fst acc).
Proof.
  induction acc as [|[k0 n] acc IH]; simpl.
  - intuition.
  - case_bool_decide as Hk; simpl.
    + subst. intuition.
    + rewrite IH. intuition.
Qed.

Lemma NoDup_addToBucket k acc :
  List.NoDup (map fst acc) -> List.NoDup (map fst (addToBucket k acc)).
Proof.
  induction acc as [|[k0 n] acc IH]; simpl; intros Hnd.
  - constructor; [intros [] | constructor].
  - inversion Hnd as [|? ? Hnot Hnd']; subst.
    case_bool_decide as Hk; simpl.
    + now constructor.
    + constructor; [|now apply IH].
      rewrite keys_addToBucket. intros [->|Hin]; [now apply Hk | contradiction].
Qed.

Lemma positive_addToBucket k acc :
  Forall (fun kn : Bucket => 0 < kn.2) acc ->
  Forall (fun kn : Bucket => 0 < kn.2) (addToBucket k acc).
Proof.
  induction 1 as [|[k0 n] acc Hn Hacc IH]; simpl.
  - repeat constructor.
  - case_bool_decide; constructor; simpl in *; auto; lia.
Qed.

Lemma groupStage_from docs acc :
  grouped acc ->
  grouped (fold_left (fun acc b => addToBucket (dayOf (Blog.createdAt b)) acc) docs acc)
  /\ forall d,
      total d (fold_left (fun acc b => addToBucket (dayOf (Blog.createdAt b)) acc)
                         docs acc)
      = total d acc + dayCount d docs.
Proof.
  revert acc. induction docs as [|b docs IH]; intros acc Hacc; simpl.
  - split; [assumption | intros d; unfold dayCount; simpl; lia].
  - destruct Hacc as [Hnd Hpos].
    destruct (IH (addToBucket (dayOf (Blog.createdAt b)) acc)) as [Hg Ht].
    { split; [now apply NoDup_addToBucket | now apply positive_addToBucket]. }
    split; [exact Hg|]. intros d. rewrite Ht, total_addToBucket.
    unfold dayCount. simpl.
    destruct (bool_decide (dayOf (Blog.createdAt b) = d)); simpl; lia.
Qed.

Lemma total_absent d acc :
  ~ In d (map fst acc) -> total d acc = 0.
Proof.
  induction acc as [|[k n] acc IH]; simpl; [reflexivity|].
  intros Hnot. rewrite bool_decide_eq_false_2 by tauto. apply IH. tauto.
Qed.

Lemma total_member d n acc :
  List.NoDup (map fst acc) -> In (d, n) acc -> total d acc = n.
Proof.
  induction acc as [|[k m] acc IH]; simpl; [contradiction|].
  intros Hnd Hin. inversion Hnd as [|? ? Hnot Hnd']; subst.
  destruct Hin as [[= -> ->]|Hin].
  - rewrite bool_decide_eq_true_2 by reflexivity.
    rewrite total_absent by assumption. lia.
  - rewrite bool_decide_eq_false_2.
    + now apply IH.
    + intros ->. apply Hnot. apply in_map_iff. now exists (d, n).
Qed.

Lemma total_found d acc :
  total d acc <> 0 -> exists n, In (d, n) acc.
Proof.
  induction acc as [|[k m] acc IH]; simpl; [congruence|].
  case_bool_decide as Hk.
  - subst. eauto.
  - intros Hne. destruct (IH Hne) as [n Hn]. eauto.
Qed.

Lemma grouped_member acc d n :
  grouped acc -> (In (d, n) acc <-> n = total d acc /\ 0 < n).
Proof.
  intros [Hnd Hpos]. split.
  - intros Hin. split; [symmetry; now apply total_member|].
    rewrite Forall_forall in Hpos. apply (Hpos (d, n)). now apply list_elem_of_In.
  - intros [-> Hlt]. destruct (total_found d acc) as [m Hm]; [lia|].
    now rewrite (total_member _ _ _ Hnd Hm).
Qed.

(** The lexicographic order of the [$sort] stage. *)
Lemma dayLtb_irrefl a : dayLtb a a = false.
Proof. destruct a as [[y m] d]. unfold dayLtb. lia. Qed.

Lemma dayLtb_trans a b c : dayLtb a b = true -> dayLtb b c = true -> dayLtb a c = true.
Proof.
  destruct a as [[y1 m1] d1], b as [[y2 m2] d2], c as [[y3 m3] d3].
  unfold dayLtb. lia.
Qed.

Lemma dayLtb_connex a b : dayLtb a b = false -> a <> b -> dayLtb b a = true.
Proof.
  destruct a as [[y1 m1] d1], b as [[y2 m2] d2]. unfold dayLtb.
  intros Hlt Hne.
  assert (~ (y1 = y2 /\ m1 = m2 /\ d1 = d2)) by (intros (-> & -> & ->); now apply Hne).
  lia.
Qed.

Lemma In_insertBucket x y l : In x (insertBucket y l) <-> x = y \/ In x l.
Proof.
  induction l as [|z l IH]; simpl; [intuition|].
  destruct (dayLtb z.1 y.1); simpl; rewrite ?IH; intuition.
Qed.

Lemma In_sortStage x l : In x (sortStage l) <-> In x l.
Proof.
  induction l as [|y l IH]; simpl; [reflexivity|].
  rewrite In_insertBucket, IH. intuition.
Qed.

Lemma insertBucket_sorted x l :
  ~ In x.1 (map fst l) ->
  StronglySorted dayBefore l -> StronglySorted dayBefore (insertBucket x l).
Proof.
  intros Hnot Hs. induction Hs as [|y l Hs IH Hall]; simpl.
  - repeat constructor.
  - simpl in Hnot. destruct (dayLtb y.1 x.1) eqn:Hlt.
    + constructor; [apply IH; tauto|].
      apply Forall_forall. intros z Hz.
      apply list_elem_of_In, In_insertBucket in Hz as [->|Hz]; [exact Hlt|].
      rewrite Forall_forall in Hall. now apply Hall, list_elem_of_In.
    + assert (Hxy : dayBefore x y).
      { apply dayLtb_connex; [assumption | intros Heq; apply Hnot; now left]. }
      constructor; [now constructor|].
      constructor; [exact Hxy|].
      eapply Forall_impl; [exact Hall|].
      intros z Hz. eapply dayLtb_trans; eauto.
Qed.

Lemma sortStage_sorted l :
  List.NoDup (map fst l) -> StronglySorted dayBefore (sortStage l).
Proof.
  induction l as [|x l IH]; simpl; intros Hnd; [constructor|].
  inversion Hnd as [|? ? Hnot Hnd']; subst.
  apply insertBucket_sorted; [|now apply IH].
  intros Hin. apply Hnot. apply in_map_iff in Hin as (z & Hz1 & Hz2).
  apply in_map_iff. exists z. split; [assumption|]. now apply In_sortStage.
Qed.

Lemma dayCount_matchStage now d docs :
  dayCount d (matchStage (thirtyDaysAgo now) docs) = createdOn now d docs.
Proof.
  unfold dayCount, createdOn, matchStage, inTrailing30. f_equal.
  induction docs as [|b docs IH]; simpl; [reflexivity|].
  destruct (thirtyDaysAgo now <=? Blog.createdAt b); simpl; [|exact IH].
  destruct (bool_decide _); simpl; now rewrite IH.
Qed.

(** The trend in the terms of the pipeline: its cutoff, its day key and its
    sort order. *)
Lemma monthlyTrend_grouped now st :
  (forall d n,
      In (d, n) (monthlyTrend now st)
      <-> n = createdOn now d (allBlogs st) /\ 0 < n)
  /\ StronglySorted dayBefore (monthlyTrend now st)
  /\ (forall d,
        (forall b, In b (allBlogs st) -> dayOf (Blog.createdAt b) = d ->
                   Blog.createdAt b < thirtyDaysAgo now) ->
        forall n, ~ In (d, n) (monthlyTrend now st)).
Proof.
  unfold monthlyTrend, groupStage. fold (allBlogs st).
  destruct (groupStage_from (matchStage (thirtyDaysAgo now) (allBlogs st)) [])
    as [Hg Ht]; [split; constructor|].
  assert (Hmem : forall d n,
             In (d, n) (sortStage
                          (fold_left (fun acc b => addToBucket (dayOf (Blog.createdAt b)) acc)
                                     (matchStage (thirtyDaysAgo now) (allBlogs st)) []))
             <-> n = createdOn now d (allBlogs st) /\ 0 < n).
  { intros d n. rewrite In_sortStage, (grouped_member _ d n Hg), Ht.
    simpl. now rewrite dayCount_matchStage. }
  split; [exact Hmem|]. split.
  - apply sortStage_sorted. apply Hg.
  - intros d Hold n Hin. apply Hmem in Hin as [-> Hpos].
    unfold createdOn in Hpos.
    destruct (List.filter _ (allBlogs st)) as [|b l] eqn:Ef; [simpl in Hpos; lia|].
    assert (Hb : In b (List.filter
                         (fun b => inTrailing30 now (Blog.createdAt b)
                                   && bool_decide (dayOf (Blog.createdAt b) = d))
                         (allBlogs st))) by (rewrite Ef; now left).
    apply filter_In in Hb as [Hb Hp]. apply andb_true_iff in Hp as [Hw Hd].
    apply bool_decide_eq_true in Hd. specialize (Hold b Hb Hd).
    unfold inTrailing30 in Hw. lia.
Qed.


(** *** The pipeline against the calendar *)

Lemma isLeapYear_spec y :
  isLeapYear y = true <-> (y mod 4 = 0 /\ y mod 100 <> 0) \/ y mod 400 = 0.
Proof.
  unfold isLeapYear.
  rewrite orb_true_iff, andb_true_iff, negb_true_iff, !Z.eqb_eq, Z.eqb_neq. tauto.
Qed.

Lemma daysBeforeYear_epoch : daysBeforeYear 1970 = 0.
Proof. reflexivity. Qed.

Lemma daysBeforeYear_step y :
  daysBeforeYear (y + 1) = daysBeforeYear y + (if isLeapYear y then 366 else 365).
Proof.
  unfold daysBeforeYear, leapYearsBefore.
  destruct (isLeapYear y) eqn:E.
  - apply isLeapYear_spec in E. Z.div_mod_to_equations. lia.
  - assert (N : ~ ((y mod 4 = 0 /\ y mod 100 <> 0) \/ y mod 400 = 0)).
    { rewrite <- isLeapYear_spec. congruence. }
    Z.div_mod_to_equations. lia.
Qed.

Lemma month_cases m : 1 <= m <= 12 ->
  m = 1 \/ m = 2 \/ m = 3 \/ m = 4 \/ m = 5 \/ m = 6 \/ m = 7 \/ m = 8 \/ m = 9
  \/ m = 10 \/ m = 11 \/ m = 12.
Proof. lia. Qed.

Ltac each_month m H :=
  destruct (month_cases m H) as [->|[->|[->|[->|[->|[->|[->|[->|[->|[->|[->| ->]]]]]]]]]]].

Lemma daysBeforeMonth_table y m :
  1 <= m <= 12 ->
  daysBeforeMonth y m
  = daysBeforeMonthCommon m + (if (2 <? m) && isLeapYear y then 1 else 0).
Proof.
  intros H. unfold daysBeforeMonth, daysInMonth.
  each_month m H; cbn; destruct (isLeapYear y); reflexivity.
Qed.

Ltac closed_tests :=
  repeat match goal with
         | |- context [?a <? ?b] =>
             let c := eval compute in (a <? b) in
             match c with true => idtac | false => idtac end;
             change (a <? b) with c; cbv iota
         | |- context [?a <=? ?b] =>
             let c := eval compute in (a <=? b) in
             match c with true => idtac | false => idtac end;
             change (a <=? b) with c; cbv iota
         | |- context [?a =? ?b] =>
             let c := eval compute in (a =? b) in
             match c with true => idtac | false => idtac end;
             change (a =? b) with c; cbv iota
         end.

Ltac closed_sums :=
  repeat match goal with
         | |- context [Z.add ?a ?b] =>
             lazymatch a with Z0 => idtac | Zpos _ => idtac end;
             lazymatch b with Z0 => idtac | Zpos _ => idtac end;
             let c := eval compute in (Z.add a b) in change (Z.add a b) with c
         | |- context [Z.sub ?a ?b] =>
             lazymatch a with Z0 => idtac | Zpos _ => idtac end;
             lazymatch b with Z0 => idtac | Zpos _ => idtac end;
             let c := eval compute in (Z.sub a b) in change (Z.sub a b) with c
         end.

Ltac calendar_case :=
  closed_tests; closed_sums; closed_tests;
  rewrite daysBeforeMonth_table by lia;
  unfold daysInMonth;
  closed_tests;
  cbn [orb andb];
  cbv beta iota delta [daysBeforeMonthCommon];
  unfold daysBeforeYear, leapYearsBefore;
  try (destruct (isLeapYear _) eqn:El;
       [apply isLeapYear_spec in El
       |apply not_true_iff_false in El; rewrite isLeapYear_spec in El]);
  Z.div_mod_to_equations; lia.

Lemma mp_cases mp : 0 <= mp <= 11 ->
  mp = 0 \/ mp = 1 \/ mp = 2 \/ mp = 3 \/ mp = 4 \/ mp = 5 \/ mp = 6 \/ mp = 7
  \/ mp = 8 \/ mp = 9 \/ mp = 10 \/ mp = 11.
Proof. lia. Qed.

Lemma civilFromDays_dayNumber z :
  isDate (civilFromDays z) /\ dayNumber (civilFromDays z) = z.
Proof.
  unfold civilFromDays. cbv zeta.
  remember (z + 719468) as z' eqn:Ez.
  remember (z' / 146097) as era eqn:Eera.
  remember (z' - era * 146097) as doe eqn:Edoe.
  assert (Hdoe : 0 <= doe < 146097) by (subst doe era; Z.div_mod_to_equations; lia).
  remember ((doe - doe / 1460 + doe / 36524 - doe / 146096) / 365) as yoe eqn:Eyoe.
  assert (Hyoe : 0 <= yoe <= 399) by (subst yoe; Z.div_mod_to_equations; lia).
  remember (doe - (365 * yoe + yoe / 4 - yoe / 100)) as doy eqn:Edoy.
  assert (Hdoy : 0 <= doy <= 365
                 /\ (doy = 365 -> yoe mod 4 = 3 /\ (yoe mod 100 <> 99 \/ yoe = 399))).
  { subst doy yoe. Z.div_mod_to_equations. lia. }
  clear Eyoe.
  remember ((5 * doy + 2) / 153) as mp eqn:Emp.
  assert (Hmp : 0 <= mp <= 11) by (subst mp; Z.div_mod_to_equations; lia).
  assert (Hm : 153 * mp <= 5 * doy + 2 < 153 * (mp + 1))
    by (subst mp; Z.div_mod_to_equations; lia).
  clear Emp.
  unfold isDate, dayNumber.
  destruct (mp_cases mp Hmp) as [->|[->|[->|[->|[->|[->|[->|[->|[->|[->|[->| ->]]]]]]]]]]];
    calendar_case.
Qed.

Lemma daysBeforeYear_mono y1 y2 : y1 <= y2 -> daysBeforeYear y1 <= daysBeforeYear y2.
Proof. unfold daysBeforeYear, leapYearsBefore. intros H. Z.div_mod_to_equations. lia. Qed.

Lemma dayOfYear_bounds y m d :
  isDate (y, m, d) ->
  0 <= daysBeforeMonth y m + (d - 1) < (if isLeapYear y then 366 else 365).
Proof.
  unfold isDate. intros [Hm Hd]. rewrite daysBeforeMonth_table by assumption.
  revert Hd. unfold daysInMonth.
  each_month m Hm; closed_tests; cbn [orb andb];
    cbv beta iota delta [daysBeforeMonthCommon]; destruct (isLeapYear y); lia.
Qed.

Lemma daysBeforeMonth_mono y m1 m2 d1 :
  isDate (y, m1, d1) -> 1 <= m2 <= 12 -> m1 < m2 ->
  daysBeforeMonth y m1 + (d1 - 1) < daysBeforeMonth y m2.
Proof.
  unfold isDate. intros [Hm1 Hd1] Hm2 Hlt.
  rewrite !daysBeforeMonth_table by assumption.
  revert Hd1. unfold daysInMonth.
  each_month m1 Hm1; closed_tests; cbn [orb andb];
    cbv beta iota delta [daysBeforeMonthCommon];
    each_month m2 Hm2; try lia; closed_tests; cbn [orb andb];
    cbv beta iota delta [daysBeforeMonthCommon]; destruct (isLeapYear y); lia.
Qed.

(** The calendar order is the order of the day numbers. *)
Lemma dayNumber_lt a b :
  isDate a -> isDate b -> dayLtb a b = true -> dayNumber a < dayNumber b.
Proof.
  destruct a as [[y1 m1] d1], b as [[y2 m2] d2]. intros Ha Hb Hlt.
  pose proof (dayOfYear_bounds _ _ _ Ha) as Ba.
  pose proof (dayOfYear_bounds _ _ _ Hb) as Bb.
  unfold dayLtb in Hlt. unfold dayNumber.
  destruct (Z.ltb_spec y1 y2) as [Hy|Hy].
  - pose proof (daysBeforeYear_mono (y1 + 1) y2 ltac:(lia)) as Hmono.
    rewrite daysBeforeYear_step in Hmono. destruct (isLeapYear y1); lia.
  - destruct (Z.eqb_spec y1 y2) as [->|]; [|discriminate]. simpl in Hlt.
    destruct (Z.ltb_spec m1 m2) as [Hm|Hm].
    + pose proof (daysBeforeMonth_mono y2 m1 m2 d1 Ha ltac:(apply Hb) Hm).
      destruct Hb as [_ Hd2]. lia.
    + destruct (Z.eqb_spec m1 m2) as [->|]; [|discriminate]. simpl in Hlt.
      apply Z.ltb_lt in Hlt. lia.
Qed.

Lemma dayLtb_total a b : a <> b -> dayLtb a b = true \/ dayLtb b a = true.
Proof.
  destruct a as [[y1 m1] d1], b as [[y2 m2] d2]. unfold dayLtb. intros Hne.
  assert (~ (y1 = y2 /\ m1 = m2 /\ d1 = d2)) by (intros (-> & -> & ->); now apply Hne).
  lia.
Qed.

Lemma dayNumber_inj a b : isDate a -> isDate b -> dayNumber a = dayNumber b -> a = b.
Proof.
  intros Ha Hb Heq.
  assert (Hdec : a = b \/ a <> b).
  { destruct a as [[y1 m1] d1], b as [[y2 m2] d2].
    destruct (Z.eq_dec y1 y2), (Z.eq_dec m1 m2), (Z.eq_dec d1 d2);
      subst; auto; right; congruence. }
  destruct Hdec as [|Hne]; [assumption|].
  destruct (dayLtb_total a b Hne) as [H|H]; apply dayNumber_lt in H; auto; lia.
Qed.

Lemma dayNumber_civilFromDays k : isDate k -> civilFromDays (dayNumber k) = k.
Proof.
  intros Hk. destruct (civilFromDays_dayNumber (dayNumber k)) as [Hd Hn].
  now apply dayNumber_inj.
Qed.

Lemma dayLtb_dayNumber a b :
  isDate a -> isDate b -> (dayLtb a b = true <-> dayNumber a < dayNumber b).
Proof.
  intros Ha Hb. split; [now apply dayNumber_lt|]. intros Hlt.
  destruct (dayLtb a b) eqn:E; [reflexivity|].
  assert (Hne : a <> b) by (intros ->; lia).
  destruct (dayLtb_total a b Hne) as [H|H]; [congruence|].
  apply dayNumber_lt in H; auto. lia.
Qed.

(** The day key of the pipeline is the date on which the time falls. *)
Lemma dayOf_spec t k : isDate k -> (dayOf t = k <-> onDay k t = true).
Proof.
  intros Hk. unfold dayOf, onDay. change msPerDay with 86400000.
  rewrite andb_true_iff, Z.leb_le, Z.ltb_lt. split.
  - intros <-. destruct (civilFromDays_dayNumber (t / 86400000)) as [_ ->].
    Z.div_mod_to_equations. lia.
  - intros Ht. assert (t / 86400000 = dayNumber k) as ->
      by (Z.div_mod_to_equations; lia).
    now apply dayNumber_civilFromDays.
Qed.

Lemma isDate_dayOf t : isDate (dayOf t).
Proof. apply civilFromDays_dayNumber. Qed.

Lemma createdOn_recentOn now k docs :
  isDate k -> createdOn now k docs = recentOn now k docs.
Proof.
  intros Hk. unfold createdOn, recentOn. do 2 f_equal.
  apply filter_ext. intros b. f_equal.
  destruct (onDay k (Blog.createdAt b)) eqn:E.
  - apply bool_decide_eq_true. now apply dayOf_spec.
  - apply bool_decide_eq_false. intros Hd. apply dayOf_spec in Hd; congruence.
Qed.

Lemma createdOn_positive now k docs :
  0 < createdOn now k docs ->
  exists b, In b docs /\ dayOf (Blog.createdAt b) = k
            /\ inTrailing30 now (Blog.createdAt b) = true.
Proof.
  unfold createdOn. intros Hpos.
  destruct (List.filter _ docs) as [|b l] eqn:Ef; [simpl in Hpos; lia|].
  assert (Hb : In b (List.filter
                       (fun b => inTrailing30 now (Blog.createdAt b)
                                 && bool_decide (dayOf (Blog.createdAt b) = k))
                       docs)) by (rewrite Ef; now left).
  apply filter_In in Hb as [Hb Hp]. apply andb_true_iff in Hp as [Hw Hd].
  apply bool_decide_eq_true in Hd. eauto.
Qed.

Lemma earlierDay_sorted (l : list Bucket) :
  Forall (fun kn : Bucket => isDate kn.1) l ->
  StronglySorted dayBefore l -> StronglySorted earlierDay l.
Proof.
  intros Hall Hsorted. induction Hsorted as [|x l Hs IH Hlt]; [constructor|].
  inversion Hall as [|? ? Hx Hl]; subst. constructor; [now apply IH|].
  rewrite Forall_forall in *. intros z Hz.
  apply dayNumber_lt; [exact Hx | now apply Hl | now apply Hlt].
Qed.

(** C9: the dashboard's trend holds a bucket for a date exactly when some
    record was created on that date (in UTC) no earlier than 30 days, that
    is 2 592 000 000 milliseconds, before the time of the request; the count
    of the bucket is the number of those records; the key of a bucket is the
    year, the month and the day of the month of a date of the calendar; the
    buckets are in strictly ascending order of their dates (so no date has
    two buckets); and a record created more than 30 days before the request
    is counted in no bucket. *)
Theorem monthlyTrend_buckets now st :
  (forall d n,
      In (d, n) (monthlyTrend now st)
      <-> isDate d /\ n = recentOn now d (allBlogs st) /\ 0 < n)
  /\ StronglySorted earlierDay (monthlyTrend now st)
  /\ (forall d,
        (forall b, In b (allBlogs st) -> onDay d (Blog.createdAt b) = true ->
                   Blog.createdAt b < now - 2592000000) ->
        forall n, ~ In (d, n) (monthlyTrend now st)).
Proof.
  destruct (monthlyTrend_grouped now st) as (Hmem & Hsorted & _).
  assert (Hdates : forall d n, In (d, n) (monthlyTrend now st) -> isDate d).
  { intros d n Hin. apply Hmem in Hin as [-> Hpos].
    apply createdOn_positive in Hpos as (b & _ & <- & _). apply isDate_dayOf. }
  assert (Hbuckets : forall d n,
             In (d, n) (monthlyTrend now st)
             <-> isDate d /\ n = recentOn now d (allBlogs st) /\ 0 < n).
  { intros d n. split.
    - intros Hin. pose proof (Hdates _ _ Hin) as Hd. split; [exact Hd|].
      apply Hmem in Hin. now rewrite <- createdOn_recentOn.
    - intros (Hd & Hn & Hpos). apply Hmem. now rewrite createdOn_recentOn. }
  split; [exact Hbuckets|]. split.
  - assert (Hall : Forall (fun kn : Bucket => isDate kn.1) (monthlyTrend now st)).
    { apply Forall_forall. intros [d n] Hin. apply list_elem_of_In in Hin.
      now apply Hdates in Hin. }
    now apply earlierDay_sorted.
  - intros d Hold n Hin. apply Hbuckets in Hin as (Hd & -> & Hpos).
    rewrite <- createdOn_recentOn in Hpos by assumption.
    apply createdOn_positive in Hpos as (b & Hb & Hday & Hw).
    apply dayOf_spec in Hday; [|assumption].
    specialize (Hold b Hb Hday). unfold inTrailing30, thirtyDaysAgo in Hw.
    change msPerDay with 86400000 in Hw. lia.
Qed.

(** Three day numbers: the epoch, a leap day and the eve of the epoch. *)
Example dayNumber_epoch :
  dayNumber (1970, 1, 1) = 0 /\ dayNumber (2000, 2, 29) = 11016
  /\ dayNumber (1969, 12, 31) = -1.
Proof. repeat split. Qed.

(** On a sample: three posts on 14 and 15 November 2023 within the window,
    one of 1 January 2023 outside it; the trend of 20 November 2023 has the
    two days in order, with their counts. *)
Example monthlyTrend_sample :
  let at_ t := Blog.mk (str "t") (str "t") (str "c") (str "e") None [] 1
                       (str "Food") [] None
                       {| metaTitle := None; metaDescription := None;
                          keywords := []; canonicalUrl := None |}
                       Draft None None
                       {| views := 0; likes := 0; shares := 0; comments := 0 |}
                       1 false t t in
  let st := setBlogs {[ 1 := at_ 1700000000000; 2 := at_ 1700050000000;
                        3 := at_ 1700000001000; 4 := at_ 1672531200000 ]}
                     sampleStore in
  monthlyTrend 1700500000000 st = [((2023, 11, 14), 2); ((2023, 11, 15), 1)].
Proof. vm_compute. reflexivity. Qed.

Lemma duplicateSlug_rejected_witness :
  let r1 := @createBlog asciiRuntime 5000 11 (Some ann) firstCreate sampleStore in
  isOk r1.1 = true
  /\ @createBlog asciiRuntime 6000 12 (Some bob) secondCreate r1.2
     = (Fail DuplicateSlug, r1.2).
Proof.
  split; [reflexivity|].
  eapply (proj1 (proj2 (@duplicateSlug_rejected asciiRuntime)))
    with (now1 := 5000) (id1 := 11) (caller1 := Some ann) (body1 := firstCreate)
         (st := sampleStore) (c2 := bob).
  - vm_compute. reflexivity.
  - reflexivity.
  - reflexivity.
  - vm_compute. reflexivity.
Defined.

(** * Further properties *)

(** ** Counting over a collection *)

Lemma filter_length_Permutation {A : Type} (f : A -> bool) (l l' : list A) :
  Permutation l l' -> length (List.filter f l) = length (List.filter f l').
Proof.
  induction 1 as [|x l l' _ IH|x y l|l l' l'' _ IH1 _ IH2]; simpl.
  - reflexivity.
  - destruct (f x); simpl; now rewrite IH.
  - destruct (f x), (f y); reflexivity.
  - now rewrite IH1.
Qed.

Lemma countWhere_insert_fresh p (m : gmap ObjectId Blog.t) k x :
  m !! k = None ->
  countWhere p (<[k := x]> m) = countWhere p m + (if p k x then 1 else 0).
Proof.
  intros Hk. unfold countWhere.
  rewrite (filter_length_Permutation _ _ _ (map_to_list_insert m k x Hk)).
  simpl. destruct (p k x); simpl; lia.
Qed.

Lemma countWhere_delete p (m : gmap ObjectId Blog.t) k x :
  m !! k = Some x ->
  countWhere p (delete k m) = countWhere p m - (if p k x then 1 else 0).
Proof.
  intros Hk. unfold countWhere.
  rewrite <- (filter_length_Permutation _ _ _ (map_to_list_delete m k x Hk)).
  simpl. destruct (p k x); simpl; lia.
Qed.

Lemma countWhere_replace p (m : gmap ObjectId Blog.t) k x y :
  m !! k = Some x ->
  countWhere p (<[k := y]> m)
  = countWhere p m - (if p k x then 1 else 0) + (if p k y then 1 else 0).
Proof.
  intros Hk. rewrite <- insert_delete_eq.
  rewrite countWhere_insert_fresh by apply lookup_delete_eq.
  now rewrite (countWhere_delete _ _ _ _ Hk).
Qed.

(** ** Slugs stay unique *)

Lemma slugsUnique_shrink st st' :
  (forall k b', blogs st' !! k = Some b' ->
                exists b, blogs st !! k = Some b /\ Blog.slug b' = Blog.slug b) ->
  slugsUnique st -> slugsUnique st'.
Proof.
  intros Hsub Hu k1 b1 k2 b2 H1 H2 Hs.
  destruct (Hsub _ _ H1) as (o1 & Ho1 & E1).
  destruct (Hsub _ _ H2) as (o2 & Ho2 & E2).
  apply (Hu _ _ _ _ Ho1 Ho2). congruence.
Qed.

Lemma slugsUnique_insert st k b :
  (forall k' b', blogs st !! k' = Some b' -> Blog.slug b' = Blog.slug b -> k' = k) ->
  slugsUnique st -> slugsUnique (setBlogs (<[k := b]> (blogs st)) st).
Proof.
  intros Hnew Hu k1 b1 k2 b2. simpl.
  destruct (decide (k = k1)) as [<-|N1], (decide (k = k2)) as [<-|N2];
    rewrite ?lookup_insert_eq, ?lookup_insert_ne by assumption.
  - reflexivity.
  - intros [= <-] H2 Hs. symmetry. eapply Hnew; eauto.
  - intros H1 [= <-] Hs. eapply Hnew; eauto.
  - apply Hu.
Qed.

Lemma getBlog_same_slug `{LowerCase} now identifier st k b' :
  blogs (getBlog now identifier st).2 !! k = Some b' ->
  exists b, blogs st !! k = Some b /\ Blog.slug b' = Blog.slug b
            /\ Blog.author b' = Blog.author b.
Proof.
  destruct (getBlog_inv now identifier st)
    as [[e ->]|(id & b & after & E & _ & -> & ->)]; simpl; [eauto|].
  destruct (decide (id = k)) as [->|Hne].
  - rewrite lookup_insert_eq. intros [= <-]. eauto.
  - rewrite lookup_insert_ne by assumption. eauto.
Qed.

Lemma bulkBlogs_same_slug now caller body st k b' :
  blogs (bulkBlogs now caller body st).2 !! k = Some b' ->
  exists b, blogs st !! k = Some b /\ Blog.slug b' = Blog.slug b.
Proof.
  unfold bulkBlogs.
  destruct (adminAuth caller); [eauto|].
  destruct (BulkBody.action body) as [[|c a]|]; try (simpl; eauto; fail).
  destruct (BulkBody.blogIds body) as [ids|]; [|eauto].
  destruct (bulkSwitch now (c :: a) ids st) as [[res st']|] eqn:E; [|eauto].
  simpl. apply bulkSwitch_inv in E as [[_ E]|(_ & upd & Hupd & E)].
  - replace st' with (deleteMany ids st).2 by now rewrite <- E.
    intros Hl. apply deleteMany_lookup in Hl as [Hl _]. eauto.
  - replace st' with (updateMany ids upd st).2 by now rewrite <- E.
    rewrite updateMany_lookup.
    destruct (blogs st !! k) as [old|]; [|discriminate].
    intros [= <-]. exists old. split; [reflexivity|].
    destruct (matchesIn ids k); [|reflexivity].
    simpl in Hupd. destruct Hupd as [<-|[<-|[<-|[<-|[]]]]]; reflexivity.
Qed.

Lemma deleteBlog_same_slug caller id st k b' :
  blogs (deleteBlog caller id st).2 !! k = Some b' -> blogs st !! k = Some b'.
Proof.
  unfold deleteBlog.
  destruct (editorAuth caller) as [e|[uid u]]; [auto|].
  destruct (findById id st); [|auto].
  destruct (_ && _); [auto|].
  simpl. intros Hl. now apply lookup_delete_Some in Hl as [_ Hl].
Qed.

(** The saved document of a successful update either keeps the slug or
    takes one that no other record holds. *)
Lemma updateBlog_slug_free `{LowerCase} now caller id body st after st' :
  updateBlog now caller id body st = (Ok (id, after), st') ->
  exists old,
    blogs st !! id = Some old
    /\ st' = setBlogs (<[id := after]> (blogs st)) st
    /\ Blog.author after = Blog.author old
    /\ (Blog.slug after = Blog.slug old
        \/ forall k b, blogs st !! k = Some b -> Blog.slug b = Blog.slug after -> k = id).
Proof.
  unfold updateBlog, findById.
  destruct (editorAuth caller) as [e|[uid u]]; [discriminate|].
  destruct (blogs st !! id) as [old|] eqn:Hold; [|discriminate].
  destruct (_ && _); [discriminate|].
  destruct (updateSlug id body old st) as [b1|] eqn:E1; [|discriminate].
  destruct (updateStatus now body (assignFields body b1)) as [b2|] eqn:E2;
    [|discriminate].
  destruct (negb (updatable _ _ _ _ _)) eqn:Hup; [discriminate|].
  intros Heq. injection Heq as <- <-.
  exists old. split; [reflexivity|]. split; [reflexivity|]. split.
  - rewrite (preSave_frame Blog.author) by reflexivity.
    through_assignments Blog.author.
    rewrite (updateStatus_frame Blog.author _ _ _ _ ltac:(reflexivity)
               ltac:(reflexivity) E2).
    through_assignments Blog.author.
    apply (updateSlug_frame Blog.author _ _ _ _ _ ltac:(reflexivity) E1).
  - rewrite (preSave_frame Blog.slug) by reflexivity.
    apply negb_false_iff in Hup. unfold updatable in Hup.
    rewrite !andb_true_iff, orb_true_iff, !bool_decide_eq_true in Hup.
    destruct Hup as [_ [Hs|Hidx]]; [now left|]. right.
    intros k b Hk Hb. eapply findOneBySlugExcept_None; eauto.
Qed.

Lemma createBlog_slug_free `{LowerCase} now newId caller body st r st' :
  createBlog now newId caller body st = (Ok r, st') ->
  exists uid after,
    r = (newId, after)
    /\ blogs st !! newId = None
    /\ Blog.author after = uid
    /\ st' = incPostsCount uid 1 (setBlogs (<[newId := after]> (blogs st)) st)
    /\ forall k b, blogs st !! k = Some b -> Blog.slug b <> Blog.slug after.
Proof.
  intros Hc.
  destruct (createBlog_inv now newId caller body st)
    as [[e He]|(uid & u & after & _ & Hfresh & Hnone & Hsaved & Hok)]; [congruence|].
  rewrite Hok in Hc. injection Hc as <- <-.
  exists uid, after. repeat split; try assumption.
  - destruct Hsaved as (s & _ & ->). now rewrite (preSave_frame Blog.author).
  - intros k b Hk. rewrite (savedByCreate_slug _ _ _ _ Hsaved).
    eapply findOneBySlug_None; eauto.
Qed.

(** X1: if no two stored records hold the same slug, no request makes two
    records hold the same slug. *)
Theorem serve_keeps_slugs_unique `{LowerCase} now r st :
  slugsUnique st -> slugsUnique (serve now r st).
Proof.
  intros Hu. destruct r as [identifier|newId caller body|caller id body|caller id|caller body];
    simpl.
  - eapply slugsUnique_shrink; [|exact Hu]. intros k b' Hk.
    destruct (getBlog_same_slug _ _ _ _ _ Hk) as (b & ? & ? & _). eauto.
  - destruct (createBlog now newId caller body st) as [[[id' after]|e] st'] eqn:E.
    + destruct (createBlog_slug_free _ _ _ _ _ _ _ E)
        as (uid & after' & [= -> ->] & Hfresh & _ & -> & Hfree).
      simpl. apply (slugsUnique_insert st newId after'); [|exact Hu].
      intros k' b' Hk' Hs. exfalso. eapply Hfree; eauto.
    + destruct (createBlog_inv now newId caller body st)
        as [[e' He]|(? & ? & ? & _ & _ & _ & _ & Hok)]; [|congruence].
      rewrite He in E. injection E as _ <-. exact Hu.
  - destruct (updateBlog_inv now caller id body st)
      as [[e ->]|(old & after & Hold & _ & Hok)]; [exact Hu|].
    destruct (updateBlog_slug_free _ _ _ _ _ _ _ Hok)
      as (old' & Hold' & _ & _ & Hslug).
    rewrite Hok. simpl. assert (old' = old) as -> by congruence.
    apply (slugsUnique_insert st id after); [|exact Hu].
    intros k' b' Hk' Hs. destruct Hslug as [Hsame|Hfree].
    + apply (Hu _ _ _ _ Hk' Hold). congruence.
    + eapply Hfree; eauto.
  - eapply slugsUnique_shrink; [|exact Hu]. intros k b' Hk.
    apply deleteBlog_same_slug in Hk. eauto.
  - eapply slugsUnique_shrink; [|exact Hu]. intros k b' Hk.
    now apply bulkBlogs_same_slug in Hk.
Qed.

Lemma serve_keeps_slugs_unique_witness :
  slugsUnique (@serve asciiRuntime 5000 (CreateBlog 11 (Some ann) firstCreate) sampleStore).
Proof.
  apply (@serve_keeps_slugs_unique asciiRuntime).
  intros k1 b1 k2 b2 H1 H2 _. unfold sampleStore in H1, H2. cbn [blogs] in H1, H2.
  apply lookup_singleton_Some in H1 as [<- _].
  apply lookup_singleton_Some in H2 as [<- _]. reflexivity.
Defined.


(** ** The post counter follows the posts *)

Lemma deleteBlog_inv caller id st :
  (exists e, deleteBlog caller id st = (Fail e, st))
  \/ exists uid u old,
       editorAuth caller = inr (uid, u)
       /\ blogs st !! id = Some old
       /\ deleteBlog caller id st
          = (Ok tt, incPostsCount (Blog.author old) (-1)
                      (setBlogs (delete id (blogs st)) st)).
Proof.
  unfold deleteBlog, findById.
  destruct (editorAuth caller) as [e|[uid u]]; [left; eauto|].
  destruct (blogs st !! id) as [old|] eqn:Hold; [|left; eauto].
  destruct (_ && _); [left; eauto|].
  right. eauto 8.
Qed.

Lemma authored_replace u st id old after :
  blogs st !! id = Some old -> Blog.author after = Blog.author old ->
  authored u (setBlogs (<[id := after]> (blogs st)) st) = authored u st.
Proof.
  intros Hold Ha. unfold authored. simpl.
  rewrite (countWhere_replace _ _ _ _ _ Hold), Ha.
  destruct (bool_decide _); lia.
Qed.

Lemma counterGap_blogs u st st' :
  users st' = users st -> authored u st' = authored u st ->
  counterGap u st' = counterGap u st.
Proof. intros Hu Ha. unfold counterGap. now rewrite Hu, Ha. Qed.

(** X2: through a read, a create, an update and a single-record delete, the
    post counter of every user moves exactly as the number of that user's
    stored posts does: their difference stays what it was. *)
Theorem singleRecord_keeps_counterGap `{LowerCase} now r st u :
  singleRecord r -> counterGap u (serve now r st) = counterGap u st.
Proof.
  intros Hr.
  destruct r as [identifier|newId caller body|caller id body|caller id|caller body];
    simpl in *; [| | | |contradiction].
  - destruct (getBlog_inv now identifier st)
      as [[e ->]|(id & old & after & Hold & _ & -> & ->)]; [reflexivity|].
    apply counterGap_blogs; [reflexivity|].
    now apply (authored_replace _ _ _ _ _ Hold).
  - destruct (createBlog now newId caller body st) as [[res|e] st'] eqn:E; simpl.
    + destruct (createBlog_slug_free _ _ _ _ _ _ _ E)
        as (uid & after & -> & Hfresh & Hauth & -> & _).
      unfold counterGap, authored. rewrite incPostsCount_lookup. simpl.
      rewrite (countWhere_insert_fresh _ _ _ _ Hfresh), Hauth.
      destruct (decide (uid = u)) as [->|Hne].
      * rewrite bool_decide_eq_true_2 by reflexivity.
        destruct (users st !! u) as [usr|]; simpl; [|reflexivity].
        f_equal. lia.
      * rewrite bool_decide_eq_false_2 by assumption.
        destruct (users st !! u) as [usr|]; simpl; [|reflexivity].
        f_equal. lia.
    + destruct (createBlog_inv now newId caller body st)
        as [[e' He]|(? & ? & ? & _ & _ & _ & _ & Hok)]; [|congruence].
      rewrite He in E. now injection E as _ <-.
  - destruct (updateBlog_inv now caller id body st)
      as [[e ->]|(old & after & Hold & _ & Hok)]; [reflexivity|].
    destruct (updateBlog_slug_free _ _ _ _ _ _ _ Hok)
      as (old' & Hold' & _ & Hauth & _).
    rewrite Hok. simpl. apply counterGap_blogs; [reflexivity|].
    now apply (authored_replace _ _ _ _ _ Hold').
  - destruct (deleteBlog_inv caller id st)
      as [[e ->]|(uid & usr & old & _ & Hold & ->)]; [reflexivity|].
    cbn [snd]. unfold counterGap, authored. rewrite incPostsCount_lookup. simpl.
    rewrite (countWhere_delete _ _ _ _ Hold).
    destruct (decide (Blog.author old = u)) as [->|Hne].
    + rewrite bool_decide_eq_true_2 by reflexivity.
      destruct (users st !! u) as [x|]; simpl; [|reflexivity]. f_equal. lia.
    + rewrite bool_decide_eq_false_2 by assumption.
      destruct (users st !! u) as [x|]; simpl; [|reflexivity]. f_equal. lia.
Qed.

Lemma singleRecord_keeps_counterGap_witness :
  counterGap 1 (@serve asciiRuntime 5000 (DeleteBlog (Some ann) 10) sampleStore)
  = counterGap 1 sampleStore.
Proof.
  apply (@singleRecord_keeps_counterGap asciiRuntime 5000
           (DeleteBlog (Some ann) 10) sampleStore 1).
  exact I.
Defined.

(** On the sample the counter of [ann] and her posts agree before and after
    the delete: 1 post and a counter of 1, then no post and a counter of 0. *)
Example counterGap_sample :
  counterGap 1 sampleStore = Some 0
  /\ authored 1 (@serve asciiRuntime 5000 (DeleteBlog (Some ann) 10) sampleStore) = 0.
Proof. split; vm_compute; reflexivity. Qed.


(** ** What a create leaves behind *)

Lemma statusName_statusOfString s x : statusOfString s = Some x -> statusName x = s.
Proof.
  unfold statusOfString.
  repeat case_bool_decide; intros Heq; try discriminate;
    injection Heq as <-; subst s; reflexivity.
Qed.

Lemma statusOfString_statusName x : statusOfString (statusName x) = Some x.
Proof. now destruct x. Qed.

Lemma requireRole_passes min caller c : requireRole min caller = inr c -> caller = Some c.
Proof.
  unfold requireRole. destruct caller as [c'|]; [|discriminate].
  destruct (_ <=? _); [now intros [= <-] | discriminate].
Qed.

Lemma createBlog_effect `{LowerCase} now newId caller body st id b st' :
  createBlog now newId caller body st = (Ok (id, b), st') ->
  exists uid u,
    caller = Some (uid, u)
    /\ id = newId
    /\ blogs st !! newId = None
    /\ blogs st' = <[newId := b]> (blogs st)
    /\ freshPost now uid body b
    /\ users st' !! uid
       = (fun x => User.set_postsCount (User.postsCount x + 1) x) <$> users st !! uid
    /\ (forall k, k <> uid -> users st' !! k = users st !! k).
Proof.
  intros Hc.
  destruct (createBlog_inv now newId caller body st)
    as [[e He]|(uid & u & after & Hauth & Hfresh & _ & Hsaved & Hok)]; [congruence|].
  rewrite Hok in Hc. injection Hc as <- <- <-.
  exists uid, u. split; [now apply requireRole_passes in Hauth|].
  split; [reflexivity|]. split; [exact Hfresh|]. split; [reflexivity|].
  split.
  - pose proof (savedByCreate_slug _ _ _ _ Hsaved) as Hslug.
    destruct Hsaved as (s & Hs & ->).
    unfold freshPost. rewrite Hslug. repeat split.
    + simpl. now apply statusName_statusOfString.
    + rewrite (preSave_frame Blog.publishedAt) by reflexivity.
      unfold newBlog. cbn [Blog.publishedAt].
      destruct (CreateBody.status body) as [x|]; cbn [default]; unfold id;
        [|reflexivity].
      destruct (decide (x = str "published")) as [Hx|Hne].
      * now rewrite !bool_decide_eq_true_2 by congruence.
      * rewrite (bool_decide_eq_false_2 _ Hne).
        rewrite bool_decide_eq_false_2; [reflexivity|]. congruence.
  - split.
    + rewrite incPostsCount_lookup. now rewrite decide_True.
    + intros k Hk. rewrite incPostsCount_lookup. now rewrite decide_False.
Qed.

(** X3: a successful create stores, under the fresh identifier, a post of the
    caller with the title trimmed, the derived slug, the status asked for
    (draft when none is), a publication time exactly when that status is
    published, all four engagement counters at zero and both timestamps at
    the time of the request; it adds 1 to the caller's post counter and
    changes no other post and no other user. *)
Theorem createBlog_postcondition `{LowerCase} now newId caller body st id b st' :
  createBlog now newId caller body st = (Ok (id, b), st') ->
  exists uid u,
    caller = Some (uid, u)
    /\ id = newId
    /\ blogs st !! newId = None
    /\ blogs st' = <[newId := b]> (blogs st)
    /\ freshPost now uid body b
    /\ users st' !! uid
       = (fun x => User.set_postsCount (User.postsCount x + 1) x) <$> users st !! uid
    /\ (forall k, k <> uid -> users st' !! k = users st !! k).
Proof. apply createBlog_effect. Qed.

Lemma createBlog_postcondition_witness :
  exists b uid u,
    Some ann = Some (uid, u)
    /\ 11 = 11
    /\ blogs sampleStore !! 11 = None
    /\ blogs (@createBlog asciiRuntime 5000 11 (Some ann) firstCreate sampleStore).2
       = <[11 := b]> (blogs sampleStore)
    /\ @freshPost asciiRuntime 5000 uid firstCreate b
    /\ users (@createBlog asciiRuntime 5000 11 (Some ann) firstCreate sampleStore).2
         !! uid
       = (fun x => User.set_postsCount (User.postsCount x + 1) x)
           <$> users sampleStore !! uid
    /\ (forall k, k <> uid ->
          users (@createBlog asciiRuntime 5000 11 (Some ann) firstCreate sampleStore).2
            !! k = users sampleStore !! k).
Proof.
  eexists.
  eapply (@createBlog_postcondition asciiRuntime 5000 11 (Some ann) firstCreate
            sampleStore 11).
  vm_compute. reflexivity.
Defined.

Lemma createBlog_valid `{LowerCase} now newId caller body st r st' :
  createBlog now newId caller body st = (Ok r, st') -> validDoc r.2 = true.
Proof.
  unfold createBlog.
  destruct (editorAuth caller) as [e|[uid u]]; [discriminate|].
  destruct (negb (validCreate body)); [discriminate|].
  destruct (findOneBySlug _ st); [discriminate|].
  destruct (statusOfString _) as [s|]; [|discriminate].
  destruct (negb (insertable _ _ _ _)) eqn:Hins; [discriminate|].
  intros [= <- _]. apply negb_false_iff in Hins. unfold insertable in Hins.
  rewrite !andb_true_iff in Hins. destruct Hins as [[[_ Hv] _] _]. exact Hv.
Qed.

(** X4: a post that a create stored is found by its slug, and that first
    read makes its view counter 1, provided the slug does not have the shape
    of a store-native identifier. *)
Theorem create_then_read_by_slug `{LowerCase} now newId caller body st id b st' now' :
  createBlog now newId caller body st = (Ok (id, b), st') ->
  castObjectId (generateSlug (CreateBody.title body)) = None ->
  readHit now' (generateSlug (CreateBody.title body)) st' id b
  /\ views (Blog.stats b) = 0.
Proof.
  intros Hc Hcast.
  destruct (createBlog_slug_free _ _ _ _ _ _ _ Hc)
    as (uid & after & [= -> ->] & Hfresh & _ & Hst & Hfree).
  destruct (createBlog_effect _ _ _ _ _ _ _ _ Hc)
    as (uid' & u' & _ & _ & _ & Hblogs & Hpost & _).
  destruct Hpost as (_ & _ & Hslug & _ & _ & _ & _ & _ & _ & Hstats & _).
  split; [|now rewrite Hstats].
  apply getBlog_hit;
    [|exact (createBlog_valid _ _ _ _ _ _ _ Hc)
     |rewrite Hstats; unfold belowLimit; simpl; lia].
  unfold findByIdentifier. rewrite Hcast, toLowerCase_generateSlug.
  assert (Hb : blogs st' !! newId = Some after)
    by (rewrite Hblogs; apply lookup_insert_eq).
  destruct (findOneBySlug_holder _ _ _ _ Hb Hslug) as (k' & b' & Hf).
  rewrite Hf. apply findOneBySlug_Some in Hf as [Hk' Hs'].
  destruct (decide (k' = newId)) as [->|Hne]; [congruence|].
  rewrite Hblogs, lookup_insert_ne in Hk' by congruence.
  exfalso. apply (Hfree _ _ Hk'). congruence.
Qed.

Lemma create_then_read_by_slug_witness :
  exists b,
    @readHit asciiRuntime 6000
      (@generateSlug asciiRuntime (CreateBody.title firstCreate))
            (@createBlog asciiRuntime 5000 11 (Some ann) firstCreate sampleStore).2
            11 b
    /\ views (Blog.stats b) = 0.
Proof.
  eexists.
  eapply (@create_then_read_by_slug asciiRuntime 5000 11 (Some ann) firstCreate
            sampleStore 11).
  - vm_compute. reflexivity.
  - reflexivity.
Defined.

Lemma User_counter_round_trip x :
  User.set_postsCount
    (User.postsCount (User.set_postsCount (User.postsCount x + 1) x) + -1)
    (User.set_postsCount (User.postsCount x + 1) x) = x.
Proof. destruct x. unfold User.set_postsCount. simpl. f_equal. lia. Qed.

(** X5: a create followed by the delete of the created post by the same
    caller succeeds and gives back the store there was before the create:
    the post is gone and the caller's counter is where it was. *)
Theorem create_then_delete_restores `{LowerCase} now newId caller body st id b st1 :
  createBlog now newId caller body st = (Ok (id, b), st1) ->
  deleteBlog caller id st1 = (Ok tt, st).
Proof.
  intros Hc.
  destruct (createBlog_inv now newId caller body st)
    as [[e He]|(uid & u & after & Hauth & Hfresh & _ & Hsaved & Hok)]; [congruence|].
  rewrite Hok in Hc. injection Hc as <- <- <-.
  assert (Ha : Blog.author after = uid).
  { destruct Hsaved as (s & _ & ->). now rewrite (preSave_frame Blog.author). }
  unfold deleteBlog, findById. rewrite Hauth. cbn [blogs incPostsCount setUsers setBlogs].
  rewrite lookup_insert_eq, Ha.
  rewrite (bool_decide_eq_false_2 (uid <> uid)) by (intros Hne; now apply Hne).
  cbn [andb]. f_equal.
  destruct st as [bs us]. unfold incPostsCount, setUsers, setBlogs. cbn [blogs users].
  f_equal.
  - rewrite delete_insert_eq. now apply delete_id.
  - apply map_eq. intros k. destruct (decide (uid = k)) as [->|Hne].
    + rewrite !lookup_alter_eq. destruct (us !! k) as [x|]; simpl; [|reflexivity].
      f_equal. apply User_counter_round_trip.
    + now rewrite !lookup_alter_ne.
Qed.

Lemma create_then_delete_restores_witness :
  deleteBlog (Some ann) 11
    (@createBlog asciiRuntime 5000 11 (Some ann) firstCreate sampleStore).2
  = (Ok tt, sampleStore).
Proof.
  eapply (@create_then_delete_restores asciiRuntime 5000 11 (Some ann) firstCreate
            sampleStore 11).
  vm_compute. reflexivity.
Defined.


(** ** Reads add up *)

Lemma viewedOnce_lookup `{LowerCase} now identifier st id old :
  castObjectId identifier = Some id -> blogs st !! id = Some old ->
  validDoc old = true -> belowLimit (views (Blog.stats old)) ->
  exists after,
    blogs (getBlog now identifier st).2 !! id = Some after
    /\ viewedOnce now old after
    /\ (forall k, k <> id -> blogs (getBlog now identifier st).2 !! k = blogs st !! k)
    /\ users (getBlog now identifier st).2 = users st.
Proof.
  intros Hc Hb Hvalid Hlimit.
  assert (Hf : findByIdentifier identifier st = Some (id, old)).
  { unfold findByIdentifier, findById. now rewrite Hc, Hb. }
  destruct (getBlog_hit now _ _ _ _ Hf Hvalid Hlimit) as (after & -> & Hv).
  exists after. simpl. split; [apply lookup_insert_eq|]. split; [exact Hv|].
  split; [|reflexivity]. intros k Hk. now apply lookup_insert_ne.
Qed.

(** X6: [n] reads of an existing record by its store-native identifier add
    exactly [n] to its view counter, when the record passes the validators
    of the schema and the counter stays among the integers that Numbers
    count exactly (it starts no lower than -2^53 and ends no higher than
    2^53); its title, slug, body, excerpt, category, status and publication
    time stay what they were, and so does every other record. *)
Theorem reads_add_up `{LowerCase} n now identifier st id old :
  castObjectId identifier = Some id -> blogs st !! id = Some old ->
  schemaValid old ->
  - 2 ^ 53 <= views (Blog.stats old) ->
  views (Blog.stats old) + Z.of_nat n <= 2 ^ 53 ->
  exists after,
    blogs (readTimes n now identifier st) !! id = Some after
    /\ views (Blog.stats after) = views (Blog.stats old) + Z.of_nat n
    /\ Blog.title after = Blog.title old
    /\ Blog.slug after = Blog.slug old
    /\ Blog.content after = Blog.content old
    /\ Blog.excerpt after = Blog.excerpt old
    /\ Blog.category after = Blog.category old
    /\ Blog.status after = Blog.status old
    /\ Blog.publishedAt after = Blog.publishedAt old
    /\ (forall k, k <> id ->
          blogs (readTimes n now identifier st) !! k = blogs st !! k)
    /\ users (readTimes n now identifier st) = users st.
Proof.
  intros Hc Hb Hvalid Hlow Hhigh. apply validDoc_schemaValid in Hvalid.
  induction n as [|n IH].
  - exists old. simpl. repeat split; auto. lia.
  - destruct IH
      as (mid & Hmid & Hviews & Ht & Hs & Hco & He & Hca & Hst & Hp & Hother & Husers);
      [lia|].
    assert (Hvmid : validDoc mid = true).
    { unfold validDoc in *. now rewrite Ht, Hs, Hco, He, Hca. }
    assert (Hlmid : belowLimit (views (Blog.stats mid))).
    { unfold belowLimit. rewrite Hviews. lia. }
    destruct (viewedOnce_lookup now identifier _ id mid Hc Hmid Hvmid Hlmid)
      as (after & Hafter & Hv & Hother' & Husers').
    exists after. cbn [readTimes].
    destruct Hv as (V1 & _ & V3 & V4 & V5 & V6 & V7 & V8 & V9 & _).
    repeat split; try congruence.
    + rewrite V1, Hviews. lia.
    + intros k Hk. rewrite Hother' by assumption. now apply Hother.
Qed.

Lemma reads_add_up_witness :
  exists after,
    blogs (@readTimes asciiRuntime 3 5000 (str "00000000000000000000000a")
             sampleStore) !! 10
    = Some after
    /\ views (Blog.stats after) = views (Blog.stats helloPost) + Z.of_nat 3
    /\ Blog.title after = Blog.title helloPost
    /\ Blog.slug after = Blog.slug helloPost
    /\ Blog.content after = Blog.content helloPost
    /\ Blog.excerpt after = Blog.excerpt helloPost
    /\ Blog.category after = Blog.category helloPost
    /\ Blog.status after = Blog.status helloPost
    /\ Blog.publishedAt after = Blog.publishedAt helloPost
    /\ (forall k, k <> 10 ->
          blogs (@readTimes asciiRuntime 3 5000 (str "00000000000000000000000a")
                   sampleStore) !! k
          = blogs sampleStore !! k)
    /\ users (@readTimes asciiRuntime 3 5000 (str "00000000000000000000000a")
                sampleStore)
       = users sampleStore.
Proof.
  apply (@reads_add_up asciiRuntime 3 5000 (str "00000000000000000000000a")
           sampleStore 10 helloPost).
  - reflexivity.
  - reflexivity.
  - apply validDoc_schemaValid. reflexivity.
  - vm_compute. discriminate.
  - vm_compute. discriminate.
Defined.

(** ** Failures write nothing *)

(** X7: a request that ends with an error, whichever route it went to and
    whichever the error, leaves the store exactly as it was. *)
Theorem failed_request_keeps_store `{LowerCase} now r st e :
  outcome now r st = Some e -> serve now r st = st.
Proof.
  destruct r as [identifier|newId caller body|caller id body|caller id|caller body];
    simpl.
  - destruct (getBlog_inv now identifier st)
      as [[e' ->]|(? & ? & ? & _ & _ & _ & ->)]; [reflexivity | discriminate].
  - destruct (createBlog_inv now newId caller body st)
      as [[e' ->]|(? & ? & ? & _ & _ & _ & _ & ->)]; [reflexivity | discriminate].
  - destruct (updateBlog_inv now caller id body st)
      as [[e' ->]|(? & ? & _ & _ & ->)]; [reflexivity | discriminate].
  - destruct (deleteBlog_inv caller id st)
      as [[e' ->]|(? & ? & ? & _ & _ & ->)]; [reflexivity | discriminate].
  - destruct (bulkBlogs now caller body st) as [[c|e'] st'] eqn:E; [discriminate|].
    intros _. simpl. now apply bulkBlogs_failure_keeps_store in E.
Qed.

Lemma failed_request_keeps_store_witness :
  @serve asciiRuntime 5000 (DeleteBlog (Some bob) 10) sampleStore = sampleStore.
Proof.
  apply (@failed_request_keeps_store asciiRuntime 5000 (DeleteBlog (Some bob) 10)
           sampleStore Forbidden).
  reflexivity.
Defined.

(** ** What the create and update routes reject after their validators *)

(** X8: a create whose title derives the empty slug (a title of punctuation
    only, say) fails, at the validators or at the save, which requires a
    slug: no record is stored. *)
Theorem empty_slug_never_created `{LowerCase} now newId caller body st :
  generateSlug (CreateBody.title body) = [] ->
  isOk (createBlog now newId caller body st).1 = false
  /\ (createBlog now newId caller body st).2 = st.
Proof.
  intros Hslug.
  destruct (createBlog_inv now newId caller body st)
    as [[e ->]|(uid & u & after & _ & _ & _ & Hsaved & Hok)]; [now split|].
  exfalso. pose proof (savedByCreate_slug _ _ _ _ Hsaved) as Hs.
  rewrite Hslug in Hs. revert Hok. unfold createBlog.
  destruct (editorAuth caller) as [e|[uid' u']]; [discriminate|].
  destruct (negb (validCreate body)); [discriminate|].
  destruct (findOneBySlug _ st); [discriminate|].
  destruct (statusOfString _) as [s|]; [|discriminate].
  destruct (negb (insertable _ _ _ _)) eqn:Hins; [discriminate|].
  apply negb_false_iff in Hins. unfold insertable in Hins.
  rewrite !andb_true_iff in Hins. destruct Hins as [[[_ Hv] _] _].
  unfold validDoc in Hv. rewrite !andb_true_iff in Hv.
  destruct Hv as [[[[_ Hv] _] _] _].
  unfold newBlog in Hv. cbn [Blog.slug] in Hv.
  rewrite toLowerCase_generateSlug, Hslug in Hv. discriminate.
Qed.

Lemma empty_slug_never_created_witness :
  let body := CreateBody.mk (str "?!...") (str "a b c") (str "e") (str "Food")
                            None None None None None None None None in
  validCreate body = true
  /\ isOk (@createBlog asciiRuntime 5000 11 (Some ann) body sampleStore).1 = false
  /\ (@createBlog asciiRuntime 5000 11 (Some ann) body sampleStore).2 = sampleStore.
Proof.
  split; [reflexivity|].
  apply (@empty_slug_never_created asciiRuntime). reflexivity.
Defined.

(** X9: a create or an update that carries a non-empty status outside
    draft, published, scheduled and archived fails, at the latest when the
    document is saved, and stores nothing. *)
Theorem unknown_status_rejected `{LowerCase} now newId caller bid cbody ubody st s :
  statusOfString s = None -> s <> [] ->
  (CreateBody.status cbody = Some s ->
   isOk (createBlog now newId caller cbody st).1 = false
   /\ (createBlog now newId caller cbody st).2 = st)
  /\ (UpdateBody.status ubody = Some s ->
      isOk (updateBlog now caller bid ubody st).1 = false
      /\ (updateBlog now caller bid ubody st).2 = st).
Proof.
  intros Hs Hne. split; intros Hb.
  - unfold createBlog. rewrite Hb. cbn [default].
    destruct (editorAuth caller) as [e|[uid u]]; [now split|].
    destruct (negb (validCreate cbody)); [now split|].
    destruct (findOneBySlug _ st); [now split|].
    unfold id. rewrite Hs. now split.
  - unfold updateBlog.
    destruct (editorAuth caller) as [e|[uid u]]; [now split|].
    destruct (findById bid st); [|now split].
    destruct (_ && _); [now split|].
    destruct (updateSlug _ _ _ _); [|now split].
    unfold updateStatus. rewrite Hb.
    destruct s as [|c s']; [contradiction|]. cbn [truthy]. rewrite Hs. now split.
Qed.

Lemma unknown_status_rejected_witness :
  let patch := UpdateBody.mk None None None None None None None None None
                             (Some (str "live")) None None in
  let body := CreateBody.mk (str "Third") (str "a b c") (str "e") (str "Food")
                            None None None None None (Some (str "live")) None None in
  (CreateBody.status body = Some (str "live") ->
   isOk (@createBlog asciiRuntime 5000 11 (Some ann) body sampleStore).1 = false
   /\ (@createBlog asciiRuntime 5000 11 (Some ann) body sampleStore).2 = sampleStore)
  /\ (UpdateBody.status patch = Some (str "live") ->
      isOk (@updateBlog asciiRuntime 5000 (Some ann) 10 patch sampleStore).1 = false
      /\ (@updateBlog asciiRuntime 5000 (Some ann) 10 patch sampleStore).2
         = sampleStore).
Proof.
  apply (@unknown_status_rejected asciiRuntime 5000 11 (Some ann) 10).
  - reflexivity.
  - discriminate.
Defined.


(** ** Bulk actions, twice and elsewhere *)

Lemma deleteMany_twice ids st :
  (deleteMany ids (deleteMany ids st).2).2 = (deleteMany ids st).2.
Proof.
  destruct st as [bs us]. unfold deleteMany, setBlogs. cbn [snd blogs users].
  f_equal. apply map_eq. intros k. apply option_eq. intros b.
  rewrite !map_lookup_filter_Some. tauto.
Qed.

Lemma updateMany_twice ids upd st :
  (forall b, upd (upd b) = upd b) ->
  (updateMany ids upd (updateMany ids upd st).2).2 = (updateMany ids upd st).2.
Proof.
  intros Hupd. destruct st as [bs us]. unfold updateMany, setBlogs.
  cbn [snd blogs users]. f_equal. apply map_eq. intros k.
  rewrite !map_lookup_imap. destruct (bs !! k) as [b|]; simpl; [|reflexivity].
  destruct (matchesIn ids k); [now rewrite Hupd | reflexivity].
Qed.

(** The store a recognised bulk action leaves, as a function of the store it
    finds. *)
Lemma bulkSwitch_store now action ids st res :
  bulkSwitch now action ids st = Some res ->
  exists f : Store -> Store,
    res.2 = f st
    /\ (forall s, snd <$> bulkSwitch now action ids s = Some (f s))
    /\ (forall s, f (f s) = f s).
Proof.
  unfold bulkSwitch. repeat case_bool_decide; intros [= <-].
  - exists (fun s => (deleteMany ids s).2). repeat split. apply deleteMany_twice.
  - eexists (fun s => (updateMany ids _ s).2). repeat split.
    intros s. now apply updateMany_twice.
  - eexists (fun s => (updateMany ids _ s).2). repeat split.
    intros s. now apply updateMany_twice.
  - eexists (fun s => (updateMany ids _ s).2). repeat split.
    intros s. now apply updateMany_twice.
  - eexists (fun s => (updateMany ids _ s).2). repeat split.
    intros s. now apply updateMany_twice.
Qed.

(** X10: a bulk request sent a second time, at the same instant, leaves the
    store the first one left: every bulk action is idempotent on the
    store. *)
Theorem bulkBlogs_idempotent now caller body st :
  (bulkBlogs now caller body (bulkBlogs now caller body st).2).2
  = (bulkBlogs now caller body st).2.
Proof.
  unfold bulkBlogs.
  destruct (adminAuth caller); [reflexivity|].
  destruct (BulkBody.action body) as [[|c a]|]; try reflexivity.
  destruct (BulkBody.blogIds body) as [ids|]; [|reflexivity].
  destruct (bulkSwitch now (c :: a) ids st) as [[res st']|] eqn:E;
    [|cbn [snd]; now rewrite E].
  destruct (bulkSwitch_store _ _ _ _ _ E) as (f & Hres & Hf & Hidem).
  cbn [snd] in *. subst st'.
  pose proof (Hf (f st)) as Hsecond.
  destruct (bulkSwitch now (c :: a) ids (f st)) as [[res2 st2]|]; [|discriminate].
  injection Hsecond as ->. cbn [snd]. apply Hidem.
Qed.

(** X11: no bulk request adds a record, changes a record whose identifier is
    not in its list, or writes to the users. *)
Theorem bulkBlogs_touches_listed_only now caller body st k :
  (blogs st !! k = None -> blogs (bulkBlogs now caller body st).2 !! k = None)
  /\ (forall ids, BulkBody.blogIds body = Some ids -> k ∉ ids ->
                  blogs (bulkBlogs now caller body st).2 !! k = blogs st !! k)
  /\ users (bulkBlogs now caller body st).2 = users st.
Proof.
  split; [|split; [|apply bulkBlogs_users]].
  - intros Hk. destruct (blogs (bulkBlogs now caller body st).2 !! k) as [b'|] eqn:E;
      [|reflexivity].
    apply bulkBlogs_same_slug in E as (b & Hb & _). congruence.
  - intros ids Hids Hnot. unfold bulkBlogs.
    destruct (adminAuth caller); [reflexivity|].
    destruct (BulkBody.action body) as [[|c a]|]; try reflexivity.
    rewrite Hids.
    destruct (bulkSwitch now (c :: a) ids st) as [[res st']|] eqn:E; [|reflexivity].
    cbn [snd]. apply bulkSwitch_inv in E as [[_ E]|(_ & upd & _ & E)].
    + replace st' with (deleteMany ids st).2 by now rewrite <- E.
      apply option_eq. intros b. rewrite deleteMany_lookup. tauto.
    + replace st' with (updateMany ids upd st).2 by now rewrite <- E.
      rewrite updateMany_lookup. unfold matchesIn.
      rewrite bool_decide_eq_false_2 by assumption.
      now destruct (blogs st !! k).
Qed.


(** ** The list route *)

Lemma listBlogs_inv `{QueryEngine} run q st rep :
  listBlogs run q st = Ok rep ->
  exists test,
    searchTest q = Some test
    /\ rep = {| ListReply.blogs :=
                  take (Pos.to_nat (default 10%positive (ListQuery.limit q)))
                       (drop ((Pos.to_nat (default 1%positive (ListQuery.page q)) - 1)
                              * Pos.to_nat (default 10%positive (ListQuery.limit q)))
                             (sortedMatching run test q st));
                ListReply.totalPages :=
                  ceilDiv (Z.of_nat (length (findMatching test q st)))
                          (Z.pos (default 10%positive (ListQuery.limit q)));
                ListReply.currentPage := default 1%positive (ListQuery.page q);
                ListReply.total := Z.of_nat (length (findMatching test q st)) |}.
Proof.
  unfold listBlogs. destruct (searchTest q) as [test|]; [|discriminate].
  intros [= <-]. eauto.
Qed.

Lemma listBlogs_searchTest `{QueryEngine} run q st test :
  searchTest q = Some test -> exists rep, listBlogs run q st = Ok rep.
Proof. intros Ht. unfold listBlogs. rewrite Ht. eauto. Qed.

Lemma queryMatches_answers `{QueryEngine} test q st k b :
  searchTest q = Some test ->
  blogs st !! k = Some b -> test b && queryMatches q b = true -> answers q st (k, b).
Proof.
  intros Ht Hk Hm. apply andb_true_iff in Hm as [Hs Hm]. unfold queryMatches in Hm.
  rewrite !andb_true_iff in Hm. destruct Hm as [[[Hc Hst] Ha] Hf].
  unfold answers. cbn [fst snd]. split; [exact Hk|]. repeat apply conj.
  - intros s Hq. unfold searchTest in Ht. rewrite Hq in Ht. eauto.
  - intros c Hq. rewrite Hq in Hc. now apply bool_decide_eq_true in Hc.
  - intros s Hq. rewrite Hq in Hst. now apply bool_decide_eq_true in Hst.
  - intros a Hq. rewrite Hq in Ha. now apply bool_decide_eq_true in Ha.
  - intros f Hq. rewrite Hq in Hf. now apply bool_decide_eq_true in Hf.
Qed.

Lemma findMatching_answers `{QueryEngine} test q st :
  searchTest q = Some test -> Forall (answers q st) (findMatching test q st).
Proof.
  intros Ht. apply Forall_forall. intros [k b] Hin.
  apply list_elem_of_In, filter_In in Hin as [Hin Hm].
  apply list_elem_of_In, elem_of_map_to_list in Hin.
  now apply (queryMatches_answers test).
Qed.

Lemma NoDup_filter_bool {A : Type} (f : A -> bool) (l : list A) :
  List.NoDup l -> List.NoDup (List.filter f l).
Proof. apply List.NoDup_filter. Qed.

Lemma findMatching_NoDup test q st : NoDup (findMatching test q st).
Proof.
  apply NoDup_ListNoDup, NoDup_filter_bool, NoDup_ListNoDup, NoDup_map_to_list.
Qed.

Lemma sortedMatching_perm `{QueryEngine} run test q st :
  Permutation (sortedMatching run test q st) (findMatching test q st).
Proof. apply sortDocs_perm. Qed.

(** X12: every document on a page of the list route is a stored document
    that meets each condition the query carries (search, category, status,
    author, featured), and no document is on the page twice. *)
Theorem listBlogs_answers_query `{QueryEngine} run q st rep :
  listBlogs run q st = Ok rep ->
  Forall (answers q st) (ListReply.blogs rep) /\ NoDup (ListReply.blogs rep).
Proof.
  intros Hl. apply listBlogs_inv in Hl as (test & Ht & ->).
  cbn [ListReply.blogs]. split.
  - apply Forall_take, Forall_drop.
    eapply Permutation_Forall; [symmetry; apply sortedMatching_perm|].
    now apply findMatching_answers.
  - eapply sublist_NoDup; [|apply sublist_take].
    eapply sublist_NoDup; [|apply sublist_drop].
    rewrite sortedMatching_perm. apply findMatching_NoDup.
Qed.

Lemma listBlogs_answers_query_witness :
  exists rep,
    @listBlogs plainEngine 0 cultureQuery twoPosts = Ok rep
    /\ Forall (@answers plainEngine cultureQuery twoPosts) (ListReply.blogs rep)
    /\ NoDup (ListReply.blogs rep).
Proof.
  eexists. split; [reflexivity|].
  apply (@listBlogs_answers_query plainEngine 0 cultureQuery twoPosts).
  reflexivity.
Defined.

Lemma listBlogs_page_length `{QueryEngine} run q st rep :
  listBlogs run q st = Ok rep ->
  let page := Z.pos (default 1%positive (ListQuery.page q)) in
  let limit := Z.pos (default 10%positive (ListQuery.limit q)) in
  Z.of_nat (length (ListReply.blogs rep))
  = Z.max 0 (Z.min limit (ListReply.total rep - (page - 1) * limit)).
Proof.
  intros Hl. apply listBlogs_inv in Hl as (test & Ht & ->).
  cbn [ListReply.blogs ListReply.total].
  rewrite length_take, length_drop.
  rewrite (Permutation_length (sortedMatching_perm run test q st)).
  pose proof (Pos2Nat.is_pos (default 1%positive (ListQuery.page q))) as Hpos.
  rewrite Nat2Z.inj_min, Nat2Z.inj_sub_max, Nat2Z.inj_mul, Nat2Z.inj_sub by lia.
  rewrite !positive_nat_Z.
  set (skipped := (Z.pos (default 1%positive (ListQuery.page q)) - Z.of_nat 1)
                  * Z.pos (default 10%positive (ListQuery.limit q))).
  change (Z.of_nat 1) with 1 in *. fold skipped. lia.
Qed.

(** X13: a page holds the documents left after the earlier pages, and at
    most [limit] of them. *)
Theorem listBlogs_page_size `{QueryEngine} run q st rep :
  listBlogs run q st = Ok rep ->
  let page := Z.pos (default 1%positive (ListQuery.page q)) in
  let limit := Z.pos (default 10%positive (ListQuery.limit q)) in
  Z.of_nat (length (ListReply.blogs rep))
  = Z.max 0 (Z.min limit (ListReply.total rep - (page - 1) * limit)).
Proof. apply listBlogs_page_length. Qed.

Lemma listBlogs_page_size_witness :
  exists rep,
    @listBlogs plainEngine 0 cultureQuery twoPosts = Ok rep
    /\ Z.of_nat (length (ListReply.blogs rep))
       = Z.max 0 (Z.min 1 (ListReply.total rep - (1 - 1) * 1)).
Proof.
  eexists. split; [reflexivity|].
  apply (@listBlogs_page_size plainEngine 0 cultureQuery twoPosts).
  reflexivity.
Defined.

Lemma queryMatches_sameFilters q q' b :
  sameFilters q q' -> queryMatches q b = queryMatches q' b.
Proof.
  intros (Hs & Hc & Hst & Ha & Hf). unfold queryMatches.
  now rewrite Hc, Hst, Ha, Hf.
Qed.

Lemma searchTest_sameFilters `{QueryEngine} q q' :
  sameFilters q q' -> searchTest q = searchTest q'.
Proof. intros (Hs & _). unfold searchTest. now rewrite Hs. Qed.

(** X14: the total of a reply counts the stored documents that meet the
    conditions, whatever page, page size and ordering the query asks for;
    [totalPages] is the least number of pages of that size that hold them
    all, the pages up to it are not empty and the pages after it are. *)
Theorem listBlogs_total_and_pages `{QueryEngine} run q st rep :
  listBlogs run q st = Ok rep ->
  (exists test,
      searchTest q = Some test
      /\ ListReply.total rep
         = countWhere (fun _ b => test b && queryMatches q b) (blogs st))
  /\ (forall run' q' rep',
         sameFilters q q' -> listBlogs run' q' st = Ok rep' ->
         ListReply.total rep' = ListReply.total rep)
  /\ isCeiling (ListReply.totalPages rep) (ListReply.total rep)
               (Z.pos (default 10%positive (ListQuery.limit q)))
  /\ (ListReply.blogs rep = []
      <-> ListReply.totalPages rep < Z.pos (ListReply.currentPage rep)).
Proof.
  intros Hl. pose proof (listBlogs_page_length _ _ _ _ Hl) as Hsize.
  cbv zeta in Hsize. apply listBlogs_inv in Hl as (test & Ht & ->).
  cbn [ListReply.total ListReply.totalPages ListReply.currentPage ListReply.blogs] in *.
  assert (Hc : isCeiling (ceilDiv (Z.of_nat (length (findMatching test q st)))
                                  (Z.pos (default 10%positive (ListQuery.limit q))))
                         (Z.of_nat (length (findMatching test q st)))
                         (Z.pos (default 10%positive (ListQuery.limit q))))
    by now apply ceilDiv_isCeiling.
  split; [exists test; split; [exact Ht | reflexivity]|].
  split; [|split; [exact Hc|]].
  - intros run' q' rep' Hq Hl'. apply listBlogs_inv in Hl' as (test' & Ht' & ->).
    rewrite <- (searchTest_sameFilters _ _ Hq), Ht in Ht'. injection Ht' as <-.
    cbn [ListReply.total]. unfold findMatching.
    do 2 f_equal. apply filter_ext. intros [k b]. f_equal. symmetry.
    now apply queryMatches_sameFilters.
  - unfold isCeiling in Hc. rewrite <- length_zero_iff_nil. split; intros Hz.
    + rewrite Hz in Hsize. nia.
    + nia.
Qed.

Lemma listBlogs_total_and_pages_witness :
  exists rep,
    @listBlogs plainEngine 0 cultureQuery twoPosts = Ok rep
    /\ ListReply.total rep = 2 /\ ListReply.totalPages rep = 2
    /\ (ListReply.blogs rep = []
        <-> ListReply.totalPages rep < Z.pos (ListReply.currentPage rep)).
Proof.
  eexists. split; [reflexivity|].
  split; [vm_compute; reflexivity|]. split; [vm_compute; reflexivity|].
  apply (@listBlogs_total_and_pages plainEngine 0 cultureQuery twoPosts).
  reflexivity.
Defined.

(** A search that is no regular expression makes the route fail, whatever
    the store holds. *)
Lemma listBlogs_bad_search `{QueryEngine} run q st s :
  truthy (ListQuery.search q) = Some s -> regexCompile s = None ->
  listBlogs run q st = Fail StoreFailure.
Proof. intros Hs Hr. unfold listBlogs, searchTest. now rewrite Hs, Hr. Qed.

Lemma pages_concat {A : Type} (n size : nat) (l : list A) :
  flat_map (fun i => take size (drop (i * size) l)) (seq 0 n) = take (n * size) l.
Proof.
  induction n as [|n IH]; [reflexivity|].
  rewrite seq_S, flat_map_app, IH. cbn [flat_map plus].
  rewrite app_nil_r, take_take_drop. f_equal. lia.
Qed.

(** X15: when the database orders the matching documents in the same way
    for each of the requests (as it has to when no two of them have equal
    sort keys), the pages of a query, from the first to page [totalPages],
    put one after the other, are the matching documents in that order: each
    matching document is on exactly one of them.  [runOf i] is the
    execution that serves the page after the first [i]. *)
Theorem listBlogs_pages_cover `{QueryEngine} (runOf : nat -> nat) q st rep test :
  listBlogs (runOf 0%nat) q st = Ok rep ->
  searchTest q = Some test ->
  (forall i, sortedMatching (runOf i) test q st
             = sortedMatching (runOf 0%nat) test q st) ->
  flat_map (fun i => pageOf (listBlogs (runOf i) (atPage i q) st))
           (seq 0 (Z.to_nat (ListReply.totalPages rep)))
  = sortedMatching (runOf 0%nat) test q st
  /\ Permutation (sortedMatching (runOf 0%nat) test q st) (findMatching test q st).
Proof.
  intros Hl Ht Hsame. split; [|apply sortedMatching_perm].
  apply listBlogs_inv in Hl as (test' & Ht' & ->).
  rewrite Ht in Ht'. injection Ht' as <-. cbn [ListReply.totalPages].
  set (size := default 10%positive (ListQuery.limit q)).
  set (n := Z.to_nat (ceilDiv (Z.of_nat (length (findMatching test q st))) (Z.pos size))).
  transitivity (flat_map (fun i => take (Pos.to_nat size)
                                        (drop (i * Pos.to_nat size)
                                              (sortedMatching (runOf 0%nat) test q st)))
                         (seq 0 n)).
  { apply flat_map_ext. intros i. unfold listBlogs.
    assert (Hti : searchTest (atPage i q) = Some test) by exact Ht.
    rewrite Hti. cbn [pageOf ListReply.blogs].
    change (sortedMatching (runOf i) test (atPage i q) st)
      with (sortedMatching (runOf i) test q st).
    change (findMatching test (atPage i q) st) with (findMatching test q st).
    rewrite Hsame. cbn [atPage ListQuery.page ListQuery.limit from_option].
    unfold Datatypes.id. fold size. rewrite SuccNat2Pos.id_succ.
    replace (S i - 1)%nat with i by lia. reflexivity. }
  rewrite pages_concat. apply take_ge.
  rewrite (Permutation_length (sortedMatching_perm (runOf 0%nat) test q st)).
  pose proof (ceilDiv_isCeiling (Z.of_nat (length (findMatching test q st)))
                (Z.pos size) eq_refl) as Hc.
  unfold isCeiling in Hc. subst n.
  pose proof (Pos2Nat.is_pos size). nia.
Qed.

Lemma listBlogs_pages_cover_witness :
  exists rep,
    @listBlogs plainEngine (2 * 0) cultureQuery twoPosts = Ok rep
    /\ flat_map (fun i => pageOf (@listBlogs plainEngine (2 * i) (atPage i cultureQuery)
                                    twoPosts))
                (seq 0 (Z.to_nat (ListReply.totalPages rep)))
       = @sortedMatching plainEngine (2 * 0) (fun _ => true) cultureQuery twoPosts
    /\ Permutation
         (@sortedMatching plainEngine (2 * 0) (fun _ => true) cultureQuery twoPosts)
         (findMatching (fun _ => true) cultureQuery twoPosts).
Proof.
  eexists. split; [reflexivity|].
  apply (@listBlogs_pages_cover plainEngine (fun i => (2 * i)%nat) cultureQuery twoPosts
           _ (fun _ => true)).
  - reflexivity.
  - reflexivity.
  - intros i. unfold sortedMatching. cbn [sortDocs plainEngine].
    now rewrite !Nat.even_even.
Defined.

(** When the orders differ, they need not: the engine that orders the odd
    executions the other way round puts the same post on both pages of the
    two posts, and the other post on none. *)
Example listBlogs_pages_may_repeat :
  pageOf (@listBlogs plainEngine 0 (atPage 0 cultureQuery) twoPosts)
  = pageOf (@listBlogs plainEngine 1 (atPage 1 cultureQuery) twoPosts)
  /\ length (pageOf (@listBlogs plainEngine 0 (atPage 0 cultureQuery) twoPosts)) = 1%nat.
Proof. split; vm_compute; reflexivity. Qed.


(** ** Grouping and ordering *)

Section Grouping.
Context {K : Type} `{EqDecision K}.

Lemma tally_bump (d k : K) acc :
  tally d (bump k acc) = tally d acc + (if bool_decide (k = d) then 1 else 0).
Proof.
  induction acc as [|[k' n] acc IH]; simpl.
  - destruct (bool_decide (k = d)); lia.
  - destruct (decide (k = k')) as [->|Hne].
    + rewrite bool_decide_eq_true_2 by reflexivity. simpl.
      destruct (bool_decide (k' = d)); lia.
    + rewrite bool_decide_eq_false_2 by assumption. simpl. rewrite IH.
      destruct (bool_decide (k' = d)); lia.
Qed.

Lemma sumCounts_bump (k : K) acc : sumCounts (bump k acc) = sumCounts acc + 1.
Proof.
  induction acc as [|[k' n] acc IH]; simpl; [lia|].
  case_bool_decide; simpl; lia.
Qed.

Lemma keys_bump (k' k : K) acc :
  In k' (map fst (bump k acc)) <-> k' = k \/ In k' (map fst acc).
Proof.
  induction acc as [|[k0 n] acc IH]; simpl.
  - intuition.
  - case_bool_decide as Hk; simpl.
    + subst. intuition.
    + rewrite IH. intuition.
Qed.

Lemma NoDup_bump (k : K) acc :
  List.NoDup (map fst acc) -> List.NoDup (map fst (bump k acc)).
Proof.
  induction acc as [|[k0 n] acc IH]; simpl; intros Hnd.
  - constructor; [intros [] | constructor].
  - inversion Hnd as [|? ? Hnot Hnd']; subst.
    case_bool_decide as Hk; simpl.
    + now constructor.
    + constructor; [|now apply IH].
      rewrite keys_bump. intros [->|Hin]; [now apply Hk | contradiction].
Qed.

Lemma positive_bump (k : K) acc :
  Forall (fun kn : K * Z => 0 < kn.2) acc ->
  Forall (fun kn : K * Z => 0 < kn.2) (bump k acc).
Proof.
  induction 1 as [|[k0 n] acc Hn Hacc IH]; simpl.
  - repeat constructor.
  - case_bool_decide; constructor; simpl in *; auto; lia.
Qed.

Lemma countBy_from {A : Type} (key : A -> K) (l : list A) acc :
  List.NoDup (map fst acc) -> Forall (fun kn : K * Z => 0 < kn.2) acc ->
  let res := fold_left (fun acc x => bump (key x) acc) l acc in
  List.NoDup (map fst res)
  /\ Forall (fun kn : K * Z => 0 < kn.2) res
  /\ (forall k, tally k res = tally k acc + occurrences key k l)
  /\ sumCounts res = sumCounts acc + Z.of_nat (length l).
Proof.
  revert acc. induction l as [|x l IH]; intros acc Hnd Hpos; simpl.
  - repeat split; auto; unfold occurrences; simpl; lia.
  - destruct (IH (bump (key x) acc)) as (H1 & H2 & H3 & H4);
      [now apply NoDup_bump | now apply positive_bump|].
    repeat split; auto.
    + intros k. rewrite H3, tally_bump. unfold occurrences. simpl.
      destruct (bool_decide (key x = k)); simpl; lia.
    + rewrite H4, sumCounts_bump. lia.
Qed.

Lemma tally_absent (k : K) acc : ~ In k (map fst acc) -> tally k acc = 0.
Proof.
  induction acc as [|[k' n] acc IH]; simpl; [reflexivity|].
  intros Hnot. rewrite bool_decide_eq_false_2 by tauto. apply IH. tauto.
Qed.

Lemma tally_member (k : K) n acc :
  List.NoDup (map fst acc) -> In (k, n) acc -> tally k acc = n.
Proof.
  induction acc as [|[k' m] acc IH]; simpl; [contradiction|].
  intros Hnd Hin. inversion Hnd as [|? ? Hnot Hnd']; subst.
  destruct Hin as [[= -> ->]|Hin].
  - rewrite bool_decide_eq_true_2 by reflexivity.
    rewrite tally_absent by assumption. lia.
  - rewrite bool_decide_eq_false_2.
    + now apply IH.
    + intros ->. apply Hnot. apply in_map_iff. now exists (k, n).
Qed.

Lemma tally_found (k : K) acc : tally k acc <> 0 -> exists n, In (k, n) acc.
Proof.
  induction acc as [|[k' m] acc IH]; simpl; [congruence|].
  case_bool_decide as Hk.
  - subst. eauto.
  - intros Hne. destruct (IH Hne) as [n Hn]. eauto.
Qed.

(** What [countBy] returns: one entry for each key that occurs, holding the
    number of its occurrences; the counts add up to the length of the
    input. *)
Lemma countBy_spec {A : Type} (key : A -> K) (l : list A) :
  List.NoDup (map fst (countBy key l))
  /\ (forall k n, In (k, n) (countBy key l) <-> n = occurrences key k l /\ 0 < n)
  /\ sumCounts (countBy key l) = Z.of_nat (length l).
Proof.
  destruct (countBy_from key l []) as (Hnd & Hpos & Ht & Hsum);
    [constructor | constructor|].
  cbv zeta in *. fold (countBy key l) in *.
  split; [exact Hnd|]. split; [|simpl in Hsum; lia].
  intros k n. split.
  - intros Hin. split.
    + rewrite <- (tally_member _ _ _ Hnd Hin), Ht. simpl. lia.
    + rewrite Forall_forall in Hpos. apply (Hpos (k, n)). now apply list_elem_of_In.
  - intros [-> Hlt]. destruct (tally_found k (countBy key l)) as [m Hm].
    + rewrite Ht. simpl. lia.
    + pose proof (tally_member _ _ _ Hnd Hm) as Hm'. rewrite Ht in Hm'.
      simpl in Hm'. replace (occurrences key k l) with m by lia. exact Hm.
Qed.
End Grouping.

Section Ordering.
Context {A : Type} (key : A -> Z).

Lemma insertDesc_perm x l : Permutation (insertDesc key x l) (x :: l).
Proof.
  induction l as [|y l IH]; simpl; [reflexivity|].
  destruct (key x <=? key y); [|reflexivity].
  rewrite IH. apply perm_swap.
Qed.

Lemma sortDescBy_perm l : Permutation (sortDescBy key l) l.
Proof.
  induction l as [|x l IH]; simpl; [reflexivity|].
  now rewrite insertDesc_perm, IH.
Qed.

Lemma insertDesc_sorted x l :
  StronglySorted (descending key) l ->
  StronglySorted (descending key) (insertDesc key x l).
Proof.
  induction 1 as [|y l Hs IH Hall]; simpl.
  - repeat constructor.
  - destruct (key x <=? key y) eqn:Hle.
    + constructor; [exact IH|].
      eapply Permutation_Forall; [symmetry; apply insertDesc_perm|].
      constructor; [unfold descending; lia | exact Hall].
    + constructor; [now constructor|].
      constructor; [unfold descending; lia|].
      eapply Forall_impl; [exact Hall|]. unfold descending. intros z Hz. lia.
Qed.

Lemma sortDescBy_sorted l : StronglySorted (descending key) (sortDescBy key l).
Proof.
  induction l as [|x l IH]; simpl; [constructor | now apply insertDesc_sorted].
Qed.

(** In a descending list, what the first [n] elements leave out is no
    greater than any of them. *)
Lemma sorted_take_dominates n l x y :
  StronglySorted (descending key) l ->
  In x (take n l) -> In y (drop n l) -> key y <= key x.
Proof.
  intros Hs. revert n. induction Hs as [|z l Hs IH Hall]; intros n.
  - now destruct n.
  - destruct n as [|n]; [intros []|]. simpl. intros [<-|Hx] Hy.
    + rewrite Forall_forall in Hall. apply Hall, list_elem_of_In.
      rewrite <- (take_drop n l). apply in_or_app. now right.
    + eapply IH; eauto.
Qed.
End Ordering.


(** ** Statistics *)

Lemma StronglySorted_prefix {A : Type} (R : A -> A -> Prop) n l :
  StronglySorted R l -> StronglySorted R (take n l).
Proof.
  intros Hs. revert n. induction Hs as [|x l Hs IH Hall]; intros [|n]; simpl;
    try constructor; auto.
  now apply Forall_take.
Qed.

(** The first [n] documents by a descending numeric key. *)
Lemma topN_spec {A : Type} (key : A -> Z) (n : nat) (l : list A) :
  NoDup l ->
  let top := take n (sortDescBy key l) in
  length top = min n (length l)
  /\ Forall (fun x => In x l) top
  /\ NoDup top
  /\ StronglySorted (descending key) top
  /\ (forall x y, In x top -> In y l -> ~ In y top -> key y <= key x).
Proof.
  intros Hnd. cbv zeta.
  pose proof (sortDescBy_perm key l) as Hperm.
  pose proof (sortDescBy_sorted key l) as Hsorted.
  split; [now rewrite length_take, (Permutation_length Hperm)|].
  split.
  { apply Forall_take. eapply Permutation_Forall; [symmetry; exact Hperm|].
    apply Forall_forall. intros x Hx. now apply list_elem_of_In. }
  split.
  { eapply sublist_NoDup; [|apply sublist_take]. now rewrite Hperm. }
  split; [now apply StronglySorted_prefix|].
  intros x y Hx Hy Hnot.
  apply (sorted_take_dominates key n (sortDescBy key l)); auto.
  assert (Hy' : In y (sortDescBy key l)).
  { apply list_elem_of_In. rewrite Hperm. now apply list_elem_of_In. }
  rewrite <- (take_drop n (sortDescBy key l)) in Hy'.
  apply in_app_or in Hy' as [Hy'|Hy']; [contradiction | exact Hy'].
Qed.

Lemma NoDup_filter_docs (f : ObjectId * Blog.t -> bool) (m : gmap ObjectId Blog.t) :
  NoDup (List.filter f (map_to_list m)).
Proof. apply NoDup_ListNoDup, List.NoDup_filter, NoDup_ListNoDup, NoDup_map_to_list. Qed.

Lemma countWhere_all (m : gmap ObjectId Blog.t) :
  countWhere (fun _ _ => true) m = Z.of_nat (length (map_to_list m)).
Proof.
  unfold countWhere. rewrite forallb_filter_id; [reflexivity|].
  now apply forallb_forall.
Qed.

(** X16: the top posts of the statistics are at most five stored, published
    posts, all the published ones when there are fewer than five, in
    descending order of views; no published post left out has more views
    than one that is listed. *)
Theorem topBlogs_are_top st :
  Z.of_nat (length (topBlogs st)) = Z.min 5 (publishedBlogs st)
  /\ Forall (fun kb => blogs st !! kb.1 = Some kb.2 /\ Blog.status kb.2 = Published)
            (topBlogs st)
  /\ NoDup (topBlogs st)
  /\ StronglySorted (descending (fun kb => views (Blog.stats kb.2))) (topBlogs st)
  /\ (forall k b k' b',
         blogs st !! k = Some b -> Blog.status b = Published ->
         ~ In (k, b) (topBlogs st) -> In (k', b') (topBlogs st) ->
         views (Blog.stats b) <= views (Blog.stats b')).
Proof.
  unfold topBlogs.
  destruct (topN_spec (fun kb : ObjectId * Blog.t => views (Blog.stats kb.2)) 5
              (List.filter (fun kb => bool_decide (Blog.status kb.2 = Published))
                           (map_to_list (blogs st))))
    as (Hlen & Hin & Hnd & Hs & Hdom); [apply NoDup_filter_docs|].
  cbv zeta in *. split; [|split; [|split; [exact Hnd|split; [exact Hs|]]]].
  - rewrite Hlen. unfold publishedBlogs, countWhere. lia.
  - eapply Forall_impl; [exact Hin|]. intros [k b] Hkb.
    apply filter_In in Hkb as [Hkb Hp]. apply bool_decide_eq_true in Hp.
    split; [|exact Hp]. now apply elem_of_map_to_list, list_elem_of_In.
  - intros k b k' b' Hk Hp Hnot Hin'.
    apply (Hdom (k', b') (k, b)); auto.
    apply filter_In. split.
    + now apply list_elem_of_In, elem_of_map_to_list.
    + now apply bool_decide_eq_true.
Qed.

(** X17: the recent posts of the statistics are at most five stored posts,
    all of them when there are fewer than five, from the newest on; no post
    left out was created after one that is listed. *)
Theorem recentBlogs_are_newest st :
  Z.of_nat (length (recentBlogs st)) = Z.min 5 (totalBlogs st)
  /\ Forall (fun kb => blogs st !! kb.1 = Some kb.2) (recentBlogs st)
  /\ NoDup (recentBlogs st)
  /\ StronglySorted (descending (fun kb => Blog.createdAt kb.2)) (recentBlogs st)
  /\ (forall k b k' b',
         blogs st !! k = Some b ->
         ~ In (k, b) (recentBlogs st) -> In (k', b') (recentBlogs st) ->
         Blog.createdAt b <= Blog.createdAt b').
Proof.
  unfold recentBlogs.
  destruct (topN_spec (fun kb : ObjectId * Blog.t => Blog.createdAt kb.2) 5
              (map_to_list (blogs st)))
    as (Hlen & Hin & Hnd & Hs & Hdom); [apply NoDup_map_to_list|].
  cbv zeta in *. split; [|split; [|split; [exact Hnd|split; [exact Hs|]]]].
  - rewrite Hlen. unfold totalBlogs. rewrite countWhere_all. lia.
  - eapply Forall_impl; [exact Hin|]. intros [k b] Hkb.
    now apply elem_of_map_to_list, list_elem_of_In.
  - intros k b k' b' Hk Hnot Hin'.
    apply (Hdom (k', b') (k, b)); auto.
    now apply list_elem_of_In, elem_of_map_to_list.
Qed.

Lemma countWhere_le p q (m : gmap ObjectId Blog.t) :
  (forall k b, m !! k = Some b -> p k b = true -> q k b = true) ->
  countWhere p m <= countWhere q m.
Proof.
  intros Hpq. unfold countWhere.
  assert (Hall : Forall (fun kb : ObjectId * Blog.t => p kb.1 kb.2 = true -> q kb.1 kb.2 = true)
                        (map_to_list m)).
  { apply Forall_forall. intros [k b] Hin. apply Hpq.
    now apply elem_of_map_to_list. }
  induction Hall as [|[k b] l Hx _ IH]; simpl; [lia|].
  simpl in Hx. destruct (p k b); simpl.
  - rewrite Hx by reflexivity. simpl. lia.
  - destruct (q k b); simpl; lia.
Qed.

Lemma sumCounts_perm {K : Type} (l l' : list (K * Z)) :
  Permutation l l' -> sumCounts l = sumCounts l'.
Proof. induction 1; simpl; lia. Qed.

(** X18: in the category distribution of the statistics and of the
    dashboard, a category has an entry exactly when some post carries it,
    the entry holds the number of those posts, no category has two entries,
    the entries come in descending order of their counts, and the counts
    add up to the total number of posts. *)
Theorem categoryStats_distribution st :
  (forall c n,
      In (c, n) (categoryStats st)
      <-> n = countWhere (fun _ b => bool_decide (Blog.category b = c)) (blogs st)
          /\ 0 < n)
  /\ NoDup (map fst (categoryStats st))
  /\ StronglySorted (descending snd) (categoryStats st)
  /\ sumCounts (categoryStats st) = totalBlogs st.
Proof.
  unfold categoryStats.
  set (groups := countBy (fun kb : ObjectId * Blog.t => Blog.category kb.2)
                         (map_to_list (blogs st))).
  destruct (countBy_spec (fun kb : ObjectId * Blog.t => Blog.category kb.2)
              (map_to_list (blogs st))) as (Hnd & Hmem & Hsum).
  fold groups in Hnd, Hmem, Hsum.
  pose proof (sortDescBy_perm snd groups) as Hperm.
  split; [|split; [|split]].
  - intros c n. rewrite <- (Hmem c n).
    split; intros Hin; apply list_elem_of_In; apply list_elem_of_In in Hin.
    + now rewrite <- Hperm.
    + now rewrite Hperm.
  - apply NoDup_ListNoDup.
    eapply Permutation_NoDup; [apply Permutation_map; symmetry; exact Hperm | exact Hnd].
  - apply sortDescBy_sorted.
  - unfold totalBlogs. rewrite countWhere_all, <- Hsum.
    now apply sumCounts_perm.
Qed.

Lemma sumCounts_addToBucket k acc : sumCounts (addToBucket k acc) = sumCounts acc + 1.
Proof.
  induction acc as [|[k' n] r IH]; simpl; [reflexivity|].
  case_bool_decide; simpl; lia.
Qed.

Lemma sumCounts_groupStage docs : sumCounts (groupStage docs) = Z.of_nat (length docs).
Proof.
  unfold groupStage.
  assert (Hgen : forall acc,
             sumCounts (fold_left (fun acc b => addToBucket (dayOf (Blog.createdAt b)) acc)
                                  docs acc)
             = sumCounts acc + Z.of_nat (length docs)).
  { induction docs as [|b docs IH]; intros acc; simpl length; simpl fold_left; [lia|].
    rewrite IH, sumCounts_addToBucket. lia. }
  rewrite Hgen. reflexivity.
Qed.

Lemma sumCounts_insertBucket x l : sumCounts (insertBucket x l) = x.2 + sumCounts l.
Proof.
  induction l as [|y r IH]; simpl; [reflexivity|].
  destruct (dayLtb y.1 x.1); simpl; lia.
Qed.

Lemma sumCounts_sortStage l : sumCounts (sortStage l) = sumCounts l.
Proof.
  induction l as [|x l IH]; simpl; [reflexivity|].
  rewrite sumCounts_insertBucket. lia.
Qed.

Lemma filter_map_snd_length (f : Blog.t -> bool) (l : list (ObjectId * Blog.t)) :
  length (List.filter f (map snd l)) = length (List.filter (fun kb => f kb.2) l).
Proof.
  induction l as [|[k b] l IH]; simpl; [reflexivity|].
  destruct (f b); simpl; congruence.
Qed.

Lemma sumCounts_monthlyTrend now st :
  sumCounts (monthlyTrend now st)
  = countWhere (fun _ b => inTrailing30 now (Blog.createdAt b)) (blogs st).
Proof.
  unfold monthlyTrend, matchStage, countWhere, inTrailing30.
  now rewrite sumCounts_sortStage, sumCounts_groupStage, filter_map_snd_length.
Qed.

(** X19: the counts of the dashboard's creation trend add up to the number
    of posts created in the last 30 days; the dashboard's count of recent
    posts, those of the last 7 days, is at most that sum, which in turn is
    at most the total number of posts. *)
Theorem dashboard_trend_sums now st :
  let d := dashboard now st in
  sumCounts (Dashboard.monthlyBlogCreation d)
  = countWhere (fun _ b => inTrailing30 now (Blog.createdAt b)) (blogs st)
  /\ Dashboard.recentBlogs d <= sumCounts (Dashboard.monthlyBlogCreation d)
  /\ sumCounts (Dashboard.monthlyBlogCreation d) <= Dashboard.totalBlogs d.
Proof.
  cbv zeta. cbn [dashboard Dashboard.monthlyBlogCreation Dashboard.recentBlogs
                 Dashboard.totalBlogs].
  rewrite sumCounts_monthlyTrend. split; [reflexivity|]. split.
  - apply countWhere_le. intros k b _ Hrecent.
    unfold inTrailing30, thirtyDaysAgo. unfold sevenDaysAgo in Hrecent.
    unfold msPerDay in *. lia.
  - unfold totalBlogs. apply countWhere_le. reflexivity.
Qed.

(** X20: the dashboard's published and draft counts and the number of
    scheduled and archived posts add up to its total: every stored post has
    one of the four statuses. *)
Theorem dashboard_status_counts now st :
  let d := dashboard now st in
  Dashboard.publishedBlogs d + Dashboard.draftBlogs d
  + countWhere (fun _ b => bool_decide (Blog.status b = Scheduled)
                           || bool_decide (Blog.status b = Archived)) (blogs st)
  = Dashboard.totalBlogs d.
Proof.
  cbv zeta. cbn [dashboard Dashboard.publishedBlogs Dashboard.draftBlogs
                 Dashboard.totalBlogs].
  unfold publishedBlogs, draftBlogs, totalBlogs, countWhere.
  induction (map_to_list (blogs st)) as [|[k b] l IH]; [reflexivity|].
  cbn [List.filter fst snd]. destruct (Blog.status b); simpl; lia.
Qed.

(** X21: in the dashboard's role distribution a role has an entry exactly
    when some user holds it, the entry holds the number of those users, no
    role has two entries, and the counts add up to the number of users. *)
Theorem userRoles_distribution st :
  (forall r n,
      In (r, n) (userRoles st)
      <-> n = occurrences (fun ku : ObjectId * User.t => User.role ku.2) r
                          (map_to_list (users st))
          /\ 0 < n)
  /\ NoDup (map fst (userRoles st))
  /\ sumCounts (userRoles st) = totalUsers st.
Proof.
  unfold userRoles, totalUsers.
  destruct (countBy_spec (fun ku : ObjectId * User.t => User.role ku.2)
              (map_to_list (users st))) as (Hnd & Hmem & Hsum).
  split; [exact Hmem|]. split; [now apply NoDup_ListNoDup | exact Hsum].
Qed.


(** ** The dashboard's totals and the read route *)

Lemma sumStat_perm field l l' : Permutation l l' -> sumStat field l = sumStat field l'.
Proof. induction 1; simpl; lia. Qed.

Lemma sumStat_replace field (m : gmap ObjectId Blog.t) id old after :
  m !! id = Some old ->
  sumStat field (map_to_list (<[id := after]> m))
  = sumStat field (map_to_list m) - field (Blog.stats old) + field (Blog.stats after).
Proof.
  intros Hold.
  rewrite <- (sumStat_perm field _ _ (map_to_list_delete m id old Hold)).
  rewrite <- (insert_delete_eq m id after).
  rewrite (sumStat_perm field _ _
             (map_to_list_insert (delete id m) id after (lookup_delete_eq m id))).
  simpl. lia.
Qed.

Lemma statOrZero_sum (field : Stats -> Z) (proj : ViewsStats.t -> Z) st :
  (forall docs, proj {| ViewsStats.totalViews := sumStat views docs;
                        ViewsStats.totalLikes := sumStat likes docs;
                        ViewsStats.totalShares := sumStat shares docs |}
                = sumStat field docs) ->
  statOrZero proj (viewsStats st) = sumStat field (map_to_list (blogs st)).
Proof.
  intros Hproj. unfold viewsStats.
  destruct (map_to_list (blogs st)) as [|kb docs]; [reflexivity|].
  unfold statOrZero. rewrite Hproj. destruct (Z.eqb_spec (sumStat field (kb :: docs)) 0); lia.
Qed.

Lemma sumStat_nonneg field l :
  Forall (fun kb : ObjectId * Blog.t => 0 <= field (Blog.stats kb.2)) l ->
  0 <= sumStat field l.
Proof. induction 1; simpl; lia. Qed.

Lemma sumStat_member field (m : gmap ObjectId Blog.t) id old :
  (forall k b, m !! k = Some b -> 0 <= field (Blog.stats b)) ->
  m !! id = Some old ->
  0 <= field (Blog.stats old) <= sumStat field (map_to_list m).
Proof.
  intros Hall Hold. split; [now apply (Hall id)|].
  rewrite <- (sumStat_perm field _ _ (map_to_list_delete m id old Hold)). simpl.
  assert (0 <= sumStat field (map_to_list (delete id m))); [|lia].
  apply sumStat_nonneg, Forall_forall. intros [k b] Hin.
  apply elem_of_map_to_list, lookup_delete_Some in Hin as [_ Hin].
  now apply (Hall k).
Qed.

(** X22: when the view counters of the stored posts are non-negative
    integers whose sum is below 2^53, the dashboard's total of views is
    that sum (0 when there is no post); a read that succeeds raises the
    total by exactly one, a read that fails, because it finds no post or
    because the post it finds does not pass the validators, leaves it; and
    no read changes the totals of likes and shares. *)
Theorem read_raises_totalViews `{LowerCase} t now identifier st :
  (forall k b, blogs st !! k = Some b -> 0 <= views (Blog.stats b)) ->
  allViews st < 2 ^ 53 ->
  let st' := (getBlog now identifier st).2 in
  Dashboard.totalViews (dashboard t st) = allViews st
  /\ Dashboard.totalViews (dashboard t st')
     = Dashboard.totalViews (dashboard t st)
       + (if isOk (getBlog now identifier st).1 then 1 else 0)
  /\ Dashboard.totalLikes (dashboard t st') = Dashboard.totalLikes (dashboard t st)
  /\ Dashboard.totalShares (dashboard t st') = Dashboard.totalShares (dashboard t st).
Proof.
  intros Hpos Hsum.
  cbv zeta. cbn [dashboard Dashboard.totalViews Dashboard.totalLikes Dashboard.totalShares].
  rewrite !(statOrZero_sum views ViewsStats.totalViews) by reflexivity.
  rewrite !(statOrZero_sum likes ViewsStats.totalLikes) by reflexivity.
  rewrite !(statOrZero_sum shares ViewsStats.totalShares) by reflexivity.
  split; [reflexivity|].
  destruct (getBlog_inv now identifier st)
    as [[e Hmiss] | (id & old & after & Hold & _ & Hafter & Hhit)].
  - rewrite Hmiss. cbn [fst snd isOk]. repeat split; lia.
  - rewrite Hhit. cbn [fst snd isOk blogs setBlogs].
    rewrite !(sumStat_replace _ _ id old after Hold).
    pose proof (sumStat_member views _ _ _ Hpos Hold) as Hmem.
    unfold allViews in Hsum.
    assert (Hlimit : belowLimit (views (Blog.stats old))).
    { unfold belowLimit. change (2 ^ 53) with 9007199254740992 in *. lia. }
    destruct (read_viewedOnce now old Hlimit)
      as (Hv & _ & _ & _ & _ & _ & _ & _ & _ & _ & _ & _ & _ & _ & _ & _
          & _ & _ & _ & Hl & Hs & _).
    rewrite <- Hafter in Hv, Hl, Hs. repeat split; lia.
Qed.

Lemma read_raises_totalViews_witness :
  Dashboard.totalViews (dashboard 6000 sampleStore) = allViews sampleStore
  /\ Dashboard.totalViews
       (dashboard 6000 (@getBlog asciiRuntime 5000 (str "hello-world") sampleStore).2)
     = Dashboard.totalViews (dashboard 6000 sampleStore)
       + (if isOk (@getBlog asciiRuntime 5000 (str "hello-world") sampleStore).1
          then 1 else 0)
  /\ Dashboard.totalLikes
       (dashboard 6000 (@getBlog asciiRuntime 5000 (str "hello-world") sampleStore).2)
     = Dashboard.totalLikes (dashboard 6000 sampleStore)
  /\ Dashboard.totalShares
       (dashboard 6000 (@getBlog asciiRuntime 5000 (str "hello-world") sampleStore).2)
     = Dashboard.totalShares (dashboard 6000 sampleStore).
Proof.
  apply (@read_raises_totalViews asciiRuntime 6000 5000 (str "hello-world") sampleStore).
  - intros k b Hk. unfold sampleStore in Hk. cbn [blogs] in Hk.
    apply lookup_singleton_Some in Hk as [_ <-]. vm_compute. discriminate.
  - vm_compute. reflexivity.
Defined.
